(** * download_prism.py: download, unpack and combine daily PRISM rasters

    A shallow embedding of [src/download_prism.py] and the properties of
    its unpack / enumerate / drive pipeline.

    Conventions of the embedding:
    - Python [str] is [string]; file contents are [list Byte.byte].
    - A local directory is a finite map from file names to contents; the
      temporary directories of the process are a finite map from directory
      handles to directories.
    - Code that raises returns a [result]; code that also touches the file
      system, the clock or the remote store runs in the state-and-exception
      monad [M].
    - The remote store, the archive decoder, the local disk and the
      raster libraries are collaborators of the program: what they answer
      is a component of the world the process runs in, so a theorem about
      every world is a theorem about every behaviour of theirs. *)

From Stdlib Require Import ZArith String Ascii List Lia Bool QArith.
From Stdlib Require Import Numbers.DecimalString.
From stdpp Require Import base option list gmap sets strings.

Close Scope Q_scope.
#[local] Arguments String.append !_ _ : simpl nomatch.
Open Scope string_scope.
Open Scope Z_scope.
Open Scope list_scope.

(* ===================================================================== *)
(** ** Exceptions and results *)
(* ===================================================================== *)

Abbreviation bytes := (list Byte.byte).

(** A local path: a directory handle and the name of a file in it.  This is
    what [dumpdir.joinpath(p.name)] builds. *)
Record Path := { parent : nat; fname : string }.

(** The two [raise ZipBilFileError(...)] sites of [_dump_zippedbil]. *)
Inductive zip_bil_reason :=
| MultipleBil (bil_path outpath : Path)
| NoBil.

Inductive exn :=
| TimeoutError
| ZipBilFileError (why : zip_bil_reason)
| ValueError
| IndexError
| KeyError
| FileNotFoundError
| IsADirectoryError
| OtherError (cls : string).

Inductive result (A : Type) :=
| Ok (a : A)
| Raise (e : exn).
Arguments Ok {A} a.
Arguments Raise {A} e.

Definition is_ok {A} (r : result A) : bool :=
  match r with Ok _ => true | Raise _ => false end.

(** [except (TimeoutError,)] *)
Definition is_TimeoutError (e : exn) : bool :=
  match e with TimeoutError => true | _ => false end.

(** State and exceptions: a computation from a state to a result and the
    state it leaves behind (the state survives a raise, as side effects do
    in Python). *)
Definition M (S A : Type) : Type := S -> result A * S.

Definition ret {S A} (a : A) : M S A := fun s => (Ok a, s).
Definition raise {S A} (e : exn) : M S A := fun s => (Raise e, s).
Definition bind {S A B} (m : M S A) (k : A -> M S B) : M S B :=
  fun s => match m s with
           | (Ok a, s') => k a s'
           | (Raise e, s') => (Raise e, s')
           end.
Definition lift {S A} (r : result A) : M S A := fun s => (r, s).

Declare Scope py_scope.
Delimit Scope py_scope with py.
Notation "x <- m ;; k" := (bind m (fun x => k))
  (at level 100, m at next level, right associativity) : py_scope.
Notation "m ;;; k" := (bind m (fun _ => k))
  (at level 100, right associativity) : py_scope.
Open Scope py_scope.

(** [for x in xs: ys.append(f(x))], stopping at the first raise. *)
Fixpoint for_each {S A B} (f : A -> M S B) (xs : list A) : M S (list B) :=
  match xs with
  | [] => ret []
  | x :: rest => y <- f x ;; ys <- for_each f rest ;; ret (y :: ys)
  end.

(* ===================================================================== *)
(** ** Python strings and pathlib *)
(* ===================================================================== *)

(** [s.split(sep)] for a one-character separator: one more field than
    there are separators, empty fields kept. *)
Fixpoint split (sep : ascii) (s : string) : list string :=
  match s with
  | "" => [""]
  | String c r =>
      if Ascii.eqb c sep then "" :: split sep r
      else match split sep r with
           | f :: fs => String c f :: fs
           | [] => [String c ""]
           end
  end.

(** [l[-2]] *)
Definition second_to_last {A} (l : list A) : result A :=
  match rev l with
  | _ :: x :: _ => Ok x
  | _ => Raise IndexError
  end.

(** [name.rfind('.')], as the text before and after the last dot. *)
Fixpoint rfind_dot (s : string) : option (string * string) :=
  match s with
  | "" => None
  | String c r =>
      match rfind_dot r with
      | Some (a, b) => Some (String c a, b)
      | None => if Ascii.eqb c "." then Some ("", r) else None
      end
  end.

Definition nonempty (s : string) : bool :=
  match s with "" => false | _ => true end.

Module PurePath.

(** The components of a POSIX path: empty and [.] components are
    dropped, [..] is kept. *)
Definition parts (p : string) : list string :=
  filter (fun x => x <> "" /\ x <> ".") (split "/" p).

(** [Path(p).name]: the final component, [''] when there is none. *)
Definition name (p : string) : string := List.last (parts p) "".

(** [0 < i < len(name) - 1] for [i = name.rfind('.')]: the split of a
    name at its last dot when neither side is empty. *)
Definition split_suffix (nm : string) : option (string * string) :=
  match rfind_dot nm with
  | Some (a, b) => if nonempty a && nonempty b then Some (a, b) else None
  | None => None
  end.

(** [Path(p).suffix] *)
Definition suffix (p : string) : string :=
  match split_suffix (name p) with
  | Some (_, b) => "." +:+ b
  | None => ""
  end.

(** [Path(p).stem] *)
Definition stem (p : string) : string :=
  match split_suffix (name p) with
  | Some (a, _) => a
  | None => name p
  end.

End PurePath.

(** [dumpdir.joinpath(name)] for a single-component name. *)
Definition joinpath (d : nat) (nm : string) : Path :=
  {| parent := d; fname := nm |}.

(** [path.with_suffix(suffix)]: [ValueError] on an empty name. *)
Definition with_suffix (p : Path) (suffix : string) : result Path :=
  if nonempty (fname p)
  then Ok {| parent := parent p;
             fname := PurePath.stem (fname p) +:+ suffix |}
  else Raise ValueError.

(* ===================================================================== *)
(** ** datetime.strptime(token, "%Y%m%d") *)
(* ===================================================================== *)

Record datetime := { year : Z; month : Z; day : Z }.

Definition in_range (lo hi : ascii) (c : ascii) : bool :=
  ((nat_of_ascii lo <=? nat_of_ascii c) && (nat_of_ascii c <=? nat_of_ascii hi))%nat.
Definition is_digit : ascii -> bool := in_range "0" "9".
Definition digit_val (c : ascii) : Z := Z.of_nat (nat_of_ascii c) - 48.

(** An alternative of a directive's regular expression: it consumes a
    prefix of the text and yields the number it read. *)
Definition alt := string -> option (Z * string).

Definition two (p1 p2 : ascii -> bool) : alt := fun s =>
  match s with
  | String a (String b r) =>
      if p1 a && p2 b then Some (10 * digit_val a + digit_val b, r) else None
  | _ => None
  end.

Definition one (p : ascii -> bool) : alt := fun s =>
  match s with
  | String a r => if p a then Some (digit_val a, r) else None
  | _ => None
  end.

Definition space_one (p : ascii -> bool) : alt := fun s =>
  match s with
  | String sp (String a r) =>
      if Ascii.eqb sp " " && p a then Some (digit_val a, r) else None
  | _ => None
  end.

(** [%Y] is [\d\d\d\d]. *)
Definition re_Y : alt := fun s =>
  match s with
  | String a (String b (String c (String d r))) =>
      if is_digit a && is_digit b && is_digit c && is_digit d
      then Some (1000 * digit_val a + 100 * digit_val b
                 + 10 * digit_val c + digit_val d, r)
      else None
  | _ => None
  end.

(** [%m] is [1[0-2]|0[1-9]|[1-9]]. *)
Definition re_m : list alt :=
  [ two (Ascii.eqb "1") (in_range "0" "2");
    two (Ascii.eqb "0") (in_range "1" "9");
    one (in_range "1" "9") ].

(** [%d] is [3[0-1]|[1-2]\d|0[1-9]|[1-9]| [1-9]]. *)
Definition re_d : list alt :=
  [ two (Ascii.eqb "3") (in_range "0" "1");
    two (in_range "1" "2") is_digit;
    two (Ascii.eqb "0") (in_range "1" "9");
    one (in_range "1" "9");
    space_one (in_range "1" "9") ].

(** Ordered alternation with backtracking: the first alternative after
    which the rest of the pattern matches. *)
Fixpoint first_match {A} (alts : list alt) (k : Z -> string -> option A)
    (s : string) : option A :=
  match alts with
  | [] => None
  | a :: rest =>
      match a s with
      | Some (v, r) =>
          match k v r with
          | Some x => Some x
          | None => first_match rest k s
          end
      | None => first_match rest k s
      end
  end.

(** [format_regex.match(data_string)]: the match is anchored at the start
    only; what it leaves unread is returned. *)
Definition match_Ymd (s : string) : option (Z * Z * Z * string) :=
  match re_Y s with
  | Some (y, r) =>
      first_match re_m
        (fun m r1 => first_match re_d (fun d r2 => Some (y, m, d, r2)) r1) r
  | None => None
  end.

Definition is_leap (y : Z) : bool :=
  (y mod 4 =? 0) && (negb (y mod 100 =? 0) || (y mod 400 =? 0)).

Definition days_in_month (y m : Z) : Z :=
  match m with
  | 2 => if is_leap y then 29 else 28
  | 4 | 6 | 9 | 11 => 30
  | _ => 31
  end.

(** [datetime(year, month, day)]: [MINYEAR] is 1. *)
Definition valid_date (y m d : Z) : bool :=
  (1 <=? y) && (y <=? 9999) && (1 <=? m) && (m <=? 12)
  && (1 <=? d) && (d <=? days_in_month y m).

(** [datetime.strptime(s, "%Y%m%d")]: no match, unconverted data and an
    impossible date are all [ValueError].  Texts are ASCII here (Python's
    [\d] also accepts other Unicode decimal digits). *)
Definition strptime_Ymd (s : string) : result datetime :=
  match match_Ymd s with
  | Some (y, m, d, rest) =>
      if nonempty rest then Raise ValueError
      else if valid_date y m d
           then Ok {| year := y; month := m; day := d |}
           else Raise ValueError
  | None => Raise ValueError
  end.

(** [download_prism.py], lines 41-42. *)
Definition _datetime_from_prism_flname (p : string) : result datetime :=
  match second_to_last (split "_" (PurePath.stem p)) with
  | Ok tok => strptime_Ymd tok
  | Raise e => Raise e
  end.

(* ===================================================================== *)
(** ** The process and its surroundings *)
(* ===================================================================== *)

(** The remote-store handle [fsspec.filesystem(protocol=..., host=...,
    timeout=...)]: two handles built from the same arguments are equal. *)
Record filesystem := { protocol : string; host : string; timeout : Z }.

Definition fs_token (fs : filesystem) : string * string * Z :=
  (protocol fs, host fs, timeout fs).

(** [year: Union[str, int]] *)
Inductive year_arg :=
| YInt (y : Z)
| YStr (y : string).

(** [f"{year}"] *)
Definition str_year (y : year_arg) : string :=
  match y with
  | YInt z => NilZero.string_of_int (Z.to_int z)
  | YStr s => s
  end.

Definition year_key (y : year_arg) : Z + string :=
  match y with YInt z => inl z | YStr s => inr s end.

(** The key [functools.cache] files a call under: the arguments as they
    were passed.  [year] is the one positional argument; the others are
    passed by keyword, and the key holds them in the order in which the
    call wrote them.  A keyword argument left to its default is absent
    from the key ([None] here); the last component lists the names of
    the keywords of the call in the order they were written. *)
Abbreviation cache_key :=
  ((Z + string) * (string * string * Z) * string
   * option string * option string * option string * list string)%type.

(** A rectangle of the plane: [minx], [miny], [maxx], [maxy]. *)
Record Box := { minx : Q; miny : Q; maxx : Q; maxy : Q }.

(** The labelled grid of an [xarray.DataArray], as far as the raster
    libraries' calls of the program change it: the reference system its
    coordinates are in, its dimensions with their lengths, outermost
    first (a dimension stands for its index coordinate as well), its
    other coordinates, the rectangle its cells cover, the values along
    [time], and the cell values (kept in serialised form). *)
Record Grid := {
  g_crs : string;
  g_dims : list (string * nat);
  g_coords : list string;
  g_extent : Box;
  g_time : list datetime;
  g_values : bytes
}.

(** An [xarray.DataArray] as far as the program looks into it: its name,
    its [attrs] and the labelled grid, which it only hands from one
    library call to the next. *)
Record DataArray := {
  da_name : option string;
  da_attrs : gmap string string;
  da_grid : Grid
}.

(** The lazy dataset of [xr.open_mfdataset]: it refers to the files it was
    opened from. *)
Record Dataset := { ds_paths : list Path }.

(** One of the files that [fsspec.open_files] yields for an archive:
    [fl.name], and what [fl.read()] returns or raises. *)
Record OpenFile := { fl_name : string; fl_read : result bytes }.

(** The disk under the directories the program writes files of its own
    into: what [open(path, mode="wb")] answers for a file name that does
    not denote a directory, and whether [outfl.write(data)] and the
    closing of the file get all the bytes there ([None]) or break off
    with an error, leaving a part of them. *)
Record disk := {
  disk_open : string -> result unit;
  disk_write : string -> bytes -> option (exn * bytes)
}.

(** The collaborators: what the remote store, the archive decoder, the
    local disk and the raster libraries answer.  The remote store may
    answer the same request differently each time; its answers are
    indexed by the number of requests it has served.  An answer of a
    library call that writes a local file stands for the whole call, the
    write included: [remote_get_file] for [fs.get_file(rpath, lpath)],
    [xr_to_netcdf] for [to_netcdf(path)].  [zip_members] is what
    [fsspec.open_files("zip://*::" + path)] yields for the archive with
    the given bytes: the files that the pattern [*] matches in it, which
    are the files at its top level, not every member of the archive. *)
Record collaborators := {
  remote_glob : filesystem -> string -> nat -> result (list string);
  remote_get_file : filesystem -> string -> nat -> result bytes;
  zip_members : bytes -> result (list OpenFile);
  local_disk : disk;
  rxr_open_rasterio : gmap string bytes -> string -> result DataArray;
  rio_reproject : string -> Grid -> result Grid;
  rio_clip_box : Q -> Q -> Q -> Q -> Grid -> result Grid;
  xr_drop : string -> Grid -> result Grid;
  xr_squeeze : Grid -> result Grid;
  xr_rename : list (string * string) -> Grid -> result Grid;
  xr_expand_dims : string -> Grid -> result Grid;
  xr_assign_time : datetime -> Grid -> result Grid;
  xr_to_netcdf : DataArray -> result bytes;
  xr_open_mfdataset : list bytes -> result unit;
  xr_to_zarr : list bytes -> result bytes;
  xr_zarr_left : exn -> option bytes
}.

Inductive event :=
| EvGlob (fs : filesystem) (pattern : string)
| EvGetFile (fs : filesystem) (rpath : string)
| EvSleep (seconds : Z)
| EvMkdtemp (d : nat)
| EvRmtree (d : nat)
| EvToZarr (outpath : string)
| EvZarrDone (outpath : string).

Record world := {
  dirs : gmap nat (gmap string bytes);  (* the live temporary directories *)
  trace : list event;                   (* what happened, oldest first *)
  url_cache : gmap cache_key (list string);
  stores : gmap string bytes;           (* consolidated stores by location *)
  served : nat;                         (* requests the remote store served *)
  outside : collaborators
}.

Definition set_dirs (f : gmap nat (gmap string bytes) -> gmap nat (gmap string bytes))
    (w : world) : world :=
  {| dirs := f (dirs w); trace := trace w; url_cache := url_cache w;
     stores := stores w; served := served w; outside := outside w |}.

Definition log (e : event) (w : world) : world :=
  {| dirs := dirs w; trace := trace w ++ [e]; url_cache := url_cache w;
     stores := stores w; served := served w; outside := outside w |}.

Definition tick (w : world) : world :=
  {| dirs := dirs w; trace := trace w; url_cache := url_cache w;
     stores := stores w; served := S (served w); outside := outside w |}.

Definition set_url_cache (f : gmap cache_key (list string) -> gmap cache_key (list string))
    (w : world) : world :=
  {| dirs := dirs w; trace := trace w; url_cache := f (url_cache w);
     stores := stores w; served := served w; outside := outside w |}.

Definition set_stores (f : gmap string bytes -> gmap string bytes)
    (w : world) : world :=
  {| dirs := dirs w; trace := trace w; url_cache := url_cache w;
     stores := f (stores w); served := served w; outside := outside w |}.

(** What a run added to the trace. *)
Definition new_events (w w' : world) : list event :=
  drop (length (trace w)) (trace w').

(** A call into a library: its answer, no effect on the process. *)
Definition ask {A} (q : collaborators -> result A) : M world A :=
  fun w => (q (outside w), w).

Definition on_grid (op : collaborators -> Grid -> result Grid)
    (da : DataArray) : M world DataArray :=
  g <- ask (fun c => op c (da_grid da)) ;;
  ret {| da_name := da_name da; da_attrs := da_attrs da; da_grid := g |}.

(** *** Local files *)

(** The file a library call ([fs.get_file], [to_netcdf]) has written
    when it returned, its bytes being those of its answer: the file is
    created or replaced.  The writes the program makes itself go through
    [member_write] below. *)
Definition dir_write (nm : string) (data : bytes) : M (gmap string bytes) unit :=
  fun d => (Ok tt, <[nm := data]> d).

(** The names that denote a directory when joined to a directory:
    [d / ""] is [d] itself ([Path(p).name] is [''] for a path without
    components), as is [d / "."], and [d / ".."] is the parent of [d]. *)
Definition is_dir_name (nm : string) : bool :=
  String.eqb nm "" || String.eqb nm "." || String.eqb nm "..".

(** [with open(outpath, mode="wb") as outfl: outfl.write(fl.read())],
    lines 59-60, on the file [nm] of a directory: the answer of the
    statement, and what the file holds afterwards when it was opened.
    [open] raises [IsADirectoryError] on a directory and what the disk
    raises on a name it cannot create, and the directory is then as it
    was; once opened the file exists and is empty; [fl.read()] may raise
    then; and a write that breaks off leaves a part of the bytes. *)
Definition member_write (os : disk) (nm : string) (fl : OpenFile)
    : result unit * option bytes :=
  if is_dir_name nm then (Raise IsADirectoryError, None)
  else match disk_open os nm with
       | Raise e => (Raise e, None)
       | Ok _ =>
           match fl_read fl with
           | Raise e => (Raise e, Some [])
           | Ok data =>
               match disk_write os nm data with
               | Some (e, part) => (Raise e, Some part)
               | None => (Ok tt, Some data)
               end
           end
       end.

Definition write_member (os : disk) (nm : string) (fl : OpenFile)
    : M (gmap string bytes) unit :=
  fun d =>
    match member_write os nm fl with
    | (r, Some b) => (r, <[nm := b]> d)
    | (r, None) => (r, d)
    end.

(** Run a computation on the contents of directory [d]. *)
Definition in_dir {A} (d : nat) (m : M (gmap string bytes) A) : M world A :=
  fun w => match dirs w !! d with
           | Some c => let '(r, c') := m c in (r, set_dirs (<[d := c']>) w)
           | None => (Raise FileNotFoundError, w)
           end.

Definition write_file (p : Path) (data : bytes) : M world unit :=
  in_dir (parent p) (dir_write (fname p) data).

(** A step that writes files of its own meets the local disk. *)
Definition with_disk {A} (f : disk -> M world A) : M world A :=
  fun w => f (local_disk (outside w)) w.

Definition read_file (p : Path) : M world bytes :=
  fun w => match dirs w !! parent p with
           | Some c => match c !! fname p with
                       | Some b => (Ok b, w)
                       | None => (Raise FileNotFoundError, w)
                       end
           | None => (Raise FileNotFoundError, w)
           end.

(** [with TemporaryDirectory() as tmpdir: body]: a directory that does not
    exist yet is created, and removed with all its files when the block is
    left, by return or by raise. *)
Definition TemporaryDirectory {A} (body : nat -> M world A) : M world A :=
  fun w =>
    let d := fresh (dom (dirs w)) in
    let '(r, w') := body d (log (EvMkdtemp d) (set_dirs (<[d := ∅]>) w)) in
    (r, log (EvRmtree d) (set_dirs (delete d) w')).

(** [time.sleep(seconds)] *)
Definition sleep (seconds : Z) : M world unit :=
  fun w => (Ok tt, log (EvSleep seconds) w).

(** *** The remote store *)

(** [fs.glob(pattern)] *)
Definition fs_glob (fs : filesystem) (pattern : string) : M world (list string) :=
  fun w => (remote_glob (outside w) fs pattern (served w),
            log (EvGlob fs pattern) (tick w)).

(** [fs.get_file(rpath=..., lpath=...)]: when the call returns the
    bytes are at [lpath]; [remote_get_file] answers for the whole call,
    so a local file that cannot be written is one of its errors. *)
Definition fs_get_file (fs : filesystem) (rpath : string) (lpath : Path) : M world unit :=
  fun w =>
    let w1 := log (EvGetFile fs rpath) (tick w) in
    match remote_get_file (outside w) fs rpath (served w) with
    | Ok data => write_file lpath data w1
    | Raise e => (Raise e, w1)
    end.

(** Modelled from the spec: [retry_call] of the third-party [retry]
    package, which is not in src/.  The call is attempted up to [tries]
    times; a failure is retried only when it is of one of the [exceptions];
    before each retry the process sleeps, first [delay] seconds, then
    [backoff] times longer each time; the failure of the last attempt is
    raised. *)
Fixpoint retry_call {A} (f : M world A) (exceptions : exn -> bool)
    (tries : nat) (delay backoff : Z) : M world (option A) :=
  match tries with
  | O => ret None
  | S n => fun w =>
      match f w with
      | (Ok a, w') => (Ok (Some a), w')
      | (Raise e, w') =>
          if exceptions e then
            match n with
            | O => (Raise e, w')
            | S _ => (sleep delay ;;;
                      retry_call f exceptions n (delay * backoff) backoff) w'
            end
          else (Raise e, w')
      end
  end.

(* ===================================================================== *)
(** ** The program *)
(* ===================================================================== *)

(** The body of the [for fl in ofs] loop of [_dump_zippedbil] (lines
    56-68), with [bil_path] as it stands before the iteration.  [os] is
    the disk the files are written to. *)
Fixpoint _dump_zippedbil_loop (os : disk) (ofs : list OpenFile) (dumpdir : nat)
    (bil_path : option Path) : M (gmap string bytes) (option Path) :=
  match ofs with
  | [] => ret bil_path
  | fl :: rest =>
      let p := fl_name fl in
      let outpath := joinpath dumpdir (PurePath.name p) in
      write_member os (fname outpath) fl ;;;
      if String.eqb (PurePath.suffix p) ".bil" then
        match bil_path with
        | Some found => raise (ZipBilFileError (MultipleBil found outpath))
        | None => _dump_zippedbil_loop os rest dumpdir (Some outpath)
        end
      else _dump_zippedbil_loop os rest dumpdir bil_path
  end.

(** [download_prism.py], lines 45-73.  The state is the directory
    [dumpdir]. *)
Definition _dump_zippedbil (os : disk) (ofs : list OpenFile) (dumpdir : nat)
    : M (gmap string bytes) Path :=
  bil_path <- _dump_zippedbil_loop os ofs dumpdir None ;;
  match bil_path with
  | None => raise (ZipBilFileError NoBil)
  | Some p => ret p
  end.

(** [fsspec.open_files(f"zip://*::{tmpzip_path}")]: the files that the
    pattern [*] matches in the archive at [tmpzip_path], which are the
    files at its top level.  What reading each of them gives is fixed
    when the archive is opened; an archive with a file named like the
    archive file itself, which extraction into the same directory would
    overwrite while it is being read, is outside this model. *)
Definition open_zip_files (tmpzip_path : Path) : M world (list OpenFile) :=
  data <- read_file tmpzip_path ;;
  ask (fun c => zip_members c data).

(** The [retry_call] of lines 95-103. *)
Definition fetch_archive (url : string) (fs : filesystem) (tmpzip_path : Path)
    : M world (option unit) :=
  retry_call (fs_get_file fs url tmpzip_path) is_TimeoutError 3%nat 30 2.

(** [download_prism.py], lines 76-117.  The context manager takes the
    block it guards as [body]: the block runs at the [yield], inside both
    [with] statements, and what it raises passes through them. *)
Definition unpacked_prismzip_bil {A} (url : string) (fs : filesystem)
    (body : Path -> M world A) : M world A :=
  TemporaryDirectory (fun tmpdir =>
    let tmpzip_path := joinpath tmpdir (PurePath.name url) in
    fetch_archive url fs tmpzip_path ;;;
    zipped_files <- open_zip_files tmpzip_path ;;
    target_bil_path <- with_disk (fun os =>
      in_dir tmpdir (_dump_zippedbil os zipped_files tmpdir)) ;;
    body target_bil_path).

(** [functools.cache]: a call whose key is filed returns the filed value
    and does not enter the function; otherwise the function runs and its
    value is filed.  A call that raises files nothing. *)
Definition cache (key : cache_key) (f : M world (list string))
    : M world (list string) :=
  fun w =>
    match url_cache w !! key with
    | Some v => (Ok v, w)
    | None =>
        match f w with
        | (Ok v, w') => (Ok v, set_url_cache (<[key := v]>) w')
        | (Raise e, w') => (Raise e, w')
        end
    end.

(** The function under the [@cache] decorator, lines 121-137. *)
Definition get_prism_daily_urls_wrapped (year : year_arg) (fs : filesystem)
    (variable stability scale version : string) : M world (list string) :=
  let target_file_glob :=
    "/daily/" +:+ variable +:+ "/" +:+ str_year year +:+ "/PRISM_"
    +:+ variable +:+ "_" +:+ stability +:+ "_" +:+ scale +:+ version
    +:+ "_" +:+ str_year year +:+ "*_bil.zip" in
  fs_glob fs target_file_glob.

(** [download_prism.py], lines 120-137.  [stability], [scale] and
    [version] are [None] when the caller leaves them to their defaults;
    [keywords] are the names of the keyword arguments of the call, in
    the order the call wrote them. *)
Definition get_prism_daily_urls (year : year_arg) (fs : filesystem)
    (variable : string) (stability scale version : option string)
    (keywords : list string) : M world (list string) :=
  cache (year_key year, fs_token fs, variable, stability, scale, version,
         keywords)
    (get_prism_daily_urls_wrapped year fs variable
       (default "stable" stability) (default "4km" scale)
       (default "D2" version)).

(** [download_prism.py], lines 140-172. *)
Definition preprocess_bil_dataarray (da : DataArray)
    (minlat minlon maxlat maxlon : Q) (project_epsg : option string)
    : M world DataArray :=
  da <- match project_epsg with
        | Some epsg => on_grid (fun c => rio_reproject c ("EPSG:" +:+ epsg)) da
        | None => ret da
        end ;;
  da <- on_grid (fun c => rio_clip_box c minlon minlat maxlon maxlat) da ;;
  da <- on_grid (fun c => xr_drop c "spatial_ref") da ;;
  da <- on_grid xr_squeeze da ;;
  da <- on_grid (fun c => xr_rename c [("x", "lon"); ("y", "lat")]) da ;;
  source_url <- match da_attrs da !! "source_url" with
                | Some u => ret u
                | None => raise KeyError
                end ;;
  da <- on_grid (fun c => xr_expand_dims c "time") da ;;
  t <- lift (_datetime_from_prism_flname source_url) ;;
  on_grid (fun c => xr_assign_time c t) da.

(** [**preprocess_kwargs]: the keywords that are present. *)
Record kwargs := {
  kw_minlat : option Q;
  kw_minlon : option Q;
  kw_maxlat : option Q;
  kw_maxlon : option Q;
  kw_project_epsg : option (option string)
}.

Definition no_kwargs : kwargs :=
  {| kw_minlat := None; kw_minlon := None; kw_maxlat := None;
     kw_maxlon := None; kw_project_epsg := None |}.

Definition call_preprocess (da : DataArray) (kw : kwargs) : M world DataArray :=
  preprocess_bil_dataarray da
    (default (32 # 1)%Q (kw_minlat kw)) (default (-125 # 1)%Q (kw_minlon kw))
    (default (43 # 1)%Q (kw_maxlat kw)) (default (-114 # 1)%Q (kw_maxlon kw))
    (default (Some "4326") (kw_project_epsg kw)).

(** *** The raster libraries, as the spec describes them *)

Definition dim_names (g : Grid) : list string := fst <$> g_dims g.

(** [inner] lies within [outer], borders included. *)
Definition inside (inner outer : Box) : Prop :=
  (minx outer <= minx inner)%Q /\ (miny outer <= miny inner)%Q
  /\ (maxx inner <= maxx outer)%Q /\ (maxy inner <= maxy outer)%Q.

(** The new name of [nm] under the mapping of a [rename]. *)
Fixpoint renamed (m : list (string * string)) (nm : string) : string :=
  match m with
  | [] => nm
  | (old, new) :: m' => if String.eqb old nm then new else renamed m' nm
  end.

(** The dimensions of a raster: rows and columns, after a singleton
    band or without one. *)
Definition raster_dims (ds : list (string * nat)) : Prop :=
  exists ny nx : nat,
    ds = [("y", ny); ("x", nx)]
    \/ ds = [("band", 1%nat); ("y", ny); ("x", nx)].

(** Modelled from the spec: a RasterFrame (section 3) is a labelled 2-D
    grid, or a 3-D one with a singleton band, with the spatial
    coordinates [x] and [y] and a coordinate that carries the reference
    system ([spatial_ref], the coordinate the code drops). *)
Definition valid_frame (g : Grid) : Prop :=
  g_coords g = ["spatial_ref"] /\ raster_dims (g_dims g).

(** The same dimensions in the same order, the numbers of rows and
    columns apart. *)
Definition regridded (ds' ds : list (string * nat)) : Prop :=
  Forall2 (fun d' d => fst d' = fst d
                       /\ (fst d <> "x" -> fst d <> "y" -> snd d' = snd d))
          ds' ds.

(** Modelled from the spec: what a call of the raster libraries has done
    to the grid when it returns (section 4.3 and the NormalizedFrame of
    section 3; the libraries are not part of the source).  The
    reprojection puts the grid into the reference system asked for; the
    clip leaves cells within the box only; both may change the numbers
    of rows and columns and leave the dimensions and the other
    coordinates as they are otherwise.  [drop] removes the
    coordinate of that name, [squeeze(drop=True)] the dimensions of
    length one, [rename] gives the names of its mapping, which must be
    there, their new names; [expand_dims] puts a new dimension of length
    one in front, and the assignment makes the given date the one value
    along [time].  The last five leave the extent as it is. *)
Record documented (c : collaborators) : Prop := {
  reproject_doc : forall crs g g',
    rio_reproject c crs g = Ok g' ->
    g_crs g' = crs /\ regridded (g_dims g') (g_dims g)
    /\ g_coords g' = g_coords g;
  clip_box_doc : forall x0 y0 x1 y1 g g',
    rio_clip_box c x0 y0 x1 y1 g = Ok g' ->
    inside (g_extent g')
           {| minx := x0; miny := y0; maxx := x1; maxy := y1 |}
    /\ g_crs g' = g_crs g /\ regridded (g_dims g') (g_dims g)
    /\ g_coords g' = g_coords g;
  drop_doc : forall nm g g',
    xr_drop c nm g = Ok g' ->
    g_coords g' = filter (fun x => x <> nm) (g_coords g)
    /\ g_dims g' = g_dims g /\ g_extent g' = g_extent g;
  squeeze_doc : forall g g',
    xr_squeeze c g = Ok g' ->
    g_dims g' = filter (fun d => snd d <> 1%nat) (g_dims g)
    /\ g_coords g' = g_coords g /\ g_extent g' = g_extent g;
  rename_doc : forall m g g',
    xr_rename c m g = Ok g' ->
    Forall (fun on => fst on ∈ dim_names g \/ fst on ∈ g_coords g) m
    /\ g_dims g' = (fun d => (renamed m (fst d), snd d)) <$> g_dims g
    /\ g_coords g' = renamed m <$> g_coords g
    /\ g_extent g' = g_extent g;
  expand_dims_doc : forall nm g g',
    xr_expand_dims c nm g = Ok g' ->
    g_dims g' = (nm, 1%nat) :: g_dims g
    /\ g_coords g' = g_coords g /\ g_extent g' = g_extent g;
  assign_time_doc : forall t g g',
    xr_assign_time c t g = Ok g' ->
    g_time g' = [t] /\ g_dims g' = g_dims g
    /\ g_coords g' = g_coords g /\ g_extent g' = g_extent g
}.

(** The world with another reprojection routine. *)
Definition with_reproject (f : string -> Grid -> result Grid) (w : world)
    : world :=
  let c := outside w in
  {| dirs := dirs w; trace := trace w; url_cache := url_cache w;
     stores := stores w; served := served w;
     outside :=
       {| remote_glob := remote_glob c; remote_get_file := remote_get_file c;
          zip_members := zip_members c; local_disk := local_disk c;
          rxr_open_rasterio := rxr_open_rasterio c;
          rio_reproject := f;
          rio_clip_box := rio_clip_box c; xr_drop := xr_drop c;
          xr_squeeze := xr_squeeze c; xr_rename := xr_rename c;
          xr_expand_dims := xr_expand_dims c;
          xr_assign_time := xr_assign_time c;
          xr_to_netcdf := xr_to_netcdf c;
          xr_open_mfdataset := xr_open_mfdataset c;
          xr_to_zarr := xr_to_zarr c; xr_zarr_left := xr_zarr_left c |} |}.

(** [rxr.open_rasterio(bil_path)]: decodes the raster from the files of
    its directory. *)
Definition open_rasterio (bil_path : Path) : M world DataArray :=
  fun w => match dirs w !! parent bil_path with
           | Some c => (rxr_open_rasterio (outside w) c (fname bil_path), w)
           | None => (Raise FileNotFoundError, w)
           end.

(** [da.to_dataset().to_netcdf(path)] *)
Definition to_netcdf (da : DataArray) (path : Path) : M world unit :=
  data <- ask (fun c => xr_to_netcdf c da) ;;
  write_file path data.

(** [xr.open_mfdataset(paths, parallel=True)]: the files are opened, the
    data stay in them. *)
Definition open_mfdataset (paths : list Path) : M world Dataset :=
  contents <- for_each read_file paths ;;
  ask (fun c => xr_open_mfdataset c contents) ;;;
  ret {| ds_paths := paths |}.

(** [ds.to_zarr(outpath)]: a blocking call that reads the data from the
    files the dataset refers to and writes the store, piece by piece.
    [EvToZarr] marks its start.  When it returns, the store is written
    and [EvZarrDone] marks that.  When it breaks off, with the error of a
    file it cannot read or with the error of the write, there is no
    rollback: [xr_zarr_left] says what the call has left at [outpath] by
    then, if anything. *)
Definition to_zarr (ds : Dataset) (outpath : string) : M world unit :=
  fun w =>
    let w1 := log (EvToZarr outpath) w in
    match (contents <- for_each read_file (ds_paths ds) ;;
           ask (fun c => xr_to_zarr c contents)) w1 with
    | (Ok store, w2) =>
        (Ok tt, log (EvZarrDone outpath) (set_stores (<[outpath := store]>) w2))
    | (Raise e, w2) =>
        (Raise e,
         match xr_zarr_left (outside w2) e with
         | Some part => set_stores (<[outpath := part]>) w2
         | None => w2
         end)
    end.

(** The block under [with unpacked_prismzip_bil(url, fs=fs) as bil_path],
    lines 217-232; its value is the path appended to [daily_paths]. *)
Definition process_bil (tmpdir : nat) (variable url : string) (kw : kwargs)
    (bil_path : Path) : M world Path :=
  da <- open_rasterio bil_path ;;
  let da := {| da_name := Some variable;
               da_attrs := <["source_url" := url]> (da_attrs da);
               da_grid := da_grid da |} in
  da <- call_preprocess da kw ;;
  daily_outpath <- lift (with_suffix (joinpath tmpdir (fname bil_path)) ".nc") ;;
  to_netcdf da daily_outpath ;;;
  ret daily_outpath.

(** One iteration of [for url in all_urls], lines 215-232. *)
Definition process_url (tmpdir : nat) (fs : filesystem) (variable : string)
    (kw : kwargs) (url : string) : M world Path :=
  unpacked_prismzip_bil url fs (process_bil tmpdir variable url kw).

(** The keywords of the call of line 204, [get_prism_daily_urls(yr,
    fs=fs, **prism_kwargs)], in the order of [prism_kwargs] (lines
    195-200). *)
Definition main_keywords : list string :=
  ["fs"; "variable"; "scale"; "version"; "stability"].

(** Lines 202-206: the listings of the years, in the order of [years]. *)
Definition enumerate_urls (years : list Z) (fs : filesystem)
    (variable scale version stability : string) : M world (list string) :=
  listings <- for_each (fun yr =>
      get_prism_daily_urls (YInt yr) fs variable
        (Some stability) (Some scale) (Some version) main_keywords) years ;;
  ret (concat listings).

(** Line 190: [fsspec.filesystem(protocol=protocol, host=host,
    timeout=300)], with the defaults of [main] for [host] and
    [protocol]. *)
Definition main_fs (host protocol : option string) : filesystem :=
  {| protocol := default "ftp" protocol;
     host := default "ftp.prism.oregonstate.edu" host;
     timeout := 300 |}.

(** [download_prism.py], lines 175-244.  Logging and [print] have no
    effect here. *)
Definition main (years : list Z) (variable outpath version scale stability : string)
    (host protocol : option string) (preprocess_kwargs : option kwargs)
    : M world unit :=
  let fs := main_fs host protocol in
  let preprocess_kwargs := default no_kwargs preprocess_kwargs in
  all_urls <- enumerate_urls years fs variable scale version stability ;;
  TemporaryDirectory (fun tmpdir =>
    daily_paths <- for_each (process_url tmpdir fs variable preprocess_kwargs)
                     all_urls ;;
    ds <- open_mfdataset daily_paths ;;
    to_zarr ds outpath).

(** *** The command line, lines 247-296 *)

(** [l[i]] for an index that is not negative. *)
Definition getitem {A} (l : list A) (i : nat) : result A :=
  match l !! i with
  | Some x => Ok x
  | None => Raise IndexError
  end.

(** [s.lower()] on ASCII text. *)
Definition lower_char (c : ascii) : ascii :=
  let n := nat_of_ascii c in
  if ((65 <=? n) && (n <=? 90))%nat then ascii_of_nat (n + 32) else c.

Fixpoint str_lower (s : string) : string :=
  match s with
  | "" => ""
  | String c r => String (lower_char c) (str_lower r)
  end.

(** A value of the dictionary of lines 281-288: a number of the clip box,
    or the target reference system.  [F] stands for Python's floats. *)
Inductive kwarg_value (F : Type) :=
| VFloat (x : F)
| VEpsg (e : option string).
Arguments VFloat {F} x.
Arguments VEpsg {F} e.

(** One item of the comprehension of lines 281-283: the key
    [c.split("=")[0]] is evaluated first, then the value
    [float(c.split("=")[1])].  [float] is Python's conversion of a text. *)
Definition clipbox_item {F} (float : string -> result F) (c : string)
    : result (string * F) :=
  match getitem (split "=" c) 0 with
  | Raise e => Raise e
  | Ok k =>
      match getitem (split "=" c) 1 with
      | Raise e => Raise e
      | Ok t =>
          match float t with
          | Raise e => Raise e
          | Ok x => Ok (k, x)
          end
      end
  end.

(** The comprehension over the items, from the dictionary built so far:
    a later item replaces an earlier one with the same key. *)
Fixpoint clipbox_dict {F} (float : string -> result F) (items : list string)
    (acc : gmap string (kwarg_value F)) : result (gmap string (kwarg_value F)) :=
  match items with
  | [] => Ok acc
  | c :: rest =>
      match clipbox_item float c with
      | Raise e => Raise e
      | Ok (k, x) => clipbox_dict float rest (<[k := VFloat x]> acc)
      end
  end.

(** Lines 281-288: the [preprocess_kwargs] handed to [main]. *)
Definition cli_preprocess_kwargs {F} (float : string -> result F)
    (clipbox epsg : string) : result (gmap string (kwarg_value F)) :=
  match clipbox_dict float (split "," clipbox) ∅ with
  | Raise e => Raise e
  | Ok preprocess_kwargs =>
      let epsg_arg :=
        if String.eqb (str_lower epsg) "none" then None else Some epsg in
      Ok (<["project_epsg" := VEpsg epsg_arg]> preprocess_kwargs)
  end.

(** Line 291: [range(args.firstyear, args.lastyear + 1)]. *)
Definition cli_years (firstyear lastyear : Z) : list Z :=
  (fun i => firstyear + Z.of_nat i) <$> seq 0 (Z.to_nat (lastyear + 1 - firstyear)).

(* ===================================================================== *)
(** ** Notions the statements use *)
(* ===================================================================== *)

(** The test of line 63 on a member. *)
Definition is_bil (fl : OpenFile) : bool :=
  String.eqb (PurePath.suffix (fl_name fl)) ".bil".

(** The name a member is stored under (line 58). *)
Definition stored_name (fl : OpenFile) : string := PurePath.name (fl_name fl).

Definition count_bil (ofs : list OpenFile) : nat :=
  length (filter (fun fl => is_bil fl = true) ofs).

(** What the write of a member leaves in its file, when the file was
    opened; whether the write went through; and whether all writes of a
    run of members do. *)
Definition member_left (os : disk) (fl : OpenFile) : option bytes :=
  snd (member_write os (stored_name fl) fl).

Definition written (os : disk) (fl : OpenFile) : bool :=
  is_ok (fst (member_write os (stored_name fl) fl)).

Definition writes_ok (os : disk) (ofs : list OpenFile) : Prop :=
  Forall (fun fl => written os fl = true) ofs.

(** What the write of one member does to a directory, and a run of
    members in order. *)
Definition extract (os : disk) (d : gmap string bytes) (fl : OpenFile)
    : gmap string bytes :=
  match member_left os fl with
  | Some b => <[stored_name fl := b]> d
  | None => d
  end.

(** The members the loop gets to: all of them up to and including the
    first one whose write fails or the second raster member, whichever
    comes first ([seen] says whether a raster member came before). *)
Fixpoint reached_from (os : disk) (seen : bool) (ofs : list OpenFile)
    : list OpenFile :=
  match ofs with
  | [] => []
  | fl :: rest =>
      if written os fl then
        if is_bil fl
        then if seen then [fl] else fl :: reached_from os true rest
        else fl :: reached_from os seen rest
      else [fl]
  end.

Definition reached (os : disk) (ofs : list OpenFile) : list OpenFile :=
  reached_from os false ofs.

(** The last member of a run whose write opened the file of a given
    name. *)
Definition last_stored (os : disk) (nm : string) (ofs : list OpenFile)
    : option OpenFile :=
  last (filter (fun fl => stored_name fl = nm /\ is_Some (member_left os fl))
          ofs).

(** What the loop answers when no write fails, from the raster members
    of the archive. *)
Definition loop_answer (dumpdir : nat) (bil_path : option Path)
    (ofs : list OpenFile) : result (option Path) :=
  match bil_path, filter (fun fl => is_bil fl = true) ofs with
  | None, [] => Ok None
  | None, [fl] => Ok (Some (joinpath dumpdir (stored_name fl)))
  | None, fl1 :: fl2 :: _ =>
      Raise (ZipBilFileError (MultipleBil (joinpath dumpdir (stored_name fl1))
                                          (joinpath dumpdir (stored_name fl2))))
  | Some found, [] => Ok (Some found)
  | Some found, fl :: _ =>
      Raise (ZipBilFileError (MultipleBil found (joinpath dumpdir (stored_name fl))))
  end.

(** A character does not occur in a text. *)
Fixpoint lacks (c : ascii) (s : string) : Prop :=
  match s with
  | "" => True
  | String x r => x <> c /\ lacks c r
  end.

Definition digits8 (a b c d e f g h : ascii) : string :=
  String a (String b (String c (String d
    (String e (String f (String g (String h ""))))))).

(** [%m%d] on the text after the year. *)
Definition match_md (s : string) : option (Z * Z * string) :=
  first_match re_m
    (fun m r1 => first_match re_d (fun d r2 => Some (m, d, r2)) r1) s.

Definition all_digits : list ascii :=
  ["0"; "1"; "2"; "3"; "4"; "5"; "6"; "7"; "8"; "9"]%char.

(** On four digits, [%m%d] reads a two-digit month and a two-digit day
    and leaves nothing exactly when both are in range. *)
Definition md_as_expected (e f g h : ascii) : bool :=
  let m := 10 * digit_val e + digit_val f in
  let d := 10 * digit_val g + digit_val h in
  let in_ranges := (1 <=? m) && (m <=? 12) && (1 <=? d) && (d <=? 31) in
  match match_md (String e (String f (String g (String h "")))) with
  | Some (m', d', "") => (m' =? m) && (d' =? d) && in_ranges
  | _ => negb in_ranges
  end.

Definition is_fetch (e : event) : bool :=
  match e with EvGetFile _ _ => true | _ => false end.

(** The attempts on a trace, and the seconds slept on it. *)
Definition attempts (evs : list event) : nat :=
  length (filter (fun e => is_fetch e = true) evs).

Definition slept (evs : list event) : Z :=
  foldr (fun e acc => match e with EvSleep s => s + acc | _ => acc end) 0 evs.

(** The trace only grows, by events that satisfy [P]. *)
Definition extends_by (P : event -> Prop) (w w' : world) : Prop :=
  exists evs, trace w' = trace w ++ evs /\ Forall P evs.

Definition is_glob (e : event) : bool :=
  match e with EvGlob _ _ => true | _ => false end.
Definition is_zarr (e : event) : bool :=
  match e with EvToZarr _ => true | _ => false end.

(** While the directory [d] exists: it stays, no store is written, and
    nothing on the trace removes [d] or writes a store. *)
Definition scratch_kept (d : nat) (w w' : world) : Prop :=
  d ∈ dom (dirs w) ->
  d ∈ dom (dirs w') /\ stores w' = stores w
  /\ extends_by (fun e => e <> EvRmtree d /\ is_zarr e = false) w w'.

(** Only listings happened: directories and stores are as they were. *)
Definition only_lists (w w' : world) : Prop :=
  dirs w' = dirs w /\ stores w' = stores w
  /\ extends_by (fun e => is_glob e = true) w w'.

(** Every run of [m] relates the world before to the world after. *)
Definition respects {A} (R : relation world) (m : M world A) : Prop :=
  forall w, R w (snd (m w)).

(** The worlds at the two ends of the life of [main]'s scratch
    directory. *)
Definition scratch_made (d : nat) (w : world) : world :=
  log (EvMkdtemp d) (set_dirs (<[d := ∅]>) w).

Definition scratch_removed (d : nat) (w : world) : world :=
  log (EvRmtree d) (set_dirs (delete d) w).

(** The key a call is filed under. *)
Definition call_key (year : year_arg) (fs : filesystem) (variable : string)
    (stability scale version : option string) (keywords : list string)
    : cache_key :=
  (year_key year, fs_token fs, variable, stability, scale, version, keywords).

(** The listing queries on a trace. *)
Definition queries (evs : list event) : nat :=
  length (filter (fun e => is_glob e = true) evs).

(** What [unpacked_prismzip_bil] does before it hands over to the
    guarded block: fetch, open, extract (lines 93-116). *)
Definition unpack_prelude (url : string) (fs : filesystem) (tmpdir : nat)
    : M world Path :=
  fetch_archive url fs (joinpath tmpdir (PurePath.name url)) ;;;
  zipped_files <- open_zip_files (joinpath tmpdir (PurePath.name url)) ;;
  with_disk (fun os => in_dir tmpdir (_dump_zippedbil os zipped_files tmpdir)).

(** The directories outside [X] and their files are as they were. *)
Definition elsewhere_kept (X : gset nat) (a b : world) : Prop :=
  forall k, k ∉ X -> dirs b !! k = dirs a !! k.

(** The fetch of [url] fails with [e] under the retry policy, on a remote
    store that has served [n] requests: an error that is not a timeout at
    the first or second attempt, or any error at the third. *)
Definition fetch_fails (c : collaborators) (fs : filesystem) (url : string)
    (n : nat) (e : exn) : Prop :=
  (remote_get_file c fs url n = Raise e /\ is_TimeoutError e = false)
  \/ (remote_get_file c fs url n = Raise TimeoutError
      /\ remote_get_file c fs url (S n) = Raise e
      /\ is_TimeoutError e = false)
  \/ (remote_get_file c fs url n = Raise TimeoutError
      /\ remote_get_file c fs url (S n) = Raise TimeoutError
      /\ remote_get_file c fs url (S (S n)) = Raise e).

(** Every run of [m] only adds to the trace, at most [na] fetch attempts
    and at most [ns] seconds of sleep. *)
Definition costs_at_most (na : nat) (ns : Z) {A} (m : M world A) : Prop :=
  forall w, exists evs,
    trace (snd (m w)) = trace w ++ evs
    /\ (attempts evs <= na)%nat /\ slept evs <= ns.

(** Nothing is put on the trace. *)
Definition same_trace (a b : world) : Prop := trace b = trace a.

(** What an alternative of [%m] or [%d] takes: one or two characters. *)
Definition takes_one_or_two (a : alt) : Prop :=
  forall s v r, a s = Some (v, r) ->
  String.length s = S (String.length r)
  \/ String.length s = S (S (String.length r)).

(** The content of the file at a path, if the file exists. *)
Definition file_at (w : world) (p : Path) : option bytes :=
  match dirs w !! parent p with
  | Some c => c !! fname p
  | None => None
  end.

(** The files of directory [d] stay: they may be replaced, not removed. *)
Definition files_stay (d : nat) (a b : world) : Prop :=
  forall nm, is_Some (file_at a (joinpath d nm)) ->
             is_Some (file_at b (joinpath d nm)).

(** The collaborators are the same, the listings that were cached still
    are, unchanged, and the remote store has served no fewer requests. *)
Definition only_grows (a b : world) : Prop :=
  outside b = outside a /\ url_cache a ⊆ url_cache b
  /\ (served a <= served b)%nat.

(** The key of a clip box item: the text before its first [=]. *)
Definition item_key (c : string) : string := List.hd "" (split "=" c).

(* ===================================================================== *)
(** ** Sample archives, remote stores and runs *)
(* ===================================================================== *)

Definition raster_a : OpenFile := {| fl_name := "a.bil"; fl_read := Ok [Byte.x0a] |}.
Definition raster_b : OpenFile := {| fl_name := "b.bil"; fl_read := Ok [Byte.x0b] |}.
Definition header_c : OpenFile := {| fl_name := "c.hdr"; fl_read := Ok [Byte.x0c] |}.
Definition notes_old : OpenFile := {| fl_name := "old/notes.txt"; fl_read := Ok [Byte.x01] |}.
Definition notes_new : OpenFile := {| fl_name := "new/notes.txt"; fl_read := Ok [Byte.x02] |}.
Definition raster_x1 : OpenFile := {| fl_name := "v1/x.bil"; fl_read := Ok [Byte.x01] |}.
Definition raster_x2 : OpenFile := {| fl_name := "v2/x.bil"; fl_read := Ok [Byte.x02] |}.

Definition member_broken : OpenFile :=
  {| fl_name := "d.prj"; fl_read := Raise (OtherError "BadZipFile") |}.

Definition good_disk : disk :=
  {| disk_open := fun _ => Ok tt; disk_write := fun _ _ => None |}.

Definition day1_url : string :=
  "/daily/tmean/2020/PRISM_tmean_stable_4kmD2_20200101_bil.zip".
Definition day2_url : string :=
  "/daily/tmean/2020/PRISM_tmean_stable_4kmD2_20200102_bil.zip".
Definition bad_url : string :=
  "/daily/tmean/2020/PRISM_tmean_stable_4kmD2_20200103_bil.zip".

(** The archive served for a URL, and its members: the third day's
    archive has no raster. *)
Definition sample_archive (url : string) : bytes :=
  if String.eqb url day1_url then [Byte.x01]
  else if String.eqb url day2_url then [Byte.x02]
  else [Byte.x03].

Definition sample_members (data : bytes) : result (list OpenFile) :=
  match data with
  | [Byte.x01] =>
      Ok [ {| fl_name := "PRISM_tmean_stable_4kmD2_20200101_bil.bil";
              fl_read := Ok [Byte.x11] |};
           {| fl_name := "PRISM_tmean_stable_4kmD2_20200101_bil.hdr";
              fl_read := Ok [Byte.x12] |} ]
  | [Byte.x02] =>
      Ok [ {| fl_name := "PRISM_tmean_stable_4kmD2_20200102_bil.hdr";
              fl_read := Ok [Byte.x22] |};
           {| fl_name := "PRISM_tmean_stable_4kmD2_20200102_bil.bil";
              fl_read := Ok [Byte.x21] |} ]
  | [Byte.x03] =>
      Ok [ {| fl_name := "PRISM_tmean_stable_4kmD2_20200103_bil.hdr";
              fl_read := Ok [Byte.x32] |} ]
  | _ => Raise (OtherError "BadZipFile")
  end.

(** A raster of two rows and two columns over the conterminous United
    States, as decoded from a [.bil] file with the given bytes. *)
Definition sample_grid (data : bytes) : Grid :=
  {| g_crs := "EPSG:4269";
     g_dims := [("band", 1%nat); ("y", 2%nat); ("x", 2%nat)];
     g_coords := ["spatial_ref"];
     g_extent := {| minx := (-125 # 1)%Q; miny := (24 # 1)%Q;
                    maxx := (-66 # 1)%Q; maxy := (50 # 1)%Q |};
     g_time := [];
     g_values := data |}.

Definition inside_b (inner outer : Box) : bool :=
  Qle_bool (minx outer) (minx inner) && Qle_bool (miny outer) (miny inner)
  && Qle_bool (maxx inner) (maxx outer) && Qle_bool (maxy inner) (maxy outer).

Definition set_extent (b : Box) (g : Grid) : Grid :=
  {| g_crs := g_crs g; g_dims := g_dims g; g_coords := g_coords g;
     g_extent := b; g_time := g_time g; g_values := g_values g |}.

Definition set_dims (ds : list (string * nat)) (g : Grid) : Grid :=
  {| g_crs := g_crs g; g_dims := ds; g_coords := g_coords g;
     g_extent := g_extent g; g_time := g_time g; g_values := g_values g |}.

Definition set_coords (cs : list string) (g : Grid) : Grid :=
  {| g_crs := g_crs g; g_dims := g_dims g; g_coords := cs;
     g_extent := g_extent g; g_time := g_time g; g_values := g_values g |}.

(** Sample raster libraries: a clip that cuts to the box whatever sticks
    out of it, and label operations that do what [documented] says. *)
Definition sample_clip_box (x0 y0 x1 y1 : Q) (g : Grid) : result Grid :=
  let box := {| minx := x0; miny := y0; maxx := x1; maxy := y1 |} in
  if inside_b (g_extent g) box then Ok g else Ok (set_extent box g).

Definition sample_rename (m : list (string * string)) (g : Grid)
    : result Grid :=
  if bool_decide (Forall (fun on => fst on ∈ dim_names g
                                    \/ fst on ∈ g_coords g) m)
  then Ok (set_coords (renamed m <$> g_coords g)
             (set_dims ((fun d => (renamed m (fst d), snd d)) <$> g_dims g) g))
  else Raise ValueError.

(** Collaborators with a given remote store and the sample raster
    libraries. *)
Definition sample_outside
    (glob : filesystem -> string -> nat -> result (list string))
    (get : filesystem -> string -> nat -> result bytes) : collaborators :=
  {| remote_glob := glob;
     remote_get_file := get;
     zip_members := sample_members;
     local_disk := good_disk;
     rxr_open_rasterio := fun files nm =>
       match files !! nm with
       | Some data => Ok {| da_name := None; da_attrs := ∅;
                            da_grid := sample_grid data |}
       | None => Raise FileNotFoundError
       end;
     rio_reproject := fun crs g =>
       Ok {| g_crs := crs; g_dims := g_dims g; g_coords := g_coords g;
             g_extent := g_extent g; g_time := g_time g;
             g_values := g_values g |};
     rio_clip_box := sample_clip_box;
     xr_drop := fun nm g =>
       Ok (set_coords (filter (fun x => x <> nm) (g_coords g)) g);
     xr_squeeze := fun g =>
       Ok (set_dims (filter (fun d => snd d <> 1%nat) (g_dims g)) g);
     xr_rename := sample_rename;
     xr_expand_dims := fun nm g => Ok (set_dims ((nm, 1%nat) :: g_dims g) g);
     xr_assign_time := fun t g =>
       Ok {| g_crs := g_crs g; g_dims := g_dims g; g_coords := g_coords g;
             g_extent := g_extent g; g_time := [t];
             g_values := g_values g |};
     xr_to_netcdf := fun da => Ok (g_values (da_grid da));
     xr_open_mfdataset := fun _ => Ok tt;
     xr_to_zarr := fun contents => Ok (concat contents);
     xr_zarr_left := fun _ => None |}.

(** A process that has done nothing yet. *)
Definition start (c : collaborators) : world :=
  {| dirs := ∅; trace := []; url_cache := ∅; stores := ∅;
     served := 0; outside := c |}.

(** A remote store that works; one that lists a malformed archive
    between the two days; one that times out on its first two requests;
    one whose first listing fails. *)
Definition healthy : collaborators :=
  sample_outside (fun _ _ _ => Ok [day1_url; day2_url])
                 (fun _ url _ => Ok (sample_archive url)).

Definition one_bad_day : collaborators :=
  sample_outside (fun _ _ _ => Ok [day1_url; bad_url; day2_url])
                 (fun _ url _ => Ok (sample_archive url)).

Definition slow_start : collaborators :=
  sample_outside (fun _ _ _ => Ok [day1_url; day2_url])
                 (fun _ url n => if (n <? 2)%nat then Raise TimeoutError
                                 else Ok (sample_archive url)).

Definition listing_fails_once : collaborators :=
  sample_outside (fun _ _ n => if (n =? 0)%nat
                               then Raise (OtherError "ConnectionError")
                               else Ok [day1_url; day2_url])
                 (fun _ url _ => Ok (sample_archive url)).

(** The frame of the first day as [main] hands it to the preprocessing. *)
Definition day1_frame : DataArray :=
  {| da_name := Some "tmean";
     da_attrs := {["source_url" := day1_url]};
     da_grid := sample_grid [Byte.x11] |}.

(** That frame after the preprocessing with the default arguments. *)
Definition day1_normal : DataArray :=
  {| da_name := Some "tmean";
     da_attrs := {["source_url" := day1_url]};
     da_grid :=
       {| g_crs := "EPSG:4326";
          g_dims := [("time", 1%nat); ("lat", 2%nat); ("lon", 2%nat)];
          g_coords := [];
          g_extent := {| minx := (-125 # 1)%Q; miny := (32 # 1)%Q;
                         maxx := (-114 # 1)%Q; maxy := (43 # 1)%Q |};
          g_time := [{| year := 2020; month := 1; day := 1 |}];
          g_values := [Byte.x11] |} |}.

(** A remote store that never answers in time. *)
Definition always_late : collaborators :=
  sample_outside (fun _ _ _ => Ok [day1_url]) (fun _ _ _ => Raise TimeoutError).

Definition ftp_prism : filesystem := main_fs None None.
Definition ftp_mirror : filesystem := main_fs (Some "mirror.example.org") None.

Definition sample_main (c : collaborators) : result unit * world :=
  main [2020] "tmean" "prism-tmean-2020.zarr" "D2" "4km" "stable"
       None None None (start c).

(* ===================================================================== *)
(** ** Extraction: [_dump_zippedbil] *)
(* ===================================================================== *)

Lemma bind_run {S A B} (m : M S A) (k : A -> M S B) s :
  bind m k s = match m s with
               | (Ok a, s') => k a s'
               | (Raise e, s') => (Raise e, s')
               end.
Proof. reflexivity. Qed.

(** A write that goes through has read the member and left its bytes. *)
Lemma written_data os fl :
  written os fl = true ->
  exists data, fl_read fl = Ok data /\ member_left os fl = Some data
               /\ fst (member_write os (stored_name fl) fl) = Ok tt.
Proof.
  unfold written, member_left, member_write.
  destruct (is_dir_name (stored_name fl)); [discriminate|].
  destruct (disk_open os (stored_name fl)); [|discriminate].
  destruct (fl_read fl) as [data|e]; [|discriminate].
  destruct (disk_write os (stored_name fl) data) as [[e part]|];
    [discriminate|].
  intros _. exists data. split; [reflexivity|]. split; reflexivity.
Qed.

Lemma not_written os fl :
  written os fl = false ->
  exists e, fst (member_write os (stored_name fl) fl) = Raise e.
Proof.
  unfold written. destruct (fst (member_write _ _ _)) as [[]|e];
    [discriminate|eauto].
Qed.

Lemma loop_unfold os fl rest dumpdir bil_path d :
  _dump_zippedbil_loop os (fl :: rest) dumpdir bil_path d =
  match fst (member_write os (stored_name fl) fl) with
  | Raise e => (Raise e, extract os d fl)
  | Ok _ =>
      if is_bil fl then
        match bil_path with
        | Some found =>
            (Raise (ZipBilFileError
                      (MultipleBil found (joinpath dumpdir (stored_name fl)))),
             extract os d fl)
        | None => _dump_zippedbil_loop os rest dumpdir
                    (Some (joinpath dumpdir (stored_name fl))) (extract os d fl)
        end
      else _dump_zippedbil_loop os rest dumpdir bil_path (extract os d fl)
  end.
Proof.
  unfold is_bil, extract, member_left. cbn [_dump_zippedbil_loop].
  cbn [joinpath fname]. fold (stored_name fl). unfold bind, write_member.
  destruct (member_write os (stored_name fl) fl) as [[[]|e] [b|]];
    cbn [fst snd]; try reflexivity;
    (destruct (String.eqb _ _); [destruct bil_path|]; reflexivity).
Qed.

(** The directory after the loop: the writes of the members reached, in
    order. *)
Lemma loop_state os ofs : forall dumpdir bil_path d,
  snd (_dump_zippedbil_loop os ofs dumpdir bil_path d)
  = foldl (extract os) d (reached_from os (bool_decide (is_Some bil_path)) ofs).
Proof.
  induction ofs as [|fl rest IH]; intros dumpdir bil_path d; [reflexivity|].
  rewrite loop_unfold. cbn [reached_from]. unfold written.
  destruct (fst (member_write os (stored_name fl) fl)) as [[]|e];
    cbn [is_ok]; [|reflexivity].
  destruct (is_bil fl) eqn:Hb.
  - destruct bil_path as [found|]; simpl.
    + reflexivity.
    + rewrite IH. reflexivity.
  - simpl. rewrite IH. reflexivity.
Qed.

(** The answer of the loop when every write it gets to goes through. *)
Lemma loop_result os ofs : forall dumpdir bil_path d,
  writes_ok os (reached_from os (bool_decide (is_Some bil_path)) ofs) ->
  fst (_dump_zippedbil_loop os ofs dumpdir bil_path d)
  = loop_answer dumpdir bil_path ofs.
Proof.
  induction ofs as [|fl rest IH]; intros dumpdir bil_path d Hok.
  - destruct bil_path; reflexivity.
  - rewrite loop_unfold. cbn [reached_from] in Hok. unfold written in Hok.
    destruct (fst (member_write os (stored_name fl) fl)) as [[]|e] eqn:Hw;
      cbn [is_ok] in Hok.
    2:{ apply Forall_cons in Hok as [Hfl _]. unfold written in Hfl.
        rewrite Hw in Hfl. discriminate. }
    unfold loop_answer. rewrite filter_cons.
    destruct (is_bil fl) eqn:Hb.
    + rewrite decide_True by reflexivity.
      destruct bil_path as [found|]; simpl; [reflexivity|].
      rewrite IH.
      * unfold loop_answer. destruct (filter _ rest); reflexivity.
      * simpl in Hok. apply Forall_cons in Hok as [_ Hok]. exact Hok.
    + rewrite decide_False by congruence. rewrite IH; [reflexivity|].
      apply Forall_cons in Hok as [_ Hok]. exact Hok.
Qed.

(** The answer of the loop when a write it gets to fails: the loop stops
    there with the error of that write. *)
Lemma loop_write_fails os ofs : forall dumpdir bil_path d,
  ~ writes_ok os (reached_from os (bool_decide (is_Some bil_path)) ofs) ->
  exists pre fl e,
    reached_from os (bool_decide (is_Some bil_path)) ofs = pre ++ [fl]
    /\ writes_ok os pre
    /\ fst (member_write os (stored_name fl) fl) = Raise e
    /\ fst (_dump_zippedbil_loop os ofs dumpdir bil_path d) = Raise e.
Proof.
  induction ofs as [|fl rest IH]; intros dumpdir bil_path d Hbad.
  - exfalso. apply Hbad. constructor.
  - rewrite loop_unfold. cbn [reached_from] in *.
    destruct (written os fl) eqn:Hw.
    2:{ destruct (not_written os fl Hw) as [e He]. rewrite He.
        exists [], fl, e. split; [reflexivity|]. split; [constructor|].
        split; [exact He|reflexivity]. }
    destruct (written_data os fl Hw) as (data & _ & _ & Hfst). rewrite Hfst.
    assert (Hstep : forall seen' bil_path',
      seen' = bool_decide (is_Some bil_path') ->
      ~ writes_ok os (fl :: reached_from os seen' rest) ->
      exists pre fl0 e,
        fl :: reached_from os seen' rest = pre ++ [fl0]
        /\ writes_ok os pre
        /\ fst (member_write os (stored_name fl0) fl0) = Raise e
        /\ fst (_dump_zippedbil_loop os rest dumpdir bil_path' (extract os d fl))
           = Raise e).
    { intros seen' bil_path' -> Hbad'.
      destruct (IH dumpdir bil_path' (extract os d fl))
        as (pre & fl0 & e & Hr & Hpre & He & Hloop).
      - intros Hok. apply Hbad'. constructor; assumption.
      - exists (fl :: pre), fl0, e. rewrite Hr.
        split; [reflexivity|]. split; [constructor; assumption|].
        split; assumption. }
    destruct (is_bil fl) eqn:Hb.
    + destruct bil_path as [found|]; simpl in Hbad |- *.
      * exfalso. apply Hbad. constructor; [exact Hw|constructor].
      * apply (Hstep true (Some (joinpath dumpdir (stored_name fl))));
          [reflexivity|exact Hbad].
    + apply (Hstep _ bil_path); [reflexivity|exact Hbad].
Qed.

(** The answer of the loop at a second raster member. *)
Lemma loop_second_bil os ofs : forall dumpdir bil_path d,
  writes_ok os (reached_from os (bool_decide (is_Some bil_path)) ofs) ->
  (1 < count_bil ofs + (if bool_decide (is_Some bil_path) then 1 else 0))%nat ->
  exists pre fl2 p1,
    reached_from os (bool_decide (is_Some bil_path)) ofs = pre ++ [fl2]
    /\ is_bil fl2 = true
    /\ fst (_dump_zippedbil_loop os ofs dumpdir bil_path d)
       = Raise (ZipBilFileError
                  (MultipleBil p1 (joinpath dumpdir (stored_name fl2)))).
Proof.
  unfold count_bil.
  induction ofs as [|fl rest IH]; intros dumpdir bil_path d Hok Hcount.
  - destruct bil_path; simpl in Hcount; lia.
  - rewrite loop_unfold. cbn [reached_from] in *. rewrite filter_cons in Hcount.
    destruct (written os fl) eqn:Hw.
    2:{ apply Forall_cons in Hok as [Hfl _]. congruence. }
    destruct (written_data os fl Hw) as (data & _ & _ & Hfst). rewrite Hfst.
    destruct (is_bil fl) eqn:Hb.
    + rewrite decide_True in Hcount by reflexivity.
      destruct bil_path as [found|]; simpl in Hok, Hcount |- *.
      * exists [], fl, found. split; [reflexivity|]. split; [exact Hb|reflexivity].
      * apply Forall_cons in Hok as [_ Hok].
        destruct (IH dumpdir (Some (joinpath dumpdir (stored_name fl)))
                    (extract os d fl) Hok)
          as (pre & fl2 & p1 & Hr & Hb2 & Hloop); [simpl; lia|].
        simpl in Hr. exists (fl :: pre), fl2, p1. rewrite Hr.
        split; [reflexivity|]. split; assumption.
    + rewrite decide_False in Hcount by congruence.
      apply Forall_cons in Hok as [_ Hok].
      destruct (IH dumpdir bil_path (extract os d fl) Hok Hcount)
        as (pre & fl2 & p1 & Hr & Hb2 & Hloop).
      exists (fl :: pre), fl2, p1. rewrite Hr.
      split; [reflexivity|]. split; assumption.
Qed.

Lemma reached_all os ofs : forall seen : bool,
  (count_bil ofs + (if seen then 1 else 0) <= 1)%nat ->
  writes_ok os (reached_from os seen ofs) ->
  reached_from os seen ofs = ofs.
Proof.
  unfold count_bil.
  induction ofs as [|fl rest IH]; intros seen H Hok; [reflexivity|].
  simpl in *. rewrite filter_cons in H.
  destruct (written os fl) eqn:Hw.
  2:{ apply Forall_cons in Hok as [Hfl _]. congruence. }
  destruct (is_bil fl) eqn:Hb.
  - rewrite decide_True in H by reflexivity. simpl in H.
    destruct seen; [lia|]. apply Forall_cons in Hok as [_ Hok].
    f_equal. apply IH; [simpl; lia|exact Hok].
  - rewrite decide_False in H by congruence.
    apply Forall_cons in Hok as [_ Hok]. f_equal. apply IH; assumption.
Qed.

Lemma reached_prefix os ofs : forall seen,
  reached_from os seen ofs `prefix_of` ofs.
Proof.
  induction ofs as [|fl rest IH]; intros seen; simpl; [done|].
  destruct (written os fl); [|exists rest; reflexivity].
  destruct (is_bil fl); [destruct seen|].
  - exists rest. reflexivity.
  - apply prefix_cons, IH.
  - apply prefix_cons, IH.
Qed.


(** A file of the directory after a run of writes: what the last write
    that opened it left there, or what was there before. *)
Lemma lookup_extracts os ofs : forall d nm,
  foldl (extract os) d ofs !! nm
  = match last_stored os nm ofs with
    | Some fl => member_left os fl
    | None => d !! nm
    end.
Proof.
  unfold last_stored.
  induction ofs as [|fl rest IH] using rev_ind; intros d nm; [reflexivity|].
  rewrite foldl_snoc, filter_app, filter_cons, filter_nil.
  unfold extract at 1.
  destruct (member_left os fl) as [b|] eqn:Hleft.
  - destruct (decide (stored_name fl = nm)) as [<-|Hne].
    + rewrite decide_True by (split; [reflexivity|eauto]).
      rewrite last_snoc, lookup_insert_eq. symmetry. exact Hleft.
    + rewrite decide_False by (intros [? _]; contradiction).
      rewrite app_nil_r, lookup_insert_ne by exact Hne. apply IH.
  - rewrite decide_False by (intros [_ [? H]]; discriminate).
    rewrite app_nil_r. apply IH.
Qed.

(** Members stored under one name carry one extension: the extension is
    read off the stored name. *)
Lemma same_name_same_kind fl1 fl2 :
  stored_name fl1 = stored_name fl2 -> is_bil fl1 = is_bil fl2.
Proof.
  unfold stored_name, is_bil, PurePath.suffix. intros ->. reflexivity.
Qed.

Lemma filter_singleton_sub {A} (P Q : A -> Prop)
    `{!forall x, Decision (P x)} `{!forall x, Decision (Q x)} (l : list A) x :
  (forall y, P y -> Q y) -> filter Q l = [x] -> P x -> filter P l = [x].
Proof.
  intros HPQ. induction l as [|y l IH]; intros HQ HP; [discriminate|].
  rewrite filter_cons in HQ. rewrite filter_cons.
  destruct (decide (Q y)) as [Hq|Hq].
  - injection HQ as -> HQ.
    rewrite decide_True by exact HP. f_equal.
    clear IH. induction l as [|z l IH]; [reflexivity|].
    rewrite filter_cons in HQ. rewrite filter_cons.
    destruct (decide (Q z)); [discriminate|].
    rewrite decide_False by (intros Hz; apply HPQ in Hz; contradiction).
    apply IH, HQ.
  - rewrite decide_False by (intros Hy; apply HPQ in Hy; contradiction).
    apply IH; assumption.
Qed.

Lemma dump_state os ofs dumpdir d :
  snd (_dump_zippedbil os ofs dumpdir d) = foldl (extract os) d (reached os ofs).
Proof.
  unfold _dump_zippedbil, reached. rewrite bind_run.
  pose proof (loop_state os ofs dumpdir None d) as Hs.
  destruct (_dump_zippedbil_loop os ofs dumpdir None d) as [[[p|]|e] d'];
    exact Hs.
Qed.

Lemma dump_result os ofs dumpdir d :
  fst (_dump_zippedbil os ofs dumpdir d)
  = match fst (_dump_zippedbil_loop os ofs dumpdir None d) with
    | Ok (Some p) => Ok p
    | Ok None => Raise (ZipBilFileError NoBil)
    | Raise e => Raise e
    end.
Proof.
  unfold _dump_zippedbil. rewrite bind_run.
  destruct (_dump_zippedbil_loop os ofs dumpdir None d) as [[[p|]|e] d'];
    reflexivity.
Qed.

(** The answer of [_dump_zippedbil] when every write it gets to goes
    through. *)
Lemma dump_answer os ofs dumpdir d :
  writes_ok os (reached os ofs) ->
  fst (_dump_zippedbil os ofs dumpdir d)
  = match filter (fun fl => is_bil fl = true) ofs with
    | [] => Raise (ZipBilFileError NoBil)
    | [fl] => Ok (joinpath dumpdir (stored_name fl))
    | fl1 :: fl2 :: _ =>
        Raise (ZipBilFileError
                 (MultipleBil (joinpath dumpdir (stored_name fl1))
                              (joinpath dumpdir (stored_name fl2))))
    end.
Proof.
  intros Hok. rewrite dump_result, (loop_result os ofs dumpdir None d Hok).
  unfold loop_answer.
  destruct (filter (fun fl => is_bil fl = true) ofs) as [|fl1 [|fl2 more]];
    reflexivity.
Qed.

Lemma dump_write_fails os ofs dumpdir d :
  ~ writes_ok os (reached os ofs) ->
  exists pre fl e,
    reached os ofs = pre ++ [fl] /\ writes_ok os pre
    /\ fst (member_write os (stored_name fl) fl) = Raise e
    /\ fst (_dump_zippedbil os ofs dumpdir d) = Raise e.
Proof.
  intros Hbad.
  destruct (loop_write_fails os ofs dumpdir None d Hbad)
    as (pre & fl & e & Hr & Hpre & He & Hloop).
  exists pre, fl, e. split; [exact Hr|]. split; [exact Hpre|].
  split; [exact He|]. rewrite dump_result, Hloop. reflexivity.
Qed.

Lemma writes_ok_dec os ofs : {writes_ok os ofs} + {~ writes_ok os ofs}.
Proof. unfold writes_ok. apply (decide _). Qed.

(** [_dump_zippedbil] returns only when every member was written and
    exactly one of them is a raster member. *)
Lemma dump_returns os ofs dumpdir d p :
  fst (_dump_zippedbil os ofs dumpdir d) = Ok p ->
  writes_ok os ofs /\ reached os ofs = ofs
  /\ exists fl, filter (fun x => is_bil x = true) ofs = [fl]
                /\ p = joinpath dumpdir (stored_name fl).
Proof.
  intros Hok.
  destruct (writes_ok_dec os (reached os ofs)) as [Hw|Hbad].
  2:{ destruct (dump_write_fails os ofs dumpdir d Hbad)
        as (pre & fl & e & _ & _ & _ & He). congruence. }
  rewrite (dump_answer os ofs dumpdir d Hw) in Hok.
  destruct (filter (fun fl => is_bil fl = true) ofs) as [|fl [|fl2 more]] eqn:Hf;
    try discriminate Hok.
  injection Hok as <-.
  assert (Hall : reached os ofs = ofs).
  { apply reached_all; [|exact Hw]. unfold count_bil. rewrite Hf. simpl. lia. }
  split; [rewrite <- Hall; exact Hw|]. split; [exact Hall|].
  exists fl. split; reflexivity.
Qed.

(** The file of a member that was written and is the only raster member
    holds its bytes. *)
Lemma unique_bil_stored os ofs fl d :
  filter (fun x => is_bil x = true) ofs = [fl] ->
  written os fl = true ->
  foldl (extract os) d ofs !! stored_name fl = member_left os fl.
Proof.
  intros Hf Hw.
  assert (Hin : fl ∈ filter (fun x => is_bil x = true) ofs) by (rewrite Hf; left).
  apply list_elem_of_filter in Hin as [Hb Hin].
  destruct (written_data os fl Hw) as (data & _ & Hleft & _).
  rewrite lookup_extracts. unfold last_stored.
  rewrite (filter_singleton_sub
             (fun x => stored_name x = stored_name fl
                       /\ is_Some (member_left os x))
             (fun x => is_bil x = true) ofs fl); [reflexivity| |exact Hf|].
  - intros y [Hy _]. rewrite (same_name_same_kind y fl Hy). exact Hb.
  - split; [reflexivity|rewrite Hleft; eauto].
Qed.

Lemma reached_app os l1 : forall (seen : bool) l2,
  (count_bil l1 + (if seen then 1 else 0) <= 1)%nat ->
  writes_ok os l1 ->
  reached_from os seen (l1 ++ l2)
  = l1 ++ reached_from os (seen || negb (count_bil l1 =? 0)%nat) l2.
Proof.
  unfold count_bil.
  induction l1 as [|fl rest IH]; intros seen l2 H Hok.
  - simpl. rewrite orb_false_r. reflexivity.
  - apply Forall_cons in Hok as [Hw Hok].
    simpl. rewrite Hw. rewrite filter_cons in *.
    destruct (is_bil fl) eqn:Hb.
    + rewrite decide_True in * by reflexivity. simpl in H.
      destruct seen; [lia|]. rewrite IH by (simpl; lia || exact Hok).
      reflexivity.
    + rewrite decide_False in * by congruence.
      rewrite IH by assumption. reflexivity.
Qed.

(** The errors of [_dump_zippedbil]: [ZipBilFileError] when every write
    it gets to goes through, the error of a member's write otherwise. *)
Lemma dump_error os ofs dumpdir d e :
  fst (_dump_zippedbil os ofs dumpdir d) = Raise e ->
  (writes_ok os (reached os ofs) /\ exists why, e = ZipBilFileError why)
  \/ (~ writes_ok os (reached os ofs)
      /\ exists fl, fl ∈ ofs
                    /\ fst (member_write os (stored_name fl) fl) = Raise e).
Proof.
  intros He.
  destruct (writes_ok_dec os (reached os ofs)) as [Hw|Hbad].
  - left. split; [exact Hw|].
    rewrite (dump_answer os ofs dumpdir d Hw) in He.
    destruct (filter (fun fl => is_bil fl = true) ofs) as [|fl1 [|fl2 more]];
      [|discriminate|]; injection He as <-; eauto.
  - right. split; [exact Hbad|].
    destruct (dump_write_fails os ofs dumpdir d Hbad)
      as (pre & fl & e' & Hr & _ & Hfl & He').
    exists fl. split.
    + destruct (reached_prefix os ofs false) as [k Hk].
      fold (reached os ofs) in Hk. rewrite Hk, Hr.
      apply elem_of_app. left. apply elem_of_app. right. left.
    + congruence.
Qed.


(** A member whose name denotes a directory is not written, whatever
    the disk. *)
Lemma directory_name_not_written os nm fl :
  is_dir_name nm = true ->
  member_write os nm fl = (Raise IsADirectoryError, None).
Proof. intros H. unfold member_write. rewrite H. reflexivity. Qed.



(** C9, as the code has it: the extraction writes, in order and each
    under its file name only, the members it gets to, which are all
    members up to and including the first one whose write fails or the
    second [.bil] member, whichever comes first: there it raises, the
    error of the write in the one case and [ZipBilFileError] in the
    other, and the members after it are not written.  The members it
    gets to are all members when the archive has at most one [.bil]
    member and every write goes through, and whenever a path is
    returned.  Afterwards each name holds what the last write that opened
    it left there: the bytes of the member, when that write went
    through. *)
Theorem dump_zippedbil_writes_reached (os : disk) (ofs : list OpenFile)
    (dumpdir : nat) (d : gmap string bytes) :
  snd (_dump_zippedbil os ofs dumpdir d) = foldl (extract os) d (reached os ofs)
  /\ reached os ofs `prefix_of` ofs
  /\ (writes_ok os (reached os ofs) ->
      ((count_bil ofs <= 1)%nat -> reached os ofs = ofs)
      /\ ((1 < count_bil ofs)%nat ->
          exists pre fl2 p1,
            reached os ofs = pre ++ [fl2] /\ is_bil fl2 = true
            /\ fst (_dump_zippedbil os ofs dumpdir d)
               = Raise (ZipBilFileError
                          (MultipleBil p1 (joinpath dumpdir (stored_name fl2))))))
  /\ (~ writes_ok os (reached os ofs) ->
      exists pre fl e,
        reached os ofs = pre ++ [fl] /\ writes_ok os pre
        /\ fst (member_write os (stored_name fl) fl) = Raise e
        /\ fst (_dump_zippedbil os ofs dumpdir d) = Raise e)
  /\ ((exists p, fst (_dump_zippedbil os ofs dumpdir d) = Ok p) ->
      reached os ofs = ofs /\ writes_ok os ofs)
  /\ (forall fl, last_stored os (stored_name fl) (reached os ofs) = Some fl ->
      snd (_dump_zippedbil os ofs dumpdir d) !! stored_name fl
      = member_left os fl)
  /\ (forall fl, written os fl = true ->
      exists data, fl_read fl = Ok data /\ member_left os fl = Some data).
Proof.
  split; [apply dump_state|]. split; [apply reached_prefix|].
  split; [|split; [|split; [|split]]].
  - intros Hw. split.
    + intros H. apply reached_all; [lia|exact Hw].
    + intros H.
      destruct (loop_second_bil os ofs dumpdir None d Hw)
        as (pre & fl2 & p1 & Hr & Hb & Hloop); [simpl; lia|].
      exists pre, fl2, p1. split; [exact Hr|]. split; [exact Hb|].
      rewrite dump_result, Hloop. reflexivity.
  - apply dump_write_fails.
  - intros [p Hok].
    destruct (dump_returns os ofs dumpdir d p Hok) as (Hw & Hall & _).
    split; assumption.
  - intros fl Hlast. rewrite dump_state, lookup_extracts, Hlast. reflexivity.
  - intros fl Hw. destruct (written_data os fl Hw) as (data & Hr & Hl & _).
    eauto.
Qed.

Lemma reached_from_head os seen fl post :
  exists post', reached_from os seen (fl :: post) = fl :: post'
                /\ post' `prefix_of` post.
Proof.
  simpl. destruct (written os fl); [destruct (is_bil fl); [destruct seen|]|].
  - exists []. split; [reflexivity|]. apply prefix_nil.
  - eexists. split; [reflexivity|]. apply reached_prefix.
  - eexists. split; [reflexivity|]. apply reached_prefix.
  - exists []. split; [reflexivity|]. apply prefix_nil.
Qed.

Lemma filter_nil_of_length {A} (P : A -> Prop) `{!forall x, Decision (P x)}
    (l : list A) :
  length (filter P l) = 0%nat -> filter P l = [].
Proof. destruct (filter P l); [reflexivity|discriminate]. Qed.

(** C10, as the code has it: when two members flatten to one file name
    and the loop gets to the later one and writes it (fewer than two
    [.bil] members come before it and every write up to it goes
    through), both are written to the same path and once the later one
    is written the file holds its bytes; the file still holds them at
    the end unless a later member of that name is reached.  Two such
    members have the same extension: when they are raster members the
    extraction raises [ZipBilFileError] right after the overwrite, with
    no further member written, so no returned path holds another
    member's bytes. *)
Theorem dump_zippedbil_same_name (os : disk) (pre mid post : list OpenFile)
    (fl1 fl2 : OpenFile) (dumpdir : nat) (d : gmap string bytes) :
  stored_name fl1 = stored_name fl2 ->
  (count_bil (pre ++ fl1 :: mid) <= 1)%nat ->
  writes_ok os (pre ++ fl1 :: mid ++ [fl2]) ->
  exists data1 data2 rest,
    fl_read fl1 = Ok data1 /\ fl_read fl2 = Ok data2
    /\ rest `prefix_of` post
    /\ reached os (pre ++ fl1 :: mid ++ fl2 :: post)
       = (pre ++ fl1 :: mid ++ [fl2]) ++ rest
    /\ foldl (extract os) d (pre ++ [fl1]) !! stored_name fl1 = Some data1
    /\ foldl (extract os) d (pre ++ fl1 :: mid ++ [fl2]) !! stored_name fl1
       = Some data2
    /\ snd (_dump_zippedbil os (pre ++ fl1 :: mid ++ fl2 :: post) dumpdir d)
       = foldl (extract os)
           (foldl (extract os) d (pre ++ fl1 :: mid ++ [fl2])) rest
    /\ ((forall fl, fl ∈ rest -> stored_name fl <> stored_name fl2) ->
        snd (_dump_zippedbil os (pre ++ fl1 :: mid ++ fl2 :: post) dumpdir d)
          !! stored_name fl1 = Some data2)
    /\ is_bil fl1 = is_bil fl2
    /\ (is_bil fl1 = true ->
        rest = []
        /\ fst (_dump_zippedbil os (pre ++ fl1 :: mid ++ fl2 :: post) dumpdir d)
           = Raise (ZipBilFileError
                      (MultipleBil (joinpath dumpdir (stored_name fl1))
                                   (joinpath dumpdir (stored_name fl2))))).
Proof.
  intros Hname Hcount Hok.
  pose proof (same_name_same_kind fl1 fl2 Hname) as Hkind.
  assert (Hok1 : writes_ok os (pre ++ fl1 :: mid)).
  { unfold writes_ok in *.
    replace (pre ++ fl1 :: mid ++ [fl2]) with ((pre ++ fl1 :: mid) ++ [fl2])
      in Hok by (rewrite <- app_assoc; reflexivity).
    apply Forall_app in Hok as [Hok _]. exact Hok. }
  assert (Hw1 : written os fl1 = true).
  { unfold writes_ok in Hok1. rewrite Forall_forall in Hok1.
    apply Hok1, elem_of_app. right. left. }
  assert (Hw2 : written os fl2 = true).
  { unfold writes_ok in Hok. rewrite Forall_forall in Hok.
    apply Hok, elem_of_app. right. right. apply elem_of_app. right. left. }
  destruct (written_data os fl1 Hw1) as (data1 & Hread1 & Hleft1 & _).
  destruct (written_data os fl2 Hw2) as (data2 & Hread2 & Hleft2 & _).
  assert (Hlist : pre ++ fl1 :: mid ++ fl2 :: post
                  = (pre ++ fl1 :: mid) ++ fl2 :: post)
    by (rewrite <- app_assoc; reflexivity).
  assert (Hlist2 : pre ++ fl1 :: mid ++ [fl2] = (pre ++ fl1 :: mid) ++ [fl2])
    by (rewrite <- app_assoc; reflexivity).
  destruct (reached_from_head os
              (false || negb (count_bil (pre ++ fl1 :: mid) =? 0)%nat)
              fl2 post) as (rest & Hhead & Hrest).
  assert (Hreached : reached os (pre ++ fl1 :: mid ++ fl2 :: post)
                     = (pre ++ fl1 :: mid ++ [fl2]) ++ rest).
  { unfold reached. rewrite Hlist, reached_app by (lia || exact Hok1).
    rewrite Hhead, Hlist2, <- !app_assoc. reflexivity. }
  assert (Hafter2 : foldl (extract os) d (pre ++ fl1 :: mid ++ [fl2])
                      !! stored_name fl1 = Some data2).
  { rewrite Hlist2, foldl_snoc. unfold extract at 1.
    rewrite Hleft2, Hname. apply lookup_insert_eq. }
  exists data1, data2, rest.
  split; [exact Hread1|]. split; [exact Hread2|]. split; [exact Hrest|].
  split; [exact Hreached|]. split.
  { rewrite foldl_snoc. unfold extract at 1. rewrite Hleft1.
    apply lookup_insert_eq. }
  split; [exact Hafter2|]. split.
  { rewrite dump_state, Hreached, foldl_app. reflexivity. }
  split.
  { intros Hnone. rewrite dump_state, Hreached, foldl_app, lookup_extracts.
    unfold last_stored.
    replace (filter (fun fl => stored_name fl = stored_name fl1
                               /\ is_Some (member_left os fl)) rest)
      with (@nil OpenFile); [exact Hafter2|].
    symmetry. clear -Hnone Hname.
    induction rest as [|x rest IH]; [reflexivity|].
    rewrite filter_cons, decide_False.
    - apply IH. intros fl Hfl. apply Hnone. right. exact Hfl.
    - intros [Hx _]. apply (Hnone x); [left|congruence]. }
  split; [exact Hkind|].
  intros Hb1.
  assert (Hb2 : is_bil fl2 = true) by congruence.
  assert (Hseen : (false || negb (count_bil (pre ++ fl1 :: mid) =? 0)%nat)
                  = true).
  { unfold count_bil.
    rewrite filter_app, filter_cons, decide_True by exact Hb1.
    rewrite length_app. cbn [length]. destruct (length (filter _ pre)); reflexivity. }
  assert (Hnil : rest = []).
  { rewrite Hseen in Hhead. simpl in Hhead. rewrite Hw2, Hb2 in Hhead.
    injection Hhead as <-. reflexivity. }
  split; [exact Hnil|].
  rewrite dump_answer.
  - unfold count_bil in Hcount.
    rewrite filter_app, filter_cons, decide_True in Hcount by exact Hb1.
    rewrite length_app in Hcount. simpl in Hcount.
    rewrite filter_app, filter_cons, decide_True by exact Hb1.
    rewrite filter_app, filter_cons, decide_True by exact Hb2.
    rewrite (filter_nil_of_length _ pre) by lia.
    rewrite (filter_nil_of_length _ mid) by lia.
    reflexivity.
  - rewrite Hreached, Hnil, app_nil_r. exact Hok.
Qed.

(** C9 fails as stated: of the archive [a.bil, b.bil, c.hdr] the member
    [c.hdr] is never written, the loop raises at [b.bil]. *)
Lemma dump_zippedbil_stops_at_second_bil :
  header_c ∈ [raster_a; raster_b; header_c]
  /\ snd (_dump_zippedbil good_disk [raster_a; raster_b; header_c] 0%nat ∅)
       !! stored_name header_c = None
  /\ fst (_dump_zippedbil good_disk [raster_a; raster_b; header_c] 0%nat ∅)
     = Raise (ZipBilFileError (MultipleBil (joinpath 0 "a.bil")
                                           (joinpath 0 "b.bil"))).
Proof.
  split; [set_solver|]. split; vm_compute; reflexivity.
Qed.

(** C10 fails as stated: [old/notes.txt] and [new/notes.txt] flatten to
    one name, but two [.bil] members come between them; the later one is
    never written and the file keeps the earlier member's bytes. *)
Lemma dump_zippedbil_later_not_written :
  stored_name notes_old = stored_name notes_new
  /\ fl_read notes_old <> fl_read notes_new
  /\ fl_read notes_old = Ok [Byte.x01]
  /\ snd (_dump_zippedbil good_disk [notes_old; raster_a; raster_b; notes_new]
            0%nat ∅)
       !! stored_name notes_new = Some [Byte.x01].
Proof.
  split; [reflexivity|]. split; [discriminate|]. split; [reflexivity|].
  vm_compute. reflexivity.
Qed.

Lemma dump_zippedbil_same_name_witness :
  snd (_dump_zippedbil good_disk
         ([] ++ raster_x1 :: [header_c] ++ raster_x2 :: [notes_new])
         0%nat ∅) !! stored_name raster_x1 = Some [Byte.x02]
  /\ fst (_dump_zippedbil good_disk
            ([] ++ raster_x1 :: [header_c] ++ raster_x2 :: [notes_new])
            0%nat ∅)
     = Raise (ZipBilFileError
                (MultipleBil (joinpath 0 (stored_name raster_x1))
                             (joinpath 0 (stored_name raster_x2)))).
Proof.
  destruct (dump_zippedbil_same_name good_disk [] [header_c] [notes_new]
              raster_x1 raster_x2 0%nat ∅)
    as (data1 & data2 & rest & _ & Hread2 & _ & _ & _ & _ & _ & Hend & _ & Hbil).
  - reflexivity.
  - vm_compute. lia.
  - repeat constructor.
  - destruct (Hbil eq_refl) as [-> Hraise].
    split; [|exact Hraise].
    rewrite Hend; [|intros fl Hfl; inversion Hfl].
    injection Hread2 as <-. reflexivity.
Defined.

Example dump_zippedbil_one_bil_sample :
  _dump_zippedbil good_disk [header_c; raster_a; notes_new] 7%nat ∅
  = (Ok (joinpath 7 "a.bil"),
     {[ "c.hdr" := [Byte.x0c]; "a.bil" := [Byte.x0a]; "notes.txt" := [Byte.x02] ]})
  /\ _dump_zippedbil good_disk [header_c; member_broken; raster_a] 7%nat ∅
     = (Raise (OtherError "BadZipFile"),
        {[ "c.hdr" := [Byte.x0c]; "d.prj" := [] ]}).
Proof. split; vm_compute; reflexivity. Qed.

(* ===================================================================== *)
(** ** The date in a file name: [_datetime_from_prism_flname] *)
(* ===================================================================== *)

Lemma split_nonnil sep s : split sep s <> [].
Proof.
  destruct s as [|c r]; simpl; [discriminate|].
  destruct (Ascii.eqb c sep); [discriminate|].
  destruct (split sep r); discriminate.
Qed.

Lemma split_lacks sep s : lacks sep s -> split sep s = [s].
Proof.
  induction s as [|c r IH]; simpl; [reflexivity|].
  intros [Hc Hr]. rewrite (proj2 (Ascii.eqb_neq c sep) Hc), (IH Hr).
  reflexivity.
Qed.

Lemma split_at_sep sep a b :
  split sep (a +:+ String sep b) = split sep a ++ split sep b.
Proof.
  induction a as [|c a IH]; simpl.
  - rewrite Ascii.eqb_refl. reflexivity.
  - destruct (Ascii.eqb c sep); [rewrite IH; reflexivity|].
    rewrite IH. pose proof (split_nonnil sep a) as Hne.
    destruct (split sep a); [contradiction|reflexivity].
Qed.

(** Appending a text without separators only extends the last field. *)
Lemma split_app_lacks sep a r :
  lacks sep r ->
  exists init lastf, split sep a = init ++ [lastf]
                     /\ split sep (a +:+ r) = init ++ [lastf +:+ r].
Proof.
  intros Hr. induction a as [|c a (init & lastf & Ha & Har)]; simpl.
  - exists [], "". simpl. rewrite (split_lacks sep r Hr). split; reflexivity.
  - destruct (Ascii.eqb c sep).
    + exists ("" :: init), lastf. rewrite Ha, Har. split; reflexivity.
    + rewrite Ha, Har. destruct init as [|i init]; simpl.
      * exists [], (String c lastf). split; reflexivity.
      * exists (String c i :: init), lastf. split; reflexivity.
Qed.

Lemma rfind_dot_lacks s : lacks "." s -> rfind_dot s = None.
Proof.
  induction s as [|c r IH]; simpl; [reflexivity|].
  intros [Hc Hr]. rewrite (IH Hr), (proj2 (Ascii.eqb_neq c ".") Hc).
  reflexivity.
Qed.

Lemma rfind_dot_last a b :
  lacks "." b -> rfind_dot (a +:+ String "." b) = Some (a, b).
Proof.
  intros Hb. induction a as [|c a IH]; simpl.
  - rewrite (rfind_dot_lacks b Hb). reflexivity.
  - rewrite IH. reflexivity.
Qed.

Lemma append_assoc (a b c : string) : (a +:+ b) +:+ c = a +:+ (b +:+ c).
Proof. induction a as [|x a IH]; simpl; [reflexivity|]. rewrite IH. reflexivity. Qed.

Lemma length_append (a b : string) :
  String.length (a +:+ b) = (String.length a + String.length b)%nat.
Proof. induction a as [|x a IH]; simpl; [reflexivity|]. rewrite IH. reflexivity. Qed.

Lemma nonempty_append a b : nonempty b = true -> nonempty (a +:+ b) = true.
Proof. destruct a; simpl; [tauto|reflexivity]. Qed.

Lemma last_snoc_default {A} (l : list A) x dflt : List.last (l ++ [x]) dflt = x.
Proof.
  induction l as [|y l IH]; [reflexivity|].
  simpl. destruct (l ++ [x]) eqn:E; [destruct l; discriminate|exact IH].
Qed.

(** The name of a path that ends in a text without slashes ends in that
    text. *)
Lemma name_app_lacks p r :
  lacks "/" r -> (2 <= String.length r)%nat ->
  exists x, PurePath.name (p +:+ r) = x +:+ r.
Proof.
  intros Hr Hlen.
  destruct (split_app_lacks "/" p r Hr) as (init & lastf & _ & Hsplit).
  exists lastf. unfold PurePath.name, PurePath.parts.
  rewrite Hsplit, filter_app, filter_cons, filter_nil.
  rewrite decide_True; [apply last_snoc_default|].
  assert (Hl : (2 <= String.length (lastf +:+ r))%nat).
  { rewrite length_append. lia. }
  split; intros E; rewrite E in Hl; simpl in Hl; lia.
Qed.

(** The token that is parsed: for a name [..._<tok>_bil.zip] it is
    [tok], whatever comes before. *)
Lemma token_position prefix tok :
  lacks "_" tok -> lacks "/" tok ->
  second_to_last
    (split "_" (PurePath.stem (prefix +:+ "_" +:+ tok +:+ "_bil.zip")))
  = Ok tok.
Proof.
  intros Hu Hs.
  assert (Hname : exists x, PurePath.name (prefix +:+ "_" +:+ tok +:+ "_bil.zip")
                            = x +:+ "_" +:+ tok +:+ "_bil.zip").
  { apply name_app_lacks.
    - simpl. split; [discriminate|].
      induction tok as [|c t IH]; simpl.
      + repeat split; discriminate.
      + destruct Hs as [Hc Ht], Hu as [_ Hu]. split; [exact Hc|]. apply IH; assumption.
    - simpl. rewrite length_append. simpl. lia. }
  destruct Hname as [x Hx].
  unfold PurePath.stem, PurePath.split_suffix. rewrite Hx.
  replace (x +:+ "_" +:+ tok +:+ "_bil.zip")
    with ((x +:+ "_" +:+ tok +:+ "_bil") +:+ String "." "zip").
  2:{ rewrite !append_assoc. reflexivity. }
  rewrite rfind_dot_last by (simpl; repeat split; discriminate).
  rewrite nonempty_append by reflexivity.
  simpl andb. cbv iota.
  change (x +:+ "_" +:+ tok +:+ "_bil")
    with (x +:+ String "_" (tok +:+ String "_" "bil")).
  rewrite split_at_sep, split_at_sep.
  rewrite (split_lacks "_" tok Hu).
  rewrite (split_lacks "_" "bil") by (simpl; repeat split; discriminate).
  unfold second_to_last. rewrite !rev_app_distr. reflexivity.
Qed.

Lemma first_match_map {A B} (f : A -> B) alts :
  forall (k : Z -> string -> option A) (k' : Z -> string -> option B) s,
  (forall v r, k' v r = f <$> k v r) ->
  first_match alts k' s = f <$> first_match alts k s.
Proof.
  induction alts as [|a alts IH]; intros k k' s Hk; simpl; [reflexivity|].
  destruct (a s) as [[v r]|]; [|apply IH, Hk].
  rewrite Hk. destruct (k v r); simpl; [reflexivity|apply IH, Hk].
Qed.

Lemma match_Ymd_md s :
  match_Ymd s
  = match re_Y s with
    | Some (y, r) => (fun x => (y, x.1.1, x.1.2, x.2)) <$> match_md r
    | None => None
    end.
Proof.
  unfold match_Ymd, match_md. destruct (re_Y s) as [[y r]|]; [|reflexivity].
  apply first_match_map. intros m r1.
  apply first_match_map. intros d r2. reflexivity.
Qed.

Lemma is_digit_cases c : is_digit c = true -> In c all_digits.
Proof.
  destruct c as [[] [] [] [] [] [] [] []]; intros H;
    vm_compute in H; try discriminate H; vm_compute; tauto.
Qed.

Lemma md_digits_checked :
  forallb (fun e => forallb (fun f => forallb (fun g => forallb (fun h =>
    md_as_expected e f g h) all_digits) all_digits) all_digits) all_digits
  = true.
Proof. vm_compute. reflexivity. Qed.

Lemma md_digits e f g h :
  is_digit e = true -> is_digit f = true ->
  is_digit g = true -> is_digit h = true ->
  md_as_expected e f g h = true.
Proof.
  intros He Hf Hg Hh.
  pose proof md_digits_checked as H.
  rewrite forallb_forall in H. specialize (H e (is_digit_cases e He)).
  rewrite forallb_forall in H. specialize (H f (is_digit_cases f Hf)).
  rewrite forallb_forall in H. specialize (H g (is_digit_cases g Hg)).
  rewrite forallb_forall in H. exact (H h (is_digit_cases h Hh)).
Qed.

Lemma days_in_month_le y m : days_in_month y m <= 31.
Proof.
  unfold days_in_month.
  destruct m as [|p|p]; try lia.
  repeat (destruct p as [p|p|]; try lia); destruct (is_leap y); lia.
Qed.

(** [strptime] on eight digits: the date they spell, read as four, two
    and two digits, when that is a calendar date; [ValueError]
    otherwise. *)
Lemma strptime_digits8 a b c d e f g h :
  Forall (fun x => is_digit x = true) [a; b; c; d; e; f; g; h] ->
  strptime_Ymd (digits8 a b c d e f g h)
  = let y := 1000 * digit_val a + 100 * digit_val b
             + 10 * digit_val c + digit_val d in
    let m := 10 * digit_val e + digit_val f in
    let dd := 10 * digit_val g + digit_val h in
    if valid_date y m dd
    then Ok {| year := y; month := m; day := dd |}
    else Raise ValueError.
Proof.
  intros H.
  repeat match goal with
         | H : Forall _ (_ :: _) |- _ =>
             apply Forall_cons in H as [? H]
         end.
  pose proof (md_digits e f g h ltac:(assumption) ltac:(assumption)
                ltac:(assumption) ltac:(assumption)) as Hmd.
  unfold strptime_Ymd. rewrite match_Ymd_md.
  unfold digits8, re_Y.
  repeat match goal with Hd : is_digit _ = true |- _ => rewrite Hd; clear Hd end.
  cbn [andb]. cbv zeta.
  unfold md_as_expected in Hmd. cbv zeta in Hmd.
  set (y := 1000 * digit_val a + 100 * digit_val b + 10 * digit_val c + digit_val d).
  set (m := 10 * digit_val e + digit_val f) in *.
  set (dd := 10 * digit_val g + digit_val h) in *.
  pose proof (days_in_month_le y m) as Hdim.
  assert (Hinvalid :
    negb ((1 <=? m) && (m <=? 12) && (1 <=? dd) && (dd <=? 31)) = true ->
    valid_date y m dd = false).
  { unfold valid_date. intros Hn.
    destruct (1 <=? y), (y <=? 9999), (1 <=? m) eqn:?, (m <=? 12) eqn:?,
      (1 <=? dd) eqn:?; simpl in *; try reflexivity; try discriminate.
    apply Z.leb_gt. apply negb_true_iff, Z.leb_gt in Hn. lia. }
  destruct (match_md _) as [[[m' d'] rest]|]; simpl.
  - destruct rest as [|x rest]; simpl.
    + apply andb_true_iff in Hmd as [Hmd _].
      apply andb_true_iff in Hmd as [Hm Hd].
      apply Z.eqb_eq in Hm, Hd. subst m' d'. reflexivity.
    + rewrite (Hinvalid Hmd). reflexivity.
  - rewrite (Hinvalid Hmd). reflexivity.
Qed.

Lemma digit_lacks c x : is_digit x = true -> is_digit c = false -> x <> c.
Proof. intros Hx Hc ->. congruence. Qed.

Lemma digits8_lacks sep a b c d e f g h :
  is_digit sep = false ->
  Forall (fun x => is_digit x = true) [a; b; c; d; e; f; g; h] ->
  lacks sep (digits8 a b c d e f g h).
Proof.
  intros Hsep H.
  repeat match goal with
         | H : Forall _ (_ :: _) |- _ => apply Forall_cons in H as [? H]
         end.
  simpl. repeat split; apply digit_lacks; assumption.
Qed.

(** C6, as the code has it: for every file name that ends in
    [_<eight digits>_bil.zip], whatever comes before, the date extracted
    is the one the eight digits spell as YYYYMMDD when that is a calendar
    date, and [ValueError] is raised when it is not;
    [PRISM_tmean_stable_4kmD2_20050615_bil.zip] yields 2005-06-15; and
    whenever the stem has a second-to-last token, the only error raised
    is [ValueError].  (A token that is not eight digits is not always
    rejected: [%m] and [%d] also take a single digit.) *)
Theorem datetime_from_prism_flname_convention (prefix : string)
    (a b c d e f g h : ascii) :
  Forall (fun x => is_digit x = true) [a; b; c; d; e; f; g; h] ->
  _datetime_from_prism_flname
    (prefix +:+ "_" +:+ digits8 a b c d e f g h +:+ "_bil.zip")
  = (let y := 1000 * digit_val a + 100 * digit_val b
              + 10 * digit_val c + digit_val d in
     let m := 10 * digit_val e + digit_val f in
     let dd := 10 * digit_val g + digit_val h in
     if valid_date y m dd
     then Ok {| year := y; month := m; day := dd |}
     else Raise ValueError)
  /\ _datetime_from_prism_flname "PRISM_tmean_stable_4kmD2_20050615_bil.zip"
     = Ok {| year := 2005; month := 6; day := 15 |}
  /\ (forall p tok err,
        second_to_last (split "_" (PurePath.stem p)) = Ok tok ->
        _datetime_from_prism_flname p = Raise err -> err = ValueError).
Proof.
  intros Hd. split; [|split; [reflexivity|]].
  - unfold _datetime_from_prism_flname.
    rewrite token_position by (apply digits8_lacks; [reflexivity|exact Hd]).
    apply strptime_digits8, Hd.
  - intros p tok err Htok. unfold _datetime_from_prism_flname. rewrite Htok.
    unfold strptime_Ymd.
    destruct (match_Ymd tok) as [[[[y m] dd] rest]|]; [|congruence].
    destruct (nonempty rest); [congruence|].
    destruct (valid_date y m dd); congruence.
Qed.

Lemma datetime_from_prism_flname_convention_witness :
  _datetime_from_prism_flname
    ("/daily/tmean/2005/PRISM_tmean_stable_4kmD2" +:+ "_"
     +:+ digits8 "2" "0" "0" "5" "0" "6" "1" "5" +:+ "_bil.zip")
  = Ok {| year := 2005; month := 6; day := 15 |}.
Proof.
  refine (proj1 (datetime_from_prism_flname_convention
                   "/daily/tmean/2005/PRISM_tmean_stable_4kmD2"
                   "2" "0" "0" "5" "0" "6" "1" "5" _)).
  repeat constructor.
Defined.

(** C6 fails as stated: the token [2005615] is not an eight-digit date,
    yet no parse error is raised: [%m] takes the single digit [6] and the
    date is 2005-06-15. *)
Lemma short_date_token_is_parsed :
  second_to_last
    (split "_" (PurePath.stem "PRISM_tmean_stable_4kmD2_2005615_bil.zip"))
  = Ok "2005615"
  /\ String.length "2005615" = 7%nat
  /\ _datetime_from_prism_flname "PRISM_tmean_stable_4kmD2_2005615_bil.zip"
     = Ok {| year := 2005; month := 6; day := 15 |}.
Proof. repeat split; reflexivity. Qed.

Example date_of_url :
  _datetime_from_prism_flname day1_url
  = Ok {| year := 2020; month := 1; day := 1 |}.
Proof. reflexivity. Qed.

Example date_june_31 :
  _datetime_from_prism_flname "PRISM_tmean_stable_4kmD2_20050631_bil.zip"
  = Raise ValueError.
Proof. reflexivity. Qed.

Example date_feb_29 :
  _datetime_from_prism_flname "PRISM_tmean_stable_4kmD2_20000229_bil.zip"
  = Ok {| year := 2000; month := 2; day := 29 |}
  /\ _datetime_from_prism_flname "PRISM_tmean_stable_4kmD2_19000229_bil.zip"
     = Raise ValueError.
Proof. split; reflexivity. Qed.

Example date_without_token :
  _datetime_from_prism_flname "20050615.zip" = Raise IndexError.
Proof. reflexivity. Qed.

Example pathlib_samples :
  PurePath.suffix "a/b/x.bil" = ".bil" /\ PurePath.suffix ".bil" = ""
  /\ PurePath.suffix "x.bil." = "" /\ PurePath.suffix "x.tar.gz" = ".gz"
  /\ PurePath.name "a/b/" = "b" /\ PurePath.name "a/./" = "a"
  /\ PurePath.name "" = "" /\ PurePath.stem "d/x.bil" = "x"
  /\ split "_" "a__b" = ["a"; ""; "b"].
Proof. repeat split; reflexivity. Qed.

(* ===================================================================== *)
(** ** The fetch and its retries *)
(* ===================================================================== *)

Lemma new_events_app w w' evs :
  trace w' = trace w ++ evs -> new_events w w' = evs.
Proof. intros H. unfold new_events. rewrite H. apply drop_app_length. Qed.

(** One attempt: the remote store serves one more request, the attempt is
    on the trace, and when the target directory exists the attempt fails
    only if the remote store does. *)
Lemma fs_get_file_run fs url p w :
  is_Some (dirs w !! parent p) ->
  exists w',
    fs_get_file fs url p w
    = (match remote_get_file (outside w) fs url (served w) with
       | Ok _ => Ok tt
       | Raise e => Raise e
       end, w')
    /\ trace w' = trace w ++ [EvGetFile fs url]
    /\ served w' = S (served w)
    /\ outside w' = outside w
    /\ is_Some (dirs w' !! parent p).
Proof.
  intros [c Hc]. unfold fs_get_file.
  destruct (remote_get_file (outside w) fs url (served w)) as [data|e].
  - unfold write_file, in_dir, dir_write. simpl. rewrite Hc.
    eexists. split; [reflexivity|]. simpl.
    rewrite lookup_insert_eq. eauto.
  - eexists. split; [reflexivity|]. simpl. rewrite Hc. eauto.
Qed.

Lemma sleep_run seconds w :
  sleep seconds w = (Ok tt, log (EvSleep seconds) w).
Proof. reflexivity. Qed.

Ltac settle_attempts :=
  repeat split; intros;
  repeat match goal with
         | H : is_ok (Raise _) = true |- _ => discriminate H
         | H : Ok _ = Raise _ |- _ => discriminate H
         | H : Raise _ = Ok _ |- _ => discriminate H
         | H : Raise _ = Raise _ |- _ => injection H as H; try subst
         | H : is_TimeoutError TimeoutError = false |- _ => discriminate H
         end;
  try congruence; auto; try (vm_compute; lia).

(** C3: the fetch of lines 95-103 makes at most three attempts; it tries
    again only after a [TimeoutError], sleeping 30 seconds before the
    second attempt and 60 before the third; any other error, and the
    error of the third attempt, is raised at once.  Two timeouts followed
    by a success give success after exactly three attempts (two retries)
    and 30 + 60 seconds of sleep. *)
Theorem fetch_archive_retry_policy (url : string) (fs : filesystem)
    (p : Path) (w : world) :
  is_Some (dirs w !! parent p) ->
  let answer := fun i => remote_get_file (outside w) fs url (served w + i) in
  let run := fetch_archive url fs p w in
  let evs := new_events w (snd run) in
  let fetch := EvGetFile fs url in
  ((attempts evs <= 3)%nat
   /\ (evs = [fetch] \/ evs = [fetch; EvSleep 30; fetch]
       \/ evs = [fetch; EvSleep 30; fetch; EvSleep 60; fetch]))
  /\ (is_ok (answer 0%nat) = true -> evs = [fetch] /\ fst run = Ok (Some tt))
  /\ (forall e, answer 0%nat = Raise e -> is_TimeoutError e = false ->
      evs = [fetch] /\ fst run = Raise e)
  /\ (answer 0%nat = Raise TimeoutError ->
      (is_ok (answer 1%nat) = true ->
       evs = [fetch; EvSleep 30; fetch] /\ fst run = Ok (Some tt))
      /\ (forall e, answer 1%nat = Raise e -> is_TimeoutError e = false ->
          evs = [fetch; EvSleep 30; fetch] /\ fst run = Raise e)
      /\ (answer 1%nat = Raise TimeoutError ->
          evs = [fetch; EvSleep 30; fetch; EvSleep 60; fetch]
          /\ attempts evs = 3%nat /\ slept evs = 30 + 60
          /\ (is_ok (answer 2%nat) = true -> fst run = Ok (Some tt))
          /\ (forall e, answer 2%nat = Raise e -> fst run = Raise e))).
Proof.
  intros Hdir. cbv beta zeta.
  replace (served w + 0)%nat with (served w) by lia.
  replace (served w + 1)%nat with (S (served w)) by lia.
  replace (served w + 2)%nat with (S (S (served w))) by lia.
  unfold fetch_archive. cbn [retry_call]. unfold bind.
  destruct (fs_get_file_run fs url p w Hdir) as (w1 & E1 & T1 & S1 & O1 & D1).
  rewrite E1.
  assert (D1' : is_Some (dirs (log (EvSleep 30) w1) !! parent p)) by exact D1.
  destruct (fs_get_file_run fs url p _ D1') as (w2 & E2 & T2 & S2 & O2 & D2).
  assert (D2' : is_Some (dirs (log (EvSleep 60) w2) !! parent p)) by exact D2.
  destruct (fs_get_file_run fs url p _ D2') as (w3 & E3 & T3 & S3 & O3 & D3).
  cbn [log trace served outside] in T2, S2, O2, E2, T3, S3, O3, E3.
  rewrite S1, O1 in E2. rewrite S2, O2, S1, O1 in E3.
  rewrite T1 in T2. rewrite T2 in T3.
  repeat rewrite <- app_assoc in T2. repeat rewrite <- app_assoc in T3.
  cbn [app] in T2, T3.
  pose proof (new_events_app _ _ _ T1) as N1.
  pose proof (new_events_app _ _ _ T2) as N2.
  pose proof (new_events_app _ _ _ T3) as N3.
  destruct (remote_get_file (outside w) fs url (served w)) as [d0|e0] eqn:A0.
  { cbn [fst snd]. rewrite N1.
    settle_attempts. }
  destruct (is_TimeoutError e0) eqn:K0.
  2:{ cbn [fst snd]. rewrite N1.
      settle_attempts. }
  destruct e0; try discriminate K0. clear K0.
  rewrite sleep_run. rewrite E2.
  destruct (remote_get_file (outside w) fs url (S (served w))) as [d1|e1] eqn:A1.
  { cbn [fst snd]. rewrite N2.
    settle_attempts. }
  destruct (is_TimeoutError e1) eqn:K1.
  2:{ cbn [fst snd]. rewrite N2.
      settle_attempts. }
  destruct e1; try discriminate K1. clear K1.
  rewrite sleep_run.
  change (30 * 2) with 60. rewrite E3.
  destruct (remote_get_file (outside w) fs url (S (S (served w)))) as [d2|e2] eqn:A2.
  { cbn [fst snd]. rewrite N3.
    settle_attempts. }
  assert (Hlast : (if is_TimeoutError e2 then (Raise e2, w3)
                   else (Raise e2, w3)) = (@Raise (option unit) e2, w3))
    by (destruct (is_TimeoutError e2); reflexivity).
  rewrite Hlast. cbn [fst snd]. rewrite N3.
  settle_attempts.
Qed.

(* ===================================================================== *)
(** ** The unpack scope *)
(* ===================================================================== *)

(* ===================================================================== *)
(** ** What a computation leaves alone *)
(* ===================================================================== *)

Lemma extends_by_refl P w : extends_by P w w.
Proof. exists []. rewrite app_nil_r. split; [reflexivity|constructor]. Qed.

Lemma extends_by_trans P w1 w2 w3 :
  extends_by P w1 w2 -> extends_by P w2 w3 -> extends_by P w1 w3.
Proof.
  intros (e1 & T1 & F1) (e2 & T2 & F2). exists (e1 ++ e2).
  rewrite T2, T1, app_assoc. split; [reflexivity|]. apply Forall_app; auto.
Qed.

#[local] Instance scratch_kept_preorder d : PreOrder (scratch_kept d).
Proof.
  split.
  - intros w Hd. repeat split; [exact Hd|apply extends_by_refl].
  - intros w1 w2 w3 H12 H23 Hd.
    destruct (H12 Hd) as (Hd2 & S2 & E2).
    destruct (H23 Hd2) as (Hd3 & S3 & E3).
    repeat split; [exact Hd3|congruence|eapply extends_by_trans; eassumption].
Qed.

#[local] Instance only_lists_preorder : PreOrder only_lists.
Proof.
  split.
  - intros w. repeat split. apply extends_by_refl.
  - intros w1 w2 w3 (D2 & S2 & E2) (D3 & S3 & E3).
    repeat split; [congruence..|eapply extends_by_trans; eassumption].
Qed.

Section Respects.
Context (R : relation world) `{!PreOrder R}.

Lemma respects_ret {A} (a : A) : respects R (ret a).
Proof. intros w. reflexivity. Qed.

Lemma respects_raise {A} e : respects R (@raise world A e).
Proof. intros w. reflexivity. Qed.

Lemma respects_lift {A} (r : result A) : respects R (lift r).
Proof. intros w. reflexivity. Qed.

Lemma respects_ask {A} (q : collaborators -> result A) : respects R (ask q).
Proof. intros w. reflexivity. Qed.

Lemma respects_bind {A B} (m : M world A) (k : A -> M world B) :
  respects R m -> (forall a, respects R (k a)) -> respects R (bind m k).
Proof.
  intros Hm Hk w. unfold bind. specialize (Hm w).
  destruct (m w) as [[a|e] w1]; cbn [snd] in *; [|exact Hm].
  transitivity w1; [exact Hm|apply Hk].
Qed.

Lemma respects_for_each {A B} (f : A -> M world B) xs :
  (forall x, respects R (f x)) -> respects R (for_each f xs).
Proof.
  intros Hf. induction xs as [|x xs IH]; cbn [for_each].
  - apply respects_ret.
  - apply respects_bind; [apply Hf|]. intros y.
    apply respects_bind; [exact IH|]. intros ys. apply respects_ret.
Qed.

Lemma respects_with_disk {A} (f : disk -> M world A) :
  (forall os, respects R (f os)) -> respects R (with_disk f).
Proof. intros Hf w. apply Hf. Qed.

Lemma respects_on_grid op da : respects R (on_grid op da).
Proof.
  apply respects_bind; [apply respects_ask|]. intros g. apply respects_ret.
Qed.

Lemma respects_read_file p : respects R (read_file p).
Proof.
  intros w. unfold read_file.
  destruct (dirs w !! parent p) as [c|]; [destruct (c !! fname p)|];
    reflexivity.
Qed.

Lemma respects_retry_call {A} (f : M world A) exceptions tries :
  forall delay backoff,
  respects R f -> (forall s, respects R (sleep s)) ->
  respects R (retry_call f exceptions tries delay backoff).
Proof.
  induction tries as [|n IH]; intros delay backoff Hf Hs.
  - apply respects_ret.
  - intros w. cbn [retry_call]. pose proof (Hf w) as Hw.
    destruct (f w) as [[a|e] w1]; cbn [snd] in *; [exact Hw|].
    destruct (exceptions e); [|exact Hw].
    destruct n as [|n']; [exact Hw|].
    transitivity w1; [exact Hw|].
    apply (respects_bind (sleep delay)); [apply Hs|].
    intros _. apply IH; assumption.
Qed.
End Respects.

Lemma scratch_kept_step d w w' evs :
  (d ∈ dom (dirs w) -> d ∈ dom (dirs w')) ->
  stores w' = stores w ->
  trace w' = trace w ++ evs ->
  Forall (fun e => e <> EvRmtree d /\ is_zarr e = false) evs ->
  scratch_kept d w w'.
Proof.
  intros Hd Hs Ht He Hin. repeat split; [auto|exact Hs|].
  exists evs. split; assumption.
Qed.

Section Scratch.
Variable d : nat.

Lemma scratch_sleep s : respects (scratch_kept d) (sleep s).
Proof.
  intros w. apply (scratch_kept_step d _ _ [EvSleep s]); try reflexivity.
  - auto.
  - repeat constructor. discriminate.
Qed.

Lemma scratch_in_dir {A} t (m : M (gmap string bytes) A) :
  respects (scratch_kept d) (in_dir t m).
Proof.
  intros w. unfold in_dir.
  destruct (dirs w !! t) as [c|]; [|reflexivity].
  destruct (m c) as [r c'].
  apply (scratch_kept_step d _ _ []); cbn [snd set_dirs dirs trace stores].
  - intros Hd. apply elem_of_dom. apply elem_of_dom in Hd.
    destruct (decide (t = d)) as [->|Hne].
    + rewrite lookup_insert_eq. eauto.
    + rewrite lookup_insert_ne by exact Hne. exact Hd.
  - reflexivity.
  - rewrite app_nil_r. reflexivity.
  - constructor.
Qed.

Lemma scratch_fs_get_file fs url p :
  respects (scratch_kept d) (fs_get_file fs url p).
Proof.
  intros w. unfold fs_get_file.
  assert (H1 : scratch_kept d w (log (EvGetFile fs url) (tick w))).
  { apply (scratch_kept_step d _ _ [EvGetFile fs url]); try reflexivity.
    - auto.
    - repeat constructor. discriminate. }
  destruct (remote_get_file (outside w) fs url (served w)); [|exact H1].
  transitivity (log (EvGetFile fs url) (tick w)); [exact H1|].
  apply scratch_in_dir.
Qed.

Lemma scratch_TemporaryDirectory {A} (body : nat -> M world A) :
  (forall t, t <> d -> respects (scratch_kept d) (body t)) ->
  respects (scratch_kept d) (TemporaryDirectory body).
Proof.
  intros Hbody w Hd. unfold TemporaryDirectory.
  set (t := fresh (dom (dirs w))).
  assert (Ht : t <> d).
  { intros E. apply (is_fresh (dom (dirs w))). fold t. rewrite E. exact Hd. }
  set (w1 := log (EvMkdtemp t) (set_dirs (<[t := ∅]>) w)).
  assert (H1 : scratch_kept d w w1).
  { apply (scratch_kept_step d _ _ [EvMkdtemp t]); try reflexivity.
    - intros _. apply elem_of_dom. cbn.
      rewrite lookup_insert_ne by exact Ht. apply elem_of_dom, Hd.
    - repeat constructor. discriminate. }
  pose proof (Hbody t Ht w1) as H2.
  destruct (body t w1) as [r w2]. cbn [snd] in *.
  assert (H3 : scratch_kept d w2 (log (EvRmtree t) (set_dirs (delete t) w2))).
  { apply (scratch_kept_step d _ _ [EvRmtree t]); try reflexivity.
    - intros Hd2. apply elem_of_dom. cbn.
      rewrite lookup_delete_ne by exact Ht. apply elem_of_dom, Hd2.
    - constructor; [split; [congruence|reflexivity]|constructor]. }
  exact (transitivity H1 (transitivity H2 H3) Hd).
Qed.

Lemma scratch_open_rasterio p : respects (scratch_kept d) (open_rasterio p).
Proof.
  intros w. unfold open_rasterio.
  destruct (dirs w !! parent p); reflexivity.
Qed.

Lemma scratch_fetch_archive url fs p :
  respects (scratch_kept d) (fetch_archive url fs p).
Proof.
  apply respects_retry_call; [apply _|apply scratch_fs_get_file|].
  apply scratch_sleep.
Qed.

Lemma scratch_unpacked_prismzip_bil {A} url fs (body : Path -> M world A) :
  (forall p, respects (scratch_kept d) (body p)) ->
  respects (scratch_kept d) (unpacked_prismzip_bil url fs body).
Proof.
  intros Hbody. apply scratch_TemporaryDirectory. intros t _.
  apply respects_bind; [apply _|apply scratch_fetch_archive|]. intros _.
  apply respects_bind; [apply _| |].
  { apply respects_bind; [apply _|apply respects_read_file; apply _|].
    intros data. apply respects_ask; apply _. }
  intros zipped_files.
  apply respects_bind; [apply _| |exact Hbody].
  apply respects_with_disk. intros os. apply scratch_in_dir.
Qed.

Lemma scratch_preprocess da minlat minlon maxlat maxlon epsg :
  respects (scratch_kept d)
    (preprocess_bil_dataarray da minlat minlon maxlat maxlon epsg).
Proof.
  unfold preprocess_bil_dataarray.
  repeat first
    [ apply respects_on_grid; apply _
    | apply respects_ret; apply _
    | apply respects_raise; apply _
    | apply respects_lift; apply _
    | apply respects_bind; [apply _| |intros ?]
    | match goal with |- respects _ (match ?x with _ => _ end) => destruct x end ].
Qed.

Lemma scratch_process_url tmpdir fs variable kw url :
  respects (scratch_kept d) (process_url tmpdir fs variable kw url).
Proof.
  apply scratch_unpacked_prismzip_bil. intros p. unfold process_bil.
  apply respects_bind; [apply _|apply scratch_open_rasterio|]. intros da.
  apply respects_bind; [apply _|apply scratch_preprocess|]. intros da'.
  apply respects_bind; [apply _|apply respects_lift; apply _|]. intros out.
  apply respects_bind; [apply _| |intros _; apply respects_ret; apply _].
  apply respects_bind; [apply _|apply respects_ask; apply _|]. intros data.
  apply scratch_in_dir.
Qed.
End Scratch.

Lemma lists_fs_glob fs pattern : respects only_lists (fs_glob fs pattern).
Proof.
  intros w. repeat split. exists [EvGlob fs pattern].
  split; [reflexivity|repeat constructor].
Qed.

Lemma lists_cache key f :
  respects only_lists f -> respects only_lists (cache key f).
Proof.
  intros Hf w. unfold cache.
  destruct (url_cache w !! key); [reflexivity|].
  specialize (Hf w). destruct (f w) as [[v|e] w1]; exact Hf.
Qed.

Lemma lists_enumerate_urls years fs variable scale version stability :
  respects only_lists (enumerate_urls years fs variable scale version stability).
Proof.
  apply respects_bind; [apply _| |intros l; apply respects_ret; apply _].
  apply respects_for_each; [apply _|]. intros yr.
  apply lists_cache, lists_fs_glob.
Qed.

(* ===================================================================== *)
(** ** The driver: [main] *)
(* ===================================================================== *)

(** The run of [main], stage by stage. *)
Lemma main_run years variable outpath version scale stability host protocol kw w :
  let fs := main_fs host protocol in
  let kw' := default no_kwargs kw in
  main years variable outpath version scale stability host protocol kw w
  = match enumerate_urls years fs variable scale version stability w with
    | (Raise e, w1) => (Raise e, w1)
    | (Ok all_urls, w1) =>
        let d := fresh (dom (dirs w1)) in
        match for_each (process_url d fs variable kw') all_urls
                (scratch_made d w1) with
        | (Raise e, w3) => (Raise e, scratch_removed d w3)
        | (Ok daily_paths, w3) =>
            match open_mfdataset daily_paths w3 with
            | (Raise e, w4) => (Raise e, scratch_removed d w4)
            | (Ok ds, w4) =>
                (fst (to_zarr ds outpath w4),
                 scratch_removed d (snd (to_zarr ds outpath w4)))
            end
        end
    end.
Proof.
  cbv zeta. unfold main, main_fs. unfold bind at 1.
  destruct (enumerate_urls _ _ _ _ _ _ w) as [[all_urls|e] w1]; [|reflexivity].
  unfold TemporaryDirectory, scratch_made, scratch_removed, bind.
  destruct (for_each _ all_urls _) as [[daily_paths|e] w3]; [|reflexivity].
  destruct (open_mfdataset daily_paths w3) as [[ds|e] w4]; [|reflexivity].
  destruct (to_zarr ds outpath w4) as [r w5]. reflexivity.
Qed.

Lemma open_mfdataset_state paths w : snd (open_mfdataset paths w) = w.
Proof.
  symmetry. revert w. change (respects eq (open_mfdataset paths)).
  unfold open_mfdataset.
  apply respects_bind; [apply _| |intros contents].
  - apply respects_for_each; [apply _|]. intros p.
    apply respects_read_file; apply _.
  - apply respects_bind; [apply _|apply respects_ask; apply _|].
    intros _. apply respects_ret; apply _.
Qed.

(** The two ways out of [to_zarr]: the store is written and the call
    returns, or the call raises and leaves what [xr_zarr_left] says. *)
Lemma to_zarr_cases ds outpath w :
  (exists store,
     to_zarr ds outpath w
     = (Ok tt, log (EvZarrDone outpath)
                 (set_stores (<[outpath := store]>) (log (EvToZarr outpath) w))))
  \/ (exists e,
        to_zarr ds outpath w
        = (Raise e,
           match xr_zarr_left (outside w) e with
           | Some part => set_stores (<[outpath := part]>)
                            (log (EvToZarr outpath) w)
           | None => log (EvToZarr outpath) w
           end)).
Proof.
  unfold to_zarr. cbv zeta. set (w1 := log (EvToZarr outpath) w).
  assert (H : respects eq
    (contents <- for_each read_file (ds_paths ds) ;;
     ask (fun c => xr_to_zarr c contents))).
  { apply respects_bind; [apply _| |intros contents; apply respects_ask, _].
    apply respects_for_each; [apply _|]. intros p. apply respects_read_file, _. }
  specialize (H w1).
  destruct ((contents <- for_each read_file (ds_paths ds) ;;
             ask (fun c => xr_to_zarr c contents)) w1) as [[store|e] w2];
    cbn [snd] in H; subst w2; [left|right]; eauto.
Qed.

(** [to_zarr] touches no directory, and puts its start on the trace and,
    when it returns, its end. *)
Lemma to_zarr_state ds outpath w :
  dirs (snd (to_zarr ds outpath w)) = dirs w
  /\ exists tail,
       trace (snd (to_zarr ds outpath w)) = trace w ++ EvToZarr outpath :: tail
       /\ (tail = [] \/ tail = [EvZarrDone outpath])
       /\ (fst (to_zarr ds outpath w) = Ok tt <-> tail = [EvZarrDone outpath]).
Proof.
  destruct (to_zarr_cases ds outpath w) as [[store ->]|[e ->]]; cbn [fst snd].
  - split; [reflexivity|]. exists [EvZarrDone outpath]. cbn.
    rewrite <- app_assoc. split; [reflexivity|]. split; [right|]; tauto.
  - split; [destruct (xr_zarr_left _ _); reflexivity|]. exists [].
    split; [destruct (xr_zarr_left _ _); reflexivity|].
    split; [left; reflexivity|]. split; discriminate.
Qed.

Lemma for_each_length {S A B} (f : A -> M S B) xs : forall s ys s',
  for_each f xs s = (Ok ys, s') -> length ys = length xs.
Proof.
  induction xs as [|x xs IH]; intros s ys s' H; cbn [for_each] in H.
  - injection H as <- _. reflexivity.
  - unfold bind in H. destruct (f x s) as [[y|e] s1]; [|discriminate].
    destruct (for_each f xs s1) as [[ys'|e] s2] eqn:E; [|discriminate].
    injection H as <- _. simpl. f_equal. eapply IH, E.
Qed.

(** [for_each] stops at the first element that raises: the elements
    after it are not processed. *)
Lemma for_each_raise {S A B} (f : A -> M S B) pre : forall x post s ys s1 e s2,
  for_each f pre s = (Ok ys, s1) -> f x s1 = (Raise e, s2) ->
  for_each f (pre ++ x :: post) s = (Raise e, s2).
Proof.
  induction pre as [|p pre IH]; intros x post s ys s1 e s2 Hpre Hx.
  - injection Hpre as _ <-. cbn [app for_each]. unfold bind. rewrite Hx.
    reflexivity.
  - cbn [app for_each] in *. unfold bind in *.
    destruct (f p s) as [[y|e'] s']; [|discriminate].
    destruct (for_each f pre s') as [[ys'|e'] s''] eqn:E; [|discriminate].
    injection Hpre as _ <-. rewrite (IH x post s' ys' s'' e s2 E Hx).
    reflexivity.
Qed.

(** What [main] puts on the trace, stage by stage: the listings; then,
    if they succeed, the scratch directory, the events of the days, the
    store write if all days and the combine succeed, and the removal of
    the scratch directory. *)
Lemma main_stages years variable outpath version scale stability host protocol kw w :
  let fs := main_fs host protocol in
  let kw' := default no_kwargs kw in
  let d := fresh (dom (dirs w)) in
  let run := main years variable outpath version scale stability host protocol kw w in
  let evs := new_events w (snd run) in
  exists globs, Forall (fun e => is_glob e = true) globs /\
    match enumerate_urls years fs variable scale version stability w with
    | (Raise e, w1) =>
        fst run = Raise e /\ evs = globs /\ stores (snd run) = stores w
    | (Ok all_urls, w1) =>
        exists days,
          Forall (fun e => e <> EvRmtree d /\ is_zarr e = false) days /\
          match for_each (process_url d fs variable kw') all_urls
                  (scratch_made d w1) with
          | (Raise e, w3) =>
              fst run = Raise e /\ stores (snd run) = stores w
              /\ evs = globs ++ EvMkdtemp d :: days ++ [EvRmtree d]
          | (Ok daily_paths, w3) =>
              ((exists e, fst run = Raise e) /\ stores (snd run) = stores w
               /\ evs = globs ++ EvMkdtemp d :: days ++ [EvRmtree d])
              \/ exists tail,
                   evs = globs ++ EvMkdtemp d :: days
                         ++ EvToZarr outpath :: tail ++ [EvRmtree d]
                   /\ (tail = [] \/ tail = [EvZarrDone outpath])
                   /\ (fst run = Ok tt <-> tail = [EvZarrDone outpath])
          end
    end.
Proof.
  cbv zeta. rewrite main_run. cbv zeta.
  destruct (lists_enumerate_urls years (main_fs host protocol) variable scale
              version stability w) as (D1 & S1 & globs & T1 & G1).
  exists globs. split; [exact G1|].
  destruct (enumerate_urls _ _ _ _ _ _ w) as [[all_urls|e] w1];
    cbn [fst snd] in *.
  2:{ repeat split; [apply new_events_app, T1|exact S1]. }
  rewrite D1. set (d := fresh (dom (dirs w))).
  set (w2 := scratch_made d w1).
  assert (Hd2 : d ∈ dom (dirs w2)).
  { apply elem_of_dom. cbn. rewrite lookup_insert_eq. eauto. }
  assert (T2 : trace w2 = trace w ++ globs ++ [EvMkdtemp d]).
  { cbn. rewrite T1, <- app_assoc. reflexivity. }
  assert (S2 : stores w2 = stores w) by exact S1.
  pose proof (respects_for_each (scratch_kept d)
                (process_url d (main_fs host protocol) variable
                   (default no_kwargs kw)) all_urls
                (scratch_process_url d d _ variable _) w2 Hd2)
    as (Hd3 & S3 & days & T3 & F3).
  exists days. split; [exact F3|].
  assert (Hcleanup : forall w',
    trace w' = trace w2 ++ days -> stores w' = stores w2 ->
    stores (scratch_removed d w') = stores w
    /\ new_events w (scratch_removed d w')
       = globs ++ EvMkdtemp d :: days ++ [EvRmtree d]).
  { intros w' T' S'. split; [cbn; congruence|].
    apply new_events_app. cbn. rewrite T', T2, <- !app_assoc. reflexivity. }
  destruct (for_each _ all_urls w2) as [[daily_paths|e] w3];
    cbn [fst snd] in *.
  2:{ destruct (Hcleanup w3 T3 S3). repeat split; assumption. }
  pose proof (open_mfdataset_state daily_paths w3) as Hopen.
  destruct (open_mfdataset daily_paths w3) as [[ds|e] w4];
    cbn [fst snd] in *; subst w4.
  2:{ left. destruct (Hcleanup w3 T3 S3). repeat split; eauto. }
  right. destruct (to_zarr_state ds outpath w3) as (_ & tail & Tz & Htail & Hok).
  exists tail. split; [|split; [exact Htail|exact Hok]].
  apply new_events_app. unfold scratch_removed. cbn [log set_dirs trace].
  rewrite Tz, T3, T2, <- !app_assoc. reflexivity.
Qed.

Lemma cut_at_last {A} (body : list A) x : forall before after,
  x ∉ body -> body ++ [x] = before ++ x :: after ->
  before = body /\ after = [].
Proof.
  induction body as [|y body IH]; intros before after Hx H.
  - destruct before as [|z before]; cbn in H.
    + injection H as <-. split; reflexivity.
    + injection H as _ H. destruct before; discriminate.
  - destruct before as [|z before]; cbn in H.
    + injection H as -> _. exfalso. apply Hx. left.
    + injection H as <- H.
      destruct (IH before after) as [-> ->]; [|exact H|split; reflexivity].
      intros Hin. apply Hx. right. exact Hin.
Qed.

Lemma glob_not_rmtree d globs :
  Forall (fun e => is_glob e = true) globs -> EvRmtree d ∉ globs.
Proof.
  intros F Hin. rewrite Forall_forall in F. specialize (F _ Hin). discriminate.
Qed.

Lemma days_not_rmtree d days :
  Forall (fun e => e <> EvRmtree d /\ is_zarr e = false) days ->
  EvRmtree d ∉ days.
Proof.
  intros F Hin. rewrite Forall_forall in F. destruct (F _ Hin) as [H _].
  apply H. reflexivity.
Qed.

Lemma no_zarr_in_failed_run d globs days :
  Forall (fun e => is_glob e = true) globs ->
  Forall (fun e => e <> EvRmtree d /\ is_zarr e = false) days ->
  Forall (fun ev => is_zarr ev = false)
    (globs ++ EvMkdtemp d :: days ++ [EvRmtree d]).
Proof.
  intros G F. apply Forall_app. split.
  - eapply Forall_impl; [exact G|]. intros [] H; (reflexivity || discriminate).
  - constructor; [reflexivity|]. apply Forall_app. split.
    + eapply Forall_impl; [exact F|]. intros ev [_ H]. exact H.
    + repeat constructor.
Qed.

(** C8: when the processing of a URL fails, after the URLs before it
    succeeded, [main] raises that error, the later URLs are not
    processed, no store is written and [to_zarr] is not called; and
    whenever [to_zarr] is called, the listings and every URL's day have
    succeeded before. *)
Theorem main_no_output_unless_all_days (years : list Z)
    (variable outpath version scale stability : string)
    (host protocol : option string) (kw : option kwargs) (w : world) :
  let fs := main_fs host protocol in
  let kw' := default no_kwargs kw in
  let d := fresh (dom (dirs w)) in
  let run := main years variable outpath version scale stability host protocol kw w in
  let evs := new_events w (snd run) in
  (forall all_urls w1 pre url post paths w3 e w4,
     enumerate_urls years fs variable scale version stability w
     = (Ok all_urls, w1) ->
     all_urls = pre ++ url :: post ->
     for_each (process_url d fs variable kw') pre (scratch_made d w1)
     = (Ok paths, w3) ->
     process_url d fs variable kw' url w3 = (Raise e, w4) ->
     fst run = Raise e /\ stores (snd run) = stores w
     /\ Forall (fun ev => is_zarr ev = false) evs)
  /\ (forall o, EvToZarr o ∈ evs ->
      exists all_urls w1 paths w3,
        enumerate_urls years fs variable scale version stability w
        = (Ok all_urls, w1)
        /\ for_each (process_url d fs variable kw') all_urls (scratch_made d w1)
           = (Ok paths, w3)
        /\ length paths = length all_urls).
Proof.
  cbv zeta.
  destruct (main_stages years variable outpath version scale stability
              host protocol kw w) as (globs & G & H).
  cbv zeta in H. split.
  - intros all_urls w1 pre url post paths w3 e w4 Henum -> Hpre Hurl.
    rewrite Henum in H. destruct H as (days & F & H).
    rewrite (for_each_raise _ pre url post _ paths w3 e w4 Hpre Hurl) in H.
    destruct H as (Hr & Hs & ->).
    repeat split; [exact Hr|exact Hs|].
    apply no_zarr_in_failed_run; assumption.
  - intros o Ho.
    destruct (enumerate_urls _ _ _ _ _ _ w) as [[all_urls|e] w1].
    2:{ destruct H as (_ & E & _). rewrite E in Ho.
        rewrite Forall_forall in G. specialize (G _ Ho). discriminate. }
    destruct H as (days & F & H).
    destruct (for_each _ all_urls _) as [[daily_paths|e] w3] eqn:Hloop.
    + exists all_urls, w1, daily_paths, w3.
      split; [reflexivity|]. split; [exact Hloop|].
      eapply for_each_length, Hloop.
    + destruct H as (_ & _ & E). rewrite E in Ho.
      pose proof (no_zarr_in_failed_run _ globs days G F) as Hz.
      rewrite Forall_forall in Hz. specialize (Hz _ Ho). discriminate.
Qed.

(* ===================================================================== *)
(** ** The URL enumerator and its cache *)
(* ===================================================================== *)

(** A call that is not filed queries the remote store exactly once,
    whatever the answer. *)
Lemma uncached_call_queries year fs variable stability scale version keywords w :
  url_cache w !! call_key year fs variable stability scale version keywords = None ->
  exists pattern,
    new_events w (snd (get_prism_daily_urls year fs variable stability scale
                         version keywords w)) = [EvGlob fs pattern].
Proof.
  intros Hnone. unfold get_prism_daily_urls, cache.
  fold (call_key year fs variable stability scale version keywords). rewrite Hnone.
  unfold get_prism_daily_urls_wrapped, fs_glob.
  eexists. apply new_events_app.
  destruct (remote_glob _ _ _ _); reflexivity.
Qed.

(** What a call leaves in the cache: its listing under its key when it
    returns, nothing new when it raises. *)
Lemma call_files year fs variable stability scale version keywords w :
  let key := call_key year fs variable stability scale version keywords in
  let run := get_prism_daily_urls year fs variable stability scale version
               keywords w in
  match fst run with
  | Ok urls =>
      url_cache (snd run) !! key = Some urls
      /\ url_cache (snd run)
         = match url_cache w !! key with
           | Some _ => url_cache w
           | None => <[key := urls]> (url_cache w)
           end
  | Raise e => url_cache w !! key = None /\ url_cache (snd run) = url_cache w
  end.
Proof.
  cbv zeta. unfold get_prism_daily_urls, cache.
  fold (call_key year fs variable stability scale version keywords).
  destruct (url_cache w !! call_key _ _ _ _ _ _ _) as [v|] eqn:Hkey.
  - cbn. rewrite Hkey. split; reflexivity.
  - unfold get_prism_daily_urls_wrapped, fs_glob.
    destruct (remote_glob _ _ _ _) as [v|e]; cbn.
    + split; [apply lookup_insert_eq|reflexivity].
    + split; reflexivity.
Qed.

(** C7, as the code has it: after a call that returned a listing, a call
    with the same arguments (the five parameters and the remote-store
    handle, passed the same way) returns that listing without a query and
    changes nothing, and the first of the two queried once when its key
    was not filed; a call that raises files nothing, so that the next
    call with the same arguments queries again; and a call whose
    arguments differ, and are not filed either, queries again. *)
Theorem get_prism_daily_urls_memoized (year : year_arg) (fs : filesystem)
    (variable : string) (stability scale version : option string)
    (keywords : list string) (w : world) :
  let call := get_prism_daily_urls year fs variable stability scale version
                keywords in
  let key := call_key year fs variable stability scale version keywords in
  let w1 := snd (call w) in
  match fst (call w) with
  | Ok urls =>
      call w1 = (Ok urls, w1)
      /\ (url_cache w !! key = None -> queries (new_events w w1) = 1%nat)
      /\ (is_Some (url_cache w !! key) -> w1 = w)
  | Raise e =>
      url_cache w !! key = None
      /\ url_cache w1 = url_cache w
      /\ queries (new_events w w1) = 1%nat
      /\ queries (new_events w1 (snd (call w1))) = 1%nat
  end
  /\ (forall year' fs' variable' stability' scale' version' keywords',
        call_key year' fs' variable' stability' scale' version' keywords'
        <> key ->
        url_cache w !! call_key year' fs' variable' stability' scale' version'
                         keywords' = None ->
        exists pattern,
          new_events w1
            (snd (get_prism_daily_urls year' fs' variable' stability' scale'
                    version' keywords' w1)) = [EvGlob fs' pattern]).
Proof.
  cbv zeta.
  pose proof (call_files year fs variable stability scale version keywords w)
    as Hfiles. cbv zeta in Hfiles.
  set (key := call_key year fs variable stability scale version keywords) in *.
  set (w1 := snd (get_prism_daily_urls year fs variable stability scale
                    version keywords w)) in *.
  split.
  - destruct (fst (get_prism_daily_urls year fs variable stability scale
                     version keywords w)) as [urls|e] eqn:Hrun.
    + destruct Hfiles as [Hfiled Hcache]. split; [|split].
      * unfold get_prism_daily_urls at 1, cache.
        fold (call_key year fs variable stability scale version keywords).
        fold key.
        rewrite Hfiled. reflexivity.
      * intros Hnone. unfold w1.
        destruct (uncached_call_queries year fs variable stability scale
                    version keywords w Hnone) as [pattern ->].
        reflexivity.
      * intros [v Hv]. unfold w1, get_prism_daily_urls, cache.
        fold (call_key year fs variable stability scale version keywords).
        fold key.
        rewrite Hv. reflexivity.
    + destruct Hfiles as [Hnone Hcache]. split; [exact Hnone|].
      split; [exact Hcache|]. split.
      * unfold w1.
        destruct (uncached_call_queries year fs variable stability scale
                    version keywords w Hnone) as [pattern ->].
        reflexivity.
      * assert (Hnone1 : url_cache w1 !! key = None)
          by (rewrite Hcache; exact Hnone).
        destruct (uncached_call_queries year fs variable stability scale
                    version keywords w1 Hnone1) as [pattern ->].
        reflexivity.
  - intros year' fs' variable' stability' scale' version' keywords' Hne Hnone.
    apply uncached_call_queries.
    destruct (fst (get_prism_daily_urls year fs variable stability scale
                     version keywords w)) as [urls|e].
    + destruct Hfiles as [_ ->].
      destruct (url_cache w !! key); [exact Hnone|].
      rewrite lookup_insert_ne by congruence. exact Hnone.
    + destruct Hfiles as [_ ->]. exact Hnone.
Qed.

(* ===================================================================== *)
(** ** Sample runs *)
(* ===================================================================== *)

Example healthy_run :
  fst (sample_main healthy) = Ok tt
  /\ stores (snd (sample_main healthy))
       !! "prism-tmean-2020.zarr" = Some [Byte.x11; Byte.x21]
  /\ dirs (snd (sample_main healthy)) = ∅
  /\ new_events (start healthy) (snd (sample_main healthy))
     = [ EvGlob ftp_prism "/daily/tmean/2020/PRISM_tmean_stable_4kmD2_2020*_bil.zip";
         EvMkdtemp 0;
         EvMkdtemp 1; EvGetFile ftp_prism day1_url; EvRmtree 1;
         EvMkdtemp 1; EvGetFile ftp_prism day2_url; EvRmtree 1;
         EvToZarr "prism-tmean-2020.zarr";
         EvZarrDone "prism-tmean-2020.zarr";
         EvRmtree 0 ].
Proof. repeat split; vm_compute; reflexivity. Qed.

Lemma pair_of_parts {A B} (p : A * B) a b : fst p = a -> snd p = b -> p = (a, b).
Proof. destruct p. cbn. congruence. Qed.

Lemma dump_zippedbil_writes_reached_witness :
  reached good_disk [header_c; raster_a; notes_new]
  = [header_c; raster_a; notes_new].
Proof.
  apply (proj1 (proj1 (proj2 (proj2 (dump_zippedbil_writes_reached good_disk
                                [header_c; raster_a; notes_new] 7%nat ∅)))
                  ltac:(repeat constructor))).
  vm_compute. lia.
Defined.

(** Two timeouts, then the archive arrives. *)
Lemma fetch_archive_retry_policy_witness :
  let w := scratch_made 0 (start slow_start) in
  let run := fetch_archive day1_url ftp_prism (joinpath 0 "day1.zip") w in
  let evs := new_events w (snd run) in
  evs = [EvGetFile ftp_prism day1_url; EvSleep 30;
         EvGetFile ftp_prism day1_url; EvSleep 60;
         EvGetFile ftp_prism day1_url]
  /\ attempts evs = 3%nat /\ slept evs = 30 + 60
  /\ fst run = Ok (Some tt).
Proof.
  cbv zeta.
  pose proof (fetch_archive_retry_policy day1_url ftp_prism
                (joinpath 0 "day1.zip") (scratch_made 0 (start slow_start)))
    as H.
  cbv zeta in H.
  assert (Hdir : is_Some (dirs (scratch_made 0 (start slow_start))
                            !! parent (joinpath 0 "day1.zip"))).
  { exists ∅. vm_compute. reflexivity. }
  destruct (H Hdir) as (_ & _ & _ & H4).
  destruct (H4 eq_refl) as (_ & _ & H43).
  destruct (H43 eq_refl) as (Hevs & Hatt & Hslept & Hok & _).
  split; [exact Hevs|]. split; [exact Hatt|]. split; [exact Hslept|].
  apply Hok. reflexivity.
Defined.

(** The four ways out of the scope, each leaving no directory behind: the
    block ends, the archive is malformed, the retries are used up, the
    block raises. *)
Example unpack_scope_exits :
  let gone (run : result Path * world) := dirs (snd run) = ∅ in
  let always_late :=
    sample_outside (fun _ _ _ => Ok []) (fun _ _ _ => Raise TimeoutError) in
  (fst (unpacked_prismzip_bil day1_url ftp_prism (fun p => ret p) (start healthy))
   = Ok (joinpath 0 "PRISM_tmean_stable_4kmD2_20200101_bil.bil")
   /\ gone (unpacked_prismzip_bil day1_url ftp_prism (fun p => ret p) (start healthy)))
  /\ (fst (unpacked_prismzip_bil bad_url ftp_prism (fun p => ret p) (start healthy))
      = Raise (ZipBilFileError NoBil)
      /\ gone (unpacked_prismzip_bil bad_url ftp_prism (fun p => ret p) (start healthy)))
  /\ (fst (unpacked_prismzip_bil day1_url ftp_prism (fun p => ret p) (start always_late))
      = Raise TimeoutError
      /\ gone (unpacked_prismzip_bil day1_url ftp_prism (fun p => ret p) (start always_late)))
  /\ (fst (unpacked_prismzip_bil day1_url ftp_prism
              (fun _ => @raise world Path KeyError) (start healthy))
      = Raise KeyError
      /\ gone (unpacked_prismzip_bil day1_url ftp_prism
                 (fun _ => @raise world Path KeyError) (start healthy))).
Proof. cbv zeta. repeat split; vm_compute; reflexivity. Qed.

(** The second of three archives is malformed: the run stops there. *)
Lemma main_no_output_unless_all_days_witness :
  fst (sample_main one_bad_day) = Raise (ZipBilFileError NoBil)
  /\ stores (snd (sample_main one_bad_day)) = stores (start one_bad_day)
  /\ Forall (fun ev => is_zarr ev = false)
       (new_events (start one_bad_day) (snd (sample_main one_bad_day))).
Proof.
  pose proof (proj1 (main_no_output_unless_all_days [2020] "tmean"
                       "prism-tmean-2020.zarr" "D2" "4km" "stable"
                       None None None (start one_bad_day))) as H.
  cbv zeta in H.
  eapply (H _ _ [day1_url] bad_url [day2_url]).
  - apply pair_of_parts; [vm_compute; reflexivity|reflexivity].
  - reflexivity.
  - apply pair_of_parts; [vm_compute; reflexivity|reflexivity].
  - apply pair_of_parts; [vm_compute; reflexivity|reflexivity].
Defined.

(** Two calls with the same arguments on a remote store that works. *)
Lemma get_prism_daily_urls_memoized_witness :
  let call := get_prism_daily_urls (YInt 2020) ftp_prism "tmean"
                (Some "stable") (Some "4km") (Some "D2") main_keywords in
  (call (snd (call (start healthy)))
   = (Ok [day1_url; day2_url], snd (call (start healthy)))
   /\ queries (new_events (start healthy) (snd (call (start healthy)))) = 1%nat)
  /\ (fst (call (start listing_fails_once)) = Raise (OtherError "ConnectionError")
      /\ queries (new_events (snd (call (start listing_fails_once)))
                    (snd (call (snd (call (start listing_fails_once))))))
         = 1%nat).
Proof.
  cbv zeta. split.
  - pose proof (get_prism_daily_urls_memoized (YInt 2020) ftp_prism "tmean"
                  (Some "stable") (Some "4km") (Some "D2") main_keywords
                  (start healthy)) as [H _].
    cbv zeta in H.
    change (fst (get_prism_daily_urls (YInt 2020) ftp_prism "tmean"
                   (Some "stable") (Some "4km") (Some "D2") main_keywords
                   (start healthy)))
      with (@Ok (list string) [day1_url; day2_url]) in H.
    destruct H as (H1 & H2 & _). split; [exact H1|]. apply H2. reflexivity.
  - pose proof (get_prism_daily_urls_memoized (YInt 2020) ftp_prism "tmean"
                  (Some "stable") (Some "4km") (Some "D2") main_keywords
                  (start listing_fails_once)) as [H _].
    cbv zeta in H.
    change (fst (get_prism_daily_urls (YInt 2020) ftp_prism "tmean"
                   (Some "stable") (Some "4km") (Some "D2") main_keywords
                   (start listing_fails_once)))
      with (@Raise (list string) (OtherError "ConnectionError")) in H.
    destruct H as (_ & _ & _ & H4). split; [reflexivity|exact H4].
Defined.

(** C7 fails as stated.  Two calls with identical year, variable,
    stability, scale and version, and the same handle: the first listing
    fails, nothing is filed, and the second call queries again.  The same
    five parameters with two handles, or with the defaults left out in
    one call and given in the other, or with the keywords written in
    another order, are two keys and two queries too. *)
Lemma identical_parameters_queried_twice :
  (let call := get_prism_daily_urls (YInt 2020) ftp_prism "tmean"
                 (Some "stable") (Some "4km") (Some "D2") main_keywords in
   let w := start listing_fails_once in
   fst (call w) = Raise (OtherError "ConnectionError")
   /\ fst (call (snd (call w))) = Ok [day1_url; day2_url]
   /\ queries (new_events w (snd (call (snd (call w))))) = 2%nat)
  /\ (let call fs := get_prism_daily_urls (YInt 2020) fs "tmean"
                       (Some "stable") (Some "4km") (Some "D2")
                       main_keywords in
      let w := start healthy in
      queries (new_events w (snd (call ftp_mirror (snd (call ftp_prism w)))))
      = 2%nat)
  /\ (let w := start healthy in
      queries (new_events w
                 (snd (get_prism_daily_urls (YInt 2020) ftp_prism "tmean"
                         (Some "stable") (Some "4km") (Some "D2")
                         main_keywords
                         (snd (get_prism_daily_urls (YInt 2020) ftp_prism
                                 "tmean" None None None ["fs"; "variable"]
                                 w)))))
      = 2%nat)
  /\ (let call keywords := get_prism_daily_urls (YInt 2020) ftp_prism "tmean"
                             (Some "stable") (Some "4km") (Some "D2")
                             keywords in
      let w := start healthy in
      queries (new_events w
                 (snd (call ["fs"; "variable"; "stability"; "scale"; "version"]
                         (snd (call main_keywords w)))))
      = 2%nat).
Proof. cbv zeta. repeat split; vm_compute; reflexivity. Qed.

(* ===================================================================== *)
(** ** More on the extraction *)
(* ===================================================================== *)

Lemma split_fields_lack sep s : forall x, In x (split sep s) -> lacks sep x.
Proof.
  induction s as [|c r IH]; simpl; intros x Hx.
  - destruct Hx as [<-|[]]. exact I.
  - destruct (Ascii.eqb c sep) eqn:E.
    + destruct Hx as [<-|Hx]; [exact I|apply IH, Hx].
    + pose proof (split_nonnil sep r) as Hne.
      destruct (split sep r) as [|f fs]; [contradiction|].
      destruct Hx as [<-|Hx].
      * split; [apply Ascii.eqb_neq, E|apply IH; left; reflexivity].
      * apply IH. right. exact Hx.
Qed.

Lemma last_in {A} (l : list A) dflt : l <> [] -> In (List.last l dflt) l.
Proof.
  induction l as [|x l IH]; [contradiction|]. intros _.
  destruct l as [|y l]; [left; reflexivity|].
  right. apply IH. discriminate.
Qed.

(** A name is its own name: [Path(Path(p).name).name == Path(p).name]. *)
Lemma name_idempotent p : PurePath.name (PurePath.name p) = PurePath.name p.
Proof.
  unfold PurePath.name at 2 3.
  destruct (PurePath.parts p) as [|x l] eqn:E; [reflexivity|].
  assert (Hin : In (List.last (x :: l) "") (PurePath.parts p)).
  { rewrite E. apply last_in. discriminate. }
  set (n := List.last (x :: l) "") in *.
  unfold PurePath.parts in Hin.
  apply list_elem_of_In, list_elem_of_filter in Hin as [[Hne Hdot] Hin].
  apply list_elem_of_In, split_fields_lack in Hin.
  unfold PurePath.name, PurePath.parts.
  rewrite (split_lacks "/" n Hin), filter_cons, filter_nil.
  rewrite decide_True by (split; assumption). reflexivity.
Qed.

Lemma suffix_of_name p : PurePath.suffix (PurePath.name p) = PurePath.suffix p.
Proof. unfold PurePath.suffix. rewrite name_idempotent. reflexivity. Qed.

Lemma stem_of_name p : PurePath.stem (PurePath.name p) = PurePath.stem p.
Proof. unfold PurePath.stem. rewrite name_idempotent. reflexivity. Qed.

Lemma dom_extracts_bounds os ofs : forall d,
  dom d ⊆ dom (foldl (extract os) d ofs)
  /\ dom (foldl (extract os) d ofs)
     ⊆ dom d ∪ list_to_set (stored_name <$> ofs).
Proof.
  induction ofs as [|fl rest IH]; intros d; simpl.
  - set_solver.
  - destruct (IH (extract os d fl)) as [Hlow Hup]. unfold extract in *.
    destruct (member_left os fl) as [b|].
    + rewrite dom_insert in Hlow, Hup. set_solver.
    + set_solver.
Qed.

Lemma dom_extracts os ofs : forall d,
  Forall (fun fl => is_Some (member_left os fl)) ofs ->
  dom (foldl (extract os) d ofs) = dom d ∪ list_to_set (stored_name <$> ofs).
Proof.
  induction ofs as [|fl rest IH]; intros d Hall; simpl.
  - set_solver.
  - apply Forall_cons in Hall as [[b Hb] Hall]. rewrite (IH _ Hall).
    unfold extract. rewrite Hb, dom_insert_L. set_solver.
Qed.

(** Every member written leaves a file. *)
Lemma writes_leave_files os ofs :
  writes_ok os ofs -> Forall (fun fl => is_Some (member_left os fl)) ofs.
Proof.
  unfold writes_ok. intros H. eapply Forall_impl; [exact H|]. intros fl Hw.
  destruct (written_data os fl Hw) as (data & _ & -> & _). eauto.
Qed.

(** X1: the path [_dump_zippedbil] returns lies in [dumpdir], its name
    has the extension [.bil] and is not empty, and the file it names
    exists when the function returns. *)
Theorem dump_zippedbil_returns_bil_file (os : disk) (ofs : list OpenFile)
    (dumpdir : nat) (d : gmap string bytes) (p : Path) :
  fst (_dump_zippedbil os ofs dumpdir d) = Ok p ->
  parent p = dumpdir
  /\ PurePath.suffix (fname p) = ".bil"
  /\ nonempty (fname p) = true
  /\ is_Some (snd (_dump_zippedbil os ofs dumpdir d) !! fname p).
Proof.
  intros Hok.
  destruct (dump_returns os ofs dumpdir d p Hok) as (Hw & Hall & fl & Hf & ->).
  cbn [parent fname joinpath].
  assert (Hin : fl ∈ filter (fun x => is_bil x = true) ofs) by (rewrite Hf; left).
  apply list_elem_of_filter in Hin as [Hb Hin].
  assert (Hsuf : PurePath.suffix (stored_name fl) = ".bil").
  { unfold stored_name. rewrite suffix_of_name.
    apply String.eqb_eq. exact Hb. }
  assert (Hwfl : written os fl = true).
  { unfold writes_ok in Hw. rewrite Forall_forall in Hw. apply Hw, Hin. }
  destruct (written_data os fl Hwfl) as (data & _ & Hleft & _).
  repeat split.
  - exact Hsuf.
  - destruct (stored_name fl) eqn:E; [|reflexivity].
    vm_compute in Hsuf. discriminate.
  - rewrite dump_state, Hall, (unique_bil_stored os ofs fl d Hf Hwfl), Hleft.
    eauto.
Qed.

Lemma dump_zippedbil_returns_bil_file_witness :
  parent (joinpath 7 "a.bil") = 7%nat
  /\ PurePath.suffix (fname (joinpath 7 "a.bil")) = ".bil"
  /\ nonempty (fname (joinpath 7 "a.bil")) = true
  /\ is_Some (snd (_dump_zippedbil good_disk
                     [header_c; raster_a; notes_new] 7%nat ∅)
                !! fname (joinpath 7 "a.bil")).
Proof.
  apply (dump_zippedbil_returns_bil_file good_disk
           [header_c; raster_a; notes_new] 7%nat ∅ (joinpath 7 "a.bil")).
  vm_compute. reflexivity.
Defined.

(** X2: [_dump_zippedbil] creates or replaces files named after the
    members it gets to and nothing else: no file is removed, every new
    name is the name of a member it got to, and every file not named
    after a member keeps its content.  When every write it gets to goes
    through, the names afterwards are exactly those that were there and
    the names of the members it got to; when it returns, those of all
    members. *)
Theorem dump_zippedbil_touches_member_names_only (os : disk)
    (ofs : list OpenFile) (dumpdir : nat) (d : gmap string bytes) :
  dom d ⊆ dom (snd (_dump_zippedbil os ofs dumpdir d))
  /\ dom (snd (_dump_zippedbil os ofs dumpdir d))
     ⊆ dom d ∪ list_to_set (stored_name <$> reached os ofs)
  /\ (writes_ok os (reached os ofs) ->
      dom (snd (_dump_zippedbil os ofs dumpdir d))
      = dom d ∪ list_to_set (stored_name <$> reached os ofs))
  /\ ((exists p, fst (_dump_zippedbil os ofs dumpdir d) = Ok p) ->
      dom (snd (_dump_zippedbil os ofs dumpdir d))
      = dom d ∪ list_to_set (stored_name <$> ofs))
  /\ forall nm, nm ∉ stored_name <$> ofs ->
       snd (_dump_zippedbil os ofs dumpdir d) !! nm = d !! nm.
Proof.
  rewrite dump_state.
  destruct (dom_extracts_bounds os (reached os ofs) d) as [Hlow Hup].
  split; [exact Hlow|]. split; [exact Hup|]. split; [|split].
  - intros Hw. apply dom_extracts, writes_leave_files, Hw.
  - intros [p Hok].
    destruct (dump_returns os ofs dumpdir d p Hok) as (Hw & Hall & _).
    rewrite Hall. apply dom_extracts, writes_leave_files, Hw.
  - intros nm Hnm. rewrite lookup_extracts. unfold last_stored.
    destruct (last (filter (fun fl => stored_name fl = nm
                                      /\ is_Some (member_left os fl))
                      (reached os ofs)))
      as [fl|] eqn:E; [|reflexivity].
    exfalso. apply Hnm. apply last_Some_elem_of in E.
    apply list_elem_of_filter in E as [[<- _] Hin].
    apply list_elem_of_fmap. exists fl. split; [reflexivity|].
    destruct (reached_prefix os ofs false) as [k Hk].
    fold (reached os ofs) in Hk.
    rewrite Hk. apply elem_of_app. left. exact Hin.
Qed.

(* ===================================================================== *)
(** ** More on the date in a file name *)
(* ===================================================================== *)

Lemma split_single sep s : length (split sep s) = 1%nat -> lacks sep s.
Proof.
  induction s as [|c r IH]; simpl; [intros _; exact I|].
  pose proof (split_nonnil sep r) as Hne.
  destruct (Ascii.eqb c sep) eqn:E.
  - destruct (split sep r); [contradiction|discriminate].
  - destruct (split sep r) as [|f fs] eqn:Er; [contradiction|].
    intros H. split; [apply Ascii.eqb_neq, E|apply IH, H].
Qed.

Lemma second_to_last_error {A} (l : list A) :
  l <> [] -> (second_to_last l = Raise IndexError <-> length l = 1%nat).
Proof.
  intros Hne. unfold second_to_last.
  rewrite <- (length_rev l).
  destruct (rev l) as [|x [|y r]] eqn:E.
  - apply (f_equal (@rev A)) in E. rewrite rev_involutive in E. contradiction.
  - split; reflexivity.
  - split; [discriminate|]. simpl. lia.
Qed.

Lemma strptime_raises_ValueError tok e :
  strptime_Ymd tok = Raise e -> e = ValueError.
Proof.
  unfold strptime_Ymd.
  destruct (match_Ymd tok) as [[[[y m] d] rest]|]; [|congruence].
  destruct (nonempty rest); [congruence|].
  destruct (valid_date y m d); congruence.
Qed.

(** X3: [_datetime_from_prism_flname] raises [IndexError] exactly when
    the stem of the file name has no underscore, so that there is no
    second-to-last token; every other failure is a [ValueError]. *)
Theorem datetime_from_prism_flname_errors (p : string) :
  (_datetime_from_prism_flname p = Raise IndexError
     <-> lacks "_" (PurePath.stem p))
  /\ forall e, _datetime_from_prism_flname p = Raise e ->
       e = IndexError \/ e = ValueError.
Proof.
  unfold _datetime_from_prism_flname.
  pose proof (split_nonnil "_" (PurePath.stem p)) as Hne.
  pose proof (second_to_last_error _ Hne) as Hiff.
  destruct (second_to_last (split "_" (PurePath.stem p))) as [tok|e0] eqn:E.
  - split.
    + split.
      * intros H. apply strptime_raises_ValueError in H. discriminate.
      * intros Hl. rewrite (split_lacks _ _ Hl) in E. discriminate.
    + intros e H. right. eapply strptime_raises_ValueError, H.
  - assert (He0 : e0 = IndexError).
    { revert E. unfold second_to_last.
      destruct (rev _) as [|x [|y r]]; congruence. }
    subst e0. split.
    + split; [|reflexivity]. intros _. apply split_single, Hiff. reflexivity.
    + intros e [= <-]. left. reflexivity.
Qed.

(** X4: the date depends on the final component of the path only: the
    directories in front of the file name play no part. *)
Theorem datetime_from_prism_flname_of_name (p : string) :
  _datetime_from_prism_flname p
  = _datetime_from_prism_flname (PurePath.name p).
Proof.
  unfold _datetime_from_prism_flname. rewrite stem_of_name. reflexivity.
Qed.

Lemma first_match_some {A} alts : forall (k : Z -> string -> option A) s x,
  first_match alts k s = Some x ->
  exists a v r, In a alts /\ a s = Some (v, r) /\ k v r = Some x.
Proof.
  induction alts as [|a alts IH]; intros k s x H; simpl in H; [discriminate|].
  destruct (a s) as [[v r]|] eqn:Ea.
  - destruct (k v r) as [y|] eqn:Ek.
    + injection H as <-. exists a, v, r. repeat split; [left; reflexivity|..]; assumption.
    + destruct (IH k s x H) as (a' & v' & r' & Hin & H1 & H2).
      exists a', v', r'. repeat split; [right|..]; assumption.
  - destruct (IH k s x H) as (a' & v' & r' & Hin & H1 & H2).
    exists a', v', r'. repeat split; [right|..]; assumption.
Qed.

Lemma two_takes p1 p2 : takes_one_or_two (two p1 p2).
Proof.
  intros [|a [|b s]] v r H; simpl in H; try discriminate.
  destruct (p1 a && p2 b); [|discriminate]. injection H as _ <-.
  right. reflexivity.
Qed.

Lemma one_takes p : takes_one_or_two (one p).
Proof.
  intros [|a s] v r H; simpl in H; try discriminate.
  destruct (p a); [|discriminate]. injection H as _ <-. left. reflexivity.
Qed.

Lemma space_one_takes p : takes_one_or_two (space_one p).
Proof.
  intros [|a [|b s]] v r H; simpl in H; try discriminate.
  destruct (Ascii.eqb a " " && p b); [|discriminate]. injection H as _ <-.
  right. reflexivity.
Qed.

Lemma re_m_takes a : In a re_m -> takes_one_or_two a.
Proof.
  intros [<-|[<-|[<-|[]]]]; auto using two_takes, one_takes.
Qed.

Lemma re_d_takes a : In a re_d -> takes_one_or_two a.
Proof.
  intros [<-|[<-|[<-|[<-|[<-|[]]]]]];
    auto using two_takes, one_takes, space_one_takes.
Qed.

(** A text that [strptime] accepts: four digits for the year first, six
    to eight characters in all, and a calendar date. *)
Lemma strptime_accepts tok dt :
  strptime_Ymd tok = Ok dt ->
  valid_date (year dt) (month dt) (day dt) = true
  /\ (6 <= String.length tok <= 8)%nat
  /\ exists a b c d rest,
       tok = String a (String b (String c (String d rest)))
       /\ Forall (fun x => is_digit x = true) [a; b; c; d]
       /\ year dt = 1000 * digit_val a + 100 * digit_val b
                    + 10 * digit_val c + digit_val d.
Proof.
  unfold strptime_Ymd, match_Ymd. intros H.
  destruct (re_Y tok) as [[y r]|] eqn:EY; [|discriminate].
  destruct (first_match re_m _ r) as [[[[y' m] d] rest]|] eqn:EM; [|discriminate].
  destruct rest; [|discriminate]. simpl in H.
  destruct (valid_date y' m d) eqn:EV; [|discriminate].
  injection H as <-. cbn [year month day].
  apply first_match_some in EM as (am & vm & r1 & Ham & Hm & EM).
  apply first_match_some in EM as (ad & vd & r2 & Had & Hd & EM).
  injection EM as Ey Em Ed Er. subst y' m d r2.
  apply re_m_takes in Ham. apply re_d_takes in Had.
  specialize (Ham _ _ _ Hm). specialize (Had _ _ _ Hd).
  unfold re_Y in EY.
  destruct tok as [|a [|b [|c [|d0 rest]]]]; try discriminate.
  destruct (is_digit a) eqn:Da; [|discriminate].
  destruct (is_digit b) eqn:Db; [|discriminate].
  destruct (is_digit c) eqn:Dc; [|discriminate].
  destruct (is_digit d0) eqn:Dd; [|discriminate].
  simpl in EY. injection EY as <- <-.
  split; [exact EV|]. split.
  - simpl in *. lia.
  - exists a, b, c, d0, rest. repeat split; try reflexivity.
    repeat constructor; assumption.
Qed.

(** X5: a date that [_datetime_from_prism_flname] returns is a calendar
    date with a year from 1 to 9999, read from a token of six to eight
    characters that begins with the four digits of the year. *)
Theorem datetime_from_prism_flname_accepts (p : string) (dt : datetime) :
  _datetime_from_prism_flname p = Ok dt ->
  valid_date (year dt) (month dt) (day dt) = true
  /\ exists tok,
       second_to_last (split "_" (PurePath.stem p)) = Ok tok
       /\ (6 <= String.length tok <= 8)%nat
       /\ exists a b c d rest,
            tok = String a (String b (String c (String d rest)))
            /\ Forall (fun x => is_digit x = true) [a; b; c; d]
            /\ year dt = 1000 * digit_val a + 100 * digit_val b
                         + 10 * digit_val c + digit_val d.
Proof.
  unfold _datetime_from_prism_flname.
  destruct (second_to_last (split "_" (PurePath.stem p))) as [tok|e];
    [|discriminate].
  intros H. apply strptime_accepts in H as (Hv & Hlen & Hdigits).
  split; [exact Hv|]. exists tok. repeat split; try assumption; lia.
Qed.

Lemma datetime_from_prism_flname_accepts_witness :
  valid_date 2020 1 1 = true
  /\ exists tok,
       second_to_last (split "_" (PurePath.stem day1_url)) = Ok tok
       /\ (6 <= String.length tok <= 8)%nat
       /\ exists a b c d rest,
            tok = String a (String b (String c (String d rest)))
            /\ Forall (fun x => is_digit x = true) [a; b; c; d]
            /\ 2020 = 1000 * digit_val a + 100 * digit_val b
                      + 10 * digit_val c + digit_val d.
Proof.
  apply (datetime_from_prism_flname_accepts day1_url
           {| year := 2020; month := 1; day := 1 |}).
  reflexivity.
Defined.

(* ===================================================================== *)
(** ** More on the unpack scope *)
(* ===================================================================== *)

Lemma unpacked_as_prelude {A} url fs (body : Path -> M world A) w :
  unpacked_prismzip_bil url fs body w
  = TemporaryDirectory
      (fun tmpdir => p <- unpack_prelude url fs tmpdir ;; body p) w.
Proof.
  unfold unpacked_prismzip_bil, TemporaryDirectory, unpack_prelude, bind.
  set (w1 := log _ _).
  destruct (fetch_archive _ _ _ w1) as [[?|?] w2]; [|reflexivity].
  destruct (open_zip_files _ w2) as [[zs|?] w3]; [|reflexivity].
  unfold with_disk.
  destruct (in_dir _ (_dump_zippedbil _ zs _) w3) as [[p|?] w4]; reflexivity.
Qed.

(** The three attempts of the fetch, one after the other. *)
Lemma fetch_archive_unroll url fs p w :
  fetch_archive url fs p w
  = match fs_get_file fs url p w with
    | (Ok _, w1) => (Ok (Some tt), w1)
    | (Raise e1, w1) =>
        if is_TimeoutError e1 then
          match fs_get_file fs url p (log (EvSleep 30) w1) with
          | (Ok _, w2) => (Ok (Some tt), w2)
          | (Raise e2, w2) =>
              if is_TimeoutError e2 then
                match fs_get_file fs url p (log (EvSleep 60) w2) with
                | (Ok _, w3) => (Ok (Some tt), w3)
                | (Raise e3, w3) => (Raise e3, w3)
                end
              else (Raise e2, w2)
          end
        else (Raise e1, w1)
    end.
Proof.
  unfold fetch_archive. cbn [retry_call]. unfold bind.
  destruct (fs_get_file fs url p w) as [[[]|e1] w1]; [reflexivity|].
  destruct (is_TimeoutError e1); [|reflexivity].
  rewrite sleep_run.
  destruct (fs_get_file fs url p (log (EvSleep 30) w1)) as [[[]|e2] w2];
    [reflexivity|].
  destruct (is_TimeoutError e2); [|reflexivity].
  rewrite sleep_run. change (30 * 2) with 60.
  destruct (fs_get_file fs url p (log (EvSleep 60) w2)) as [[[]|e3] w3];
    [reflexivity|].
  destruct (is_TimeoutError e3); reflexivity.
Qed.

(** The path the prelude returns is in the directory it extracted to. *)
Lemma unpack_prelude_parent url fs t w p w' :
  unpack_prelude url fs t w = (Ok p, w') -> parent p = t.
Proof.
  unfold unpack_prelude, bind.
  destruct (fetch_archive _ _ _ w) as [[?|?] w2]; [|discriminate].
  destruct (open_zip_files _ w2) as [[zs|?] w3]; [|discriminate].
  unfold with_disk, in_dir. destruct (dirs w3 !! t) as [c|]; [|discriminate].
  destruct (_dump_zippedbil (local_disk (outside w3)) zs t c) as [r c'] eqn:Hd.
  intros [= -> _].
  destruct (dump_returns (local_disk (outside w3)) zs t c p)
    as (_ & _ & fl & _ & ->); [rewrite Hd|]; reflexivity.
Qed.

(** The prelude when the first attempt brings the archive and the
    archive opens: the archive file and then the members are written to
    the directory, and the answer is that of the extraction. *)
Lemma unpack_prelude_run url fs t w c0 data ofs :
  dirs w !! t = Some c0 ->
  remote_get_file (outside w) fs url (served w) = Ok data ->
  zip_members (outside w) data = Ok ofs ->
  exists w',
    unpack_prelude url fs t w
    = (fst (_dump_zippedbil (local_disk (outside w)) ofs t
              (<[PurePath.name url := data]> c0)), w')
    /\ dirs w'
       = <[t := snd (_dump_zippedbil (local_disk (outside w)) ofs t
                      (<[PurePath.name url := data]> c0))]>
           (dirs w)
    /\ trace w' = trace w ++ [EvGetFile fs url]
    /\ stores w' = stores w.
Proof.
  intros Hdir Hget Hzip.
  unfold unpack_prelude. unfold bind at 1. rewrite fetch_archive_unroll.
  unfold fs_get_file. rewrite Hget.
  unfold write_file, in_dir at 1, dir_write.
  cbn [joinpath parent fname log tick dirs]. rewrite Hdir.
  unfold bind at 1. unfold open_zip_files, bind at 1, read_file.
  cbn [joinpath parent fname set_dirs log tick dirs].
  rewrite lookup_insert_eq, lookup_insert_eq.
  unfold ask. cbn [outside set_dirs log tick]. rewrite Hzip.
  unfold with_disk, in_dir. cbn [set_dirs log tick dirs outside].
  rewrite lookup_insert_eq.
  destruct (_dump_zippedbil _ ofs t _) as [r c'].
  eexists. split; [reflexivity|].
  cbn [fst snd set_dirs log tick dirs trace stores].
  rewrite insert_insert_eq. repeat split.
Qed.

Lemma fresh_dir_absent w : dirs w !! fresh (dom (dirs w)) = None.
Proof. apply not_elem_of_dom, is_fresh. Qed.

Lemma scratch_removed_restores t c w :
  dirs w !! t = None -> delete t (<[t := c]> (dirs w)) = dirs w.
Proof. intros H. rewrite delete_insert_eq. apply delete_id, H. Qed.



(** X7: when the first attempt brings the archive and the files the
    archive yields do not include exactly one [.bil] file, or one of
    them cannot be written, the scope raises whatever the guarded block
    is: the block does not run, and the directories are afterwards as
    they were before.  The error is [ZipBilFileError] when every write
    the extraction gets to goes through, and the error of a member's
    write otherwise. *)
Theorem unpack_scope_malformed (url : string) (fs : filesystem) (w : world)
    (data : bytes) (ofs : list OpenFile) :
  remote_get_file (outside w) fs url (served w) = Ok data ->
  zip_members (outside w) data = Ok ofs ->
  count_bil ofs <> 1%nat \/ ~ writes_ok (local_disk (outside w)) ofs ->
  let t := fresh (dom (dirs w)) in
  let os := local_disk (outside w) in
  exists e wf,
    dirs wf = dirs w
    /\ last (trace wf) = Some (EvRmtree t)
    /\ trace wf = trace w ++ [EvMkdtemp t; EvGetFile fs url; EvRmtree t]
    /\ (forall A (body : Path -> M world A),
          unpacked_prismzip_bil url fs body w = (Raise e, wf))
    /\ (writes_ok os (reached os ofs) -> exists why, e = ZipBilFileError why)
    /\ (~ writes_ok os (reached os ofs) ->
        exists fl, fl ∈ ofs
                   /\ fst (member_write os (stored_name fl) fl) = Raise e).
Proof.
  intros Hget Hzip Hone. cbv zeta.
  set (t := fresh (dom (dirs w))). set (os := local_disk (outside w)).
  set (w1 := log (EvMkdtemp t) (set_dirs (<[t := ∅]>) w)).
  assert (Hdir1 : dirs w1 !! t = Some ∅) by apply lookup_insert_eq.
  destruct (unpack_prelude_run url fs t w1 ∅ data ofs Hdir1 Hget Hzip)
    as (wb & Hrun & Hdirs & Htrace & _).
  change (local_disk (outside w1)) with os in Hrun, Hdirs.
  destruct (fst (_dump_zippedbil os ofs t (<[PurePath.name url := data]> ∅)))
    as [p|e] eqn:Hres.
  { exfalso.
    destruct (dump_returns os ofs t _ p Hres) as (Hw & _ & fl & Hf & _).
    destruct Hone as [Hone|Hone]; [|exact (Hone Hw)].
    apply Hone. unfold count_bil. rewrite Hf. reflexivity. }
  exists e, (scratch_removed t wb).
  assert (Htr : trace (scratch_removed t wb)
                = trace w ++ [EvMkdtemp t; EvGetFile fs url; EvRmtree t]).
  { unfold scratch_removed. cbn [log set_dirs trace]. rewrite Htrace.
    cbn [w1 log set_dirs trace]. rewrite <- !app_assoc. reflexivity. }
  split; [|split; [|split; [|split; [|split]]]].
  - unfold scratch_removed. cbn [log set_dirs dirs]. rewrite Hdirs.
    cbn [w1 log set_dirs dirs]. rewrite insert_insert_eq.
    apply scratch_removed_restores, fresh_dir_absent.
  - rewrite Htr.
    change (trace w ++ [EvMkdtemp t; EvGetFile fs url; EvRmtree t])
      with (trace w ++ [EvMkdtemp t; EvGetFile fs url] ++ [EvRmtree t]).
    rewrite app_assoc. apply last_snoc.
  - exact Htr.
  - intros A body. rewrite unpacked_as_prelude.
    unfold TemporaryDirectory. fold t. fold w1. unfold bind. rewrite Hrun.
    reflexivity.
  - intros Hw. destruct (dump_error os ofs t _ e Hres) as [[_ H]|[Hbad _]];
      [exact H|contradiction].
  - intros Hbad. destruct (dump_error os ofs t _ e Hres) as [[Hw _]|[_ H]];
      [contradiction|exact H].
Qed.

Lemma unpack_scope_malformed_witness :
  exists wf,
    dirs wf = dirs (start one_bad_day)
    /\ forall A (body : Path -> M world A),
         unpacked_prismzip_bil bad_url ftp_prism body (start one_bad_day)
         = (Raise (ZipBilFileError NoBil), wf).
Proof.
  destruct (unpack_scope_malformed bad_url ftp_prism (start one_bad_day)
              (sample_archive bad_url)
              [ {| fl_name := "PRISM_tmean_stable_4kmD2_20200103_bil.hdr";
                   fl_read := Ok [Byte.x32] |} ])
    as (e & wf & Hdirs & _ & _ & Hscope & _);
    [vm_compute; reflexivity|vm_compute; reflexivity|left; vm_compute; lia|].
  exists wf. split; [exact Hdirs|].
  intros A body. rewrite (Hscope A body).
  specialize (Hscope unit (fun _ => ret tt)).
  apply (f_equal fst) in Hscope. cbn [fst] in Hscope.
  vm_compute in Hscope. injection Hscope as <-. reflexivity.
Defined.

#[local] Instance elsewhere_kept_preorder X : PreOrder (elsewhere_kept X).
Proof.
  split.
  - intros w k _. reflexivity.
  - intros a b c Hab Hbc k Hk. rewrite (Hbc k Hk). apply Hab, Hk.
Qed.

Lemma kept_weaken (X Y : gset nat) a b :
  X ⊆ Y -> elsewhere_kept X a b -> elsewhere_kept Y a b.
Proof. intros Hsub H k Hk. apply H. intros Hin. apply Hk, Hsub, Hin. Qed.

Lemma kept_same_dirs X a b : dirs b = dirs a -> elsewhere_kept X a b.
Proof. intros H k _. rewrite H. reflexivity. Qed.

Lemma kept_nothing a b : elsewhere_kept ∅ a b -> dirs b = dirs a.
Proof. intros H. apply map_eq. intros k. apply H. apply not_elem_of_empty. Qed.

Section Elsewhere.
Variable X : gset nat.

Lemma kept_sleep s : respects (elsewhere_kept X) (sleep s).
Proof. intros w. apply kept_same_dirs. reflexivity. Qed.

Lemma kept_in_dir {A} t (m : M (gmap string bytes) A) :
  t ∈ X -> respects (elsewhere_kept X) (in_dir t m).
Proof.
  intros Ht w. unfold in_dir.
  destruct (dirs w !! t) as [c|]; [|reflexivity].
  destruct (m c) as [r c']. intros k Hk. cbn.
  apply lookup_insert_ne. intros ->. contradiction.
Qed.

Lemma kept_fs_get_file fs url p :
  parent p ∈ X -> respects (elsewhere_kept X) (fs_get_file fs url p).
Proof.
  intros Hp w. unfold fs_get_file.
  destruct (remote_get_file (outside w) fs url (served w)).
  - transitivity (log (EvGetFile fs url) (tick w)).
    + apply kept_same_dirs. reflexivity.
    + apply (kept_in_dir _ _ Hp).
  - apply kept_same_dirs. reflexivity.
Qed.

Lemma kept_fetch_archive url fs p :
  parent p ∈ X -> respects (elsewhere_kept X) (fetch_archive url fs p).
Proof.
  intros Hp. apply respects_retry_call; [apply _| |apply kept_sleep].
  apply kept_fs_get_file, Hp.
Qed.

Lemma kept_open_rasterio p : respects (elsewhere_kept X) (open_rasterio p).
Proof.
  intros w. unfold open_rasterio. destruct (dirs w !! parent p); reflexivity.
Qed.

Lemma kept_unpack_prelude url fs t :
  t ∈ X -> respects (elsewhere_kept X) (unpack_prelude url fs t).
Proof.
  intros Ht. unfold unpack_prelude.
  apply respects_bind; [apply _|apply kept_fetch_archive, Ht|]. intros _.
  apply respects_bind;
    [apply _| |intros zs; apply respects_with_disk; intros os;
               apply kept_in_dir, Ht].
  apply respects_bind; [apply _|apply respects_read_file; apply _|].
  intros data. apply respects_ask; apply _.
Qed.

Lemma kept_fs_glob fs pattern : respects (elsewhere_kept X) (fs_glob fs pattern).
Proof. intros w. apply kept_same_dirs. reflexivity. Qed.

Lemma kept_cache key f :
  respects (elsewhere_kept X) f -> respects (elsewhere_kept X) (cache key f).
Proof.
  intros Hf w. unfold cache.
  destruct (url_cache w !! key); [reflexivity|].
  specialize (Hf w). destruct (f w) as [[v|e] w1]; exact Hf.
Qed.

Lemma kept_to_zarr ds outpath : respects (elsewhere_kept X) (to_zarr ds outpath).
Proof.
  intros w. apply kept_same_dirs. apply (to_zarr_state ds outpath w).
Qed.

Lemma kept_open_mfdataset paths :
  respects (elsewhere_kept X) (open_mfdataset paths).
Proof. intros w. rewrite open_mfdataset_state. reflexivity. Qed.
End Elsewhere.

Lemma kept_TemporaryDirectory {A} X (body : nat -> M world A) :
  (forall t, respects (elsewhere_kept (X ∪ {[t]})) (body t)) ->
  respects (elsewhere_kept X) (TemporaryDirectory body).
Proof.
  intros Hbody w k Hk. unfold TemporaryDirectory.
  set (t := fresh (dom (dirs w))).
  pose proof (Hbody t (log (EvMkdtemp t) (set_dirs (<[t := ∅]>) w))) as H.
  destruct (body t _) as [r w2]. cbn [snd] in *. cbn [log set_dirs dirs].
  destruct (decide (k = t)) as [->|Hne].
  - rewrite lookup_delete_eq. symmetry. apply fresh_dir_absent.
  - rewrite lookup_delete_ne by congruence.
    rewrite (H k) by (rewrite elem_of_union, elem_of_singleton; tauto).
    cbn. apply lookup_insert_ne. congruence.
Qed.

Lemma kept_unpacked {A} X url fs (body : Path -> M world A) :
  (forall p, respects (elsewhere_kept (X ∪ {[parent p]})) (body p)) ->
  respects (elsewhere_kept X) (unpacked_prismzip_bil url fs body).
Proof.
  intros Hbody w. rewrite unpacked_as_prelude. revert w.
  apply kept_TemporaryDirectory. intros t w. unfold bind.
  pose proof (kept_unpack_prelude (X ∪ {[t]}) url fs t
                ltac:(apply elem_of_union; right; apply elem_of_singleton;
                      reflexivity) w) as Hpre.
  destruct (unpack_prelude url fs t w) as [[p|e] w1] eqn:E; [|exact Hpre].
  cbn [snd] in Hpre. transitivity w1; [exact Hpre|].
  rewrite <- (unpack_prelude_parent _ _ _ _ _ _ E). apply Hbody.
Qed.

Lemma with_suffix_parent p suffix q :
  with_suffix p suffix = Ok q -> parent q = parent p.
Proof.
  unfold with_suffix. destruct (nonempty (fname p)); [|discriminate].
  intros [= <-]. reflexivity.
Qed.

Lemma kept_process_bil X d variable url kw p :
  d ∈ X -> respects (elsewhere_kept X) (process_bil d variable url kw p).
Proof.
  intros Hd. unfold process_bil.
  apply respects_bind; [apply _|apply kept_open_rasterio|]. intros da.
  apply respects_bind; [apply _| |intros da'].
  { unfold call_preprocess, preprocess_bil_dataarray.
    repeat first
      [ apply respects_on_grid; apply _
      | apply respects_ret; apply _
      | apply respects_raise; apply _
      | apply respects_lift; apply _
      | apply respects_bind; [apply _| |intros ?]
      | match goal with |- respects _ (match ?x with _ => _ end) => destruct x end ]. }
  intros w. unfold bind at 1, lift.
  destruct (with_suffix (joinpath d (fname p)) ".nc") as [out|e] eqn:E;
    [|reflexivity].
  apply with_suffix_parent in E. cbn [joinpath parent] in E. revert w.
  apply respects_bind; [apply _| |intros _; apply respects_ret; apply _].
  apply respects_bind; [apply _|apply respects_ask; apply _|]. intros data.
  apply kept_in_dir. rewrite E. exact Hd.
Qed.

Lemma kept_main years variable outpath version scale stability host protocol kw :
  respects (elsewhere_kept ∅)
    (main years variable outpath version scale stability host protocol kw).
Proof.
  unfold main.
  apply respects_bind; [apply _| |intros all_urls].
  { apply respects_bind; [apply _| |intros l; apply respects_ret; apply _].
    apply respects_for_each; [apply _|]. intros yr.
    apply kept_cache, kept_fs_glob. }
  apply kept_TemporaryDirectory. intros t.
  assert (Ht : t ∈ (∅ ∪ {[t]} : gset nat))
    by (apply elem_of_union; right; apply elem_of_singleton; reflexivity).
  apply respects_bind; [apply _| |intros paths].
  { apply respects_for_each; [apply _|]. intros url.
    apply kept_unpacked. intros p w.
    eapply kept_weaken; [|apply (kept_process_bil _ t _ _ _ _ Ht)].
    apply union_subseteq_l. }
  apply respects_bind; [apply _|apply kept_open_mfdataset|]. intros ds.
  apply kept_to_zarr.
Qed.

Lemma fetch_archive_fails url fs p w e :
  is_Some (dirs w !! parent p) ->
  fetch_fails (outside w) fs url (served w) e ->
  fst (fetch_archive url fs p w) = Raise e.
Proof.
  intros Hdir Hfail. rewrite fetch_archive_unroll.
  destruct (fs_get_file_run fs url p w Hdir) as (w1 & E1 & _ & S1 & O1 & D1).
  assert (D1' : is_Some (dirs (log (EvSleep 30) w1) !! parent p)) by exact D1.
  destruct (fs_get_file_run fs url p _ D1') as (w2 & E2 & _ & S2 & O2 & D2).
  assert (D2' : is_Some (dirs (log (EvSleep 60) w2) !! parent p)) by exact D2.
  destruct (fs_get_file_run fs url p _ D2') as (w3 & E3 & _ & S3 & O3 & _).
  cbn [log served outside] in *.
  rewrite S1, O1 in E2. rewrite S2, O2, S1, O1 in E3.
  rewrite E1.
  destruct Hfail as [[H0 K0]|[(H0 & H1 & K1)|(H0 & H1 & H2)]]; rewrite H0.
  - rewrite K0. reflexivity.
  - cbn [is_TimeoutError]. rewrite E2, H1, K1. reflexivity.
  - cbn [is_TimeoutError]. rewrite E2, H1. cbn [is_TimeoutError].
    rewrite E3, H2. reflexivity.
Qed.

(** X8: when the fetch fails under the retry policy, with an error that
    is not a timeout or with the error of the third attempt, the scope
    raises that error whatever the guarded block is: the block does not
    run, and the directories are afterwards as they were before. *)
Theorem unpack_scope_fetch_fails (url : string) (fs : filesystem) (w : world)
    (e : exn) :
  fetch_fails (outside w) fs url (served w) e ->
  exists wf,
    dirs wf = dirs w
    /\ forall A (body : Path -> M world A),
         unpacked_prismzip_bil url fs body w = (Raise e, wf).
Proof.
  intros Hfail.
  set (t := fresh (dom (dirs w))).
  set (w1 := log (EvMkdtemp t) (set_dirs (<[t := ∅]>) w)).
  assert (Hdir : is_Some (dirs w1 !! parent (joinpath t (PurePath.name url)))).
  { exists ∅. apply lookup_insert_eq. }
  pose proof (fetch_archive_fails url fs _ w1 e Hdir Hfail) as Hfetch.
  assert (Hpre : unpack_prelude url fs t w1
                 = (Raise e, snd (fetch_archive url fs
                                    (joinpath t (PurePath.name url)) w1))).
  { unfold unpack_prelude, bind.
    destruct (fetch_archive _ _ _ w1) as [r w2]. cbn [fst snd] in *.
    rewrite Hfetch. reflexivity. }
  set (w2 := snd (fetch_archive url fs (joinpath t (PurePath.name url)) w1)) in *.
  exists (scratch_removed t w2). split.
  - assert (Hkept : elsewhere_kept {[t]} w1 w2).
    { apply kept_fetch_archive. apply elem_of_singleton. reflexivity. }
    apply map_eq. intros k. unfold scratch_removed. cbn [log set_dirs dirs].
    destruct (decide (k = t)) as [->|Hne].
    + rewrite lookup_delete_eq. symmetry. apply fresh_dir_absent.
    + rewrite lookup_delete_ne by congruence.
      rewrite (Hkept k) by (rewrite elem_of_singleton; exact Hne).
      cbn. apply lookup_insert_ne. congruence.
  - intros A body. rewrite unpacked_as_prelude.
    unfold TemporaryDirectory. fold t. fold w1. unfold bind. rewrite Hpre.
    reflexivity.
Qed.

Lemma unpack_scope_fetch_fails_witness :
  exists wf,
    dirs wf = dirs (start always_late)
    /\ forall A (body : Path -> M world A),
         unpacked_prismzip_bil day1_url ftp_prism body (start always_late)
         = (Raise TimeoutError, wf).
Proof.
  apply (unpack_scope_fetch_fails day1_url ftp_prism (start always_late)).
  right. right. repeat split; vm_compute; reflexivity.
Defined.

(** The scope, from what it does before the block. *)
Lemma unpacked_run {A} url fs (body : Path -> M world A) w :
  unpacked_prismzip_bil url fs body w
  = match unpack_prelude url fs (fresh (dom (dirs w)))
            (scratch_made (fresh (dom (dirs w))) w) with
    | (Ok p, wb) =>
        (fst (body p wb),
         scratch_removed (fresh (dom (dirs w))) (snd (body p wb)))
    | (Raise e, wf) => (Raise e, scratch_removed (fresh (dom (dirs w))) wf)
    end.
Proof.
  rewrite unpacked_as_prelude. unfold TemporaryDirectory.
  fold (scratch_made (fresh (dom (dirs w))) w). rewrite bind_run.
  destruct (unpack_prelude _ _ _ _) as [[p|e] wb]; [|reflexivity].
  destruct (body p wb) as [r w']. reflexivity.
Qed.

(** C4: the scope of [unpacked_prismzip_bil] works in one directory, a
    new one: the archive is fetched and extracted into it and the path
    handed to the guarded block lies in it, and until the block runs no
    other directory is touched.  However the scope is left, with the
    value of the block or with what the fetch, the archive, the
    extraction or the block raised, that directory is gone with all its
    files afterwards, and removing it was the last thing done: when the
    block does not run the directories are exactly as before the scope,
    when it runs they are what the block left without the scope's
    directory; so with a block that leaves other directories alone,
    nothing remains on any exit path. *)
Theorem unpacked_prismzip_bil_cleans_up {A} (url : string) (fs : filesystem)
    (body : Path -> M world A) (w : world) :
  let t := fresh (dom (dirs w)) in
  let run := unpacked_prismzip_bil url fs body w in
  (t ∉ dom (dirs w))
  /\ dirs (snd run) !! t = None
  /\ last (trace (snd run)) = Some (EvRmtree t)
  /\ match unpack_prelude url fs t (scratch_made t w) with
     | (Ok p, wb) =>
         parent p = t
         /\ (forall k, k <> t -> dirs wb !! k = dirs w !! k)
         /\ run = (fst (body p wb), scratch_removed t (snd (body p wb)))
     | (Raise e, wf) =>
         run = (Raise e, scratch_removed t wf) /\ dirs (snd run) = dirs w
     end
  /\ ((forall p w0 k, k <> parent p ->
         dirs (snd (body p w0)) !! k = dirs w0 !! k) ->
      dirs (snd run) = dirs w).
Proof.
  cbv zeta. set (t := fresh (dom (dirs w))).
  split; [apply is_fresh|].
  pose proof (unpacked_run url fs body w) as Hrun. fold t in Hrun.
  pose proof (kept_unpack_prelude {[t]} url fs t
                ltac:(apply elem_of_singleton; reflexivity)
                (scratch_made t w)) as Hkept.
  assert (Hout : forall w2, elsewhere_kept {[t]} (scratch_made t w) w2 ->
                 forall k, k <> t -> dirs w2 !! k = dirs w !! k).
  { intros w2 H2 k Hk. rewrite (H2 k) by (rewrite elem_of_singleton; exact Hk).
    cbn. apply lookup_insert_ne. congruence. }
  split; [|split; [|split]].
  - rewrite Hrun. destruct (unpack_prelude _ _ _ _) as [[p|e] wb];
      apply lookup_delete_eq.
  - rewrite Hrun. destruct (unpack_prelude _ _ _ _) as [[p|e] wb];
      apply last_snoc.
  - destruct (unpack_prelude url fs t (scratch_made t w)) as [[p|e] wb] eqn:E;
      cbn [snd] in Hkept.
    + split; [eapply unpack_prelude_parent, E|].
      split; [apply Hout, Hkept|exact Hrun].
    + split; [exact Hrun|]. rewrite Hrun. cbn [snd].
      apply map_eq. intros k. unfold scratch_removed. cbn [log set_dirs dirs].
      destruct (decide (k = t)) as [->|Hne].
      * rewrite lookup_delete_eq. symmetry. apply fresh_dir_absent.
      * rewrite lookup_delete_ne by congruence. apply Hout; assumption.
  - intros Hbody. apply kept_nothing.
    apply (kept_unpacked ∅ url fs body).
    intros p w0 k Hk. apply Hbody. intros ->. apply Hk.
    apply elem_of_union. right. apply elem_of_singleton. reflexivity.
Qed.

(** A scope left by a malformed archive, and one left by its block. *)
Lemma unpacked_prismzip_bil_cleans_up_witness :
  (fst (unpacked_prismzip_bil bad_url ftp_prism (fun p => ret p)
          (start one_bad_day)) = Raise (ZipBilFileError NoBil)
   /\ dirs (snd (unpacked_prismzip_bil bad_url ftp_prism (fun p => ret p)
                   (start one_bad_day))) = dirs (start one_bad_day))
  /\ dirs (snd (unpacked_prismzip_bil day1_url ftp_prism (fun p => ret p)
                  (start healthy))) = dirs (start healthy).
Proof.
  split; [split; [vm_compute; reflexivity|]|].
  - pose proof (proj1 (proj2 (proj2 (proj2
        (unpacked_prismzip_bil_cleans_up bad_url ftp_prism
           (fun p => ret p) (start one_bad_day)))))) as H.
    cbv zeta in H.
    change (unpack_prelude bad_url ftp_prism
              (fresh (dom (dirs (start one_bad_day))))
              (scratch_made (fresh (dom (dirs (start one_bad_day))))
                 (start one_bad_day)))
      with (@Raise Path (ZipBilFileError NoBil),
            snd (unpack_prelude bad_url ftp_prism
                   (fresh (dom (dirs (start one_bad_day))))
                   (scratch_made (fresh (dom (dirs (start one_bad_day))))
                      (start one_bad_day)))) in H.
    exact (proj2 H).
  - apply (proj2 (proj2 (proj2 (proj2
        (unpacked_prismzip_bil_cleans_up day1_url ftp_prism
           (fun p => ret p) (start healthy)))))).
    intros p w0 k _. reflexivity.
Defined.

(** X9: a guarded block that changes no directory other than the one of
    the path it is given makes a scope that changes no directory at all:
    after [unpacked_prismzip_bil] the directories and their files are
    exactly as before. *)
Theorem unpack_scope_leaves_directories {A} (url : string) (fs : filesystem)
    (body : Path -> M world A) (w : world) :
  (forall p w0 k, k <> parent p -> dirs (snd (body p w0)) !! k = dirs w0 !! k) ->
  dirs (snd (unpacked_prismzip_bil url fs body w)) = dirs w.
Proof.
  intros Hbody. apply kept_nothing. revert w. apply kept_unpacked.
  intros p w0 k Hk. apply Hbody. intros ->. apply Hk.
  apply elem_of_union. right. apply elem_of_singleton. reflexivity.
Qed.

Lemma unpack_scope_leaves_directories_witness :
  dirs (snd (unpacked_prismzip_bil day1_url ftp_prism (fun p => ret p)
               (start healthy))) = dirs (start healthy).
Proof.
  apply (unpack_scope_leaves_directories day1_url ftp_prism (fun p => ret p)).
  intros p w0 k _. reflexivity.
Defined.

(** X10: [main] leaves no temporary directory behind and touches no
    other: after every run, successful or not, the directories and their
    files are exactly as before. *)
Theorem main_leaves_directories (years : list Z)
    (variable outpath version scale stability : string)
    (host protocol : option string) (kw : option kwargs) (w : world) :
  dirs (snd (main years variable outpath version scale stability
               host protocol kw w)) = dirs w.
Proof. apply kept_nothing, kept_main. Qed.

(* ===================================================================== *)
(** ** Fetch attempts and waiting time *)
(* ===================================================================== *)

Lemma attempts_app a b : attempts (a ++ b) = (attempts a + attempts b)%nat.
Proof. unfold attempts. rewrite filter_app, length_app. reflexivity. Qed.

Lemma slept_app a b : slept (a ++ b) = slept a + slept b.
Proof.
  induction a as [|e a IH]; [reflexivity|].
  cbn [app slept foldr]. fold (slept (a ++ b)). fold (slept a).
  rewrite IH. destruct e; lia.
Qed.

#[local] Instance same_trace_preorder : PreOrder same_trace.
Proof.
  split; [intros w; reflexivity|].
  intros a b c Hab Hbc. unfold same_trace in *. congruence.
Qed.

Lemma respects_preprocess R `{!PreOrder R} da minlat minlon maxlat maxlon epsg :
  respects R (preprocess_bil_dataarray da minlat minlon maxlat maxlon epsg).
Proof.
  unfold preprocess_bil_dataarray.
  repeat first
    [ apply respects_on_grid; apply _
    | apply respects_ret; apply _
    | apply respects_raise; apply _
    | apply respects_lift; apply _
    | apply respects_bind; [apply _| |intros ?]
    | match goal with |- respects _ (match ?x with _ => _ end) => destruct x end ].
Qed.

Lemma silent_in_dir {A} t (m : M (gmap string bytes) A) :
  respects same_trace (in_dir t m).
Proof.
  intros w. unfold in_dir. destruct (dirs w !! t); [|reflexivity].
  destruct (m _). reflexivity.
Qed.

Lemma silent_open_rasterio p : respects same_trace (open_rasterio p).
Proof.
  intros w. unfold open_rasterio. destruct (dirs w !! parent p); reflexivity.
Qed.

Lemma silent_process_bil d variable url kw p :
  respects same_trace (process_bil d variable url kw p).
Proof.
  unfold process_bil.
  apply respects_bind; [apply _|apply silent_open_rasterio|]. intros da.
  apply respects_bind; [apply _|apply respects_preprocess, _|]. intros da'.
  apply respects_bind; [apply _|apply respects_lift, _|]. intros out.
  apply respects_bind; [apply _| |intros _; apply respects_ret, _].
  apply respects_bind; [apply _|apply respects_ask, _|]. intros data.
  apply silent_in_dir.
Qed.

Lemma silent_open_zip_files p : respects same_trace (open_zip_files p).
Proof.
  apply respects_bind; [apply _|apply respects_read_file, _|].
  intros data. apply respects_ask, _.
Qed.

Lemma costs_silent {A} (m : M world A) :
  respects same_trace m -> costs_at_most 0 0 m.
Proof.
  intros H w. exists []. rewrite app_nil_r. split; [apply H|].
  split; [apply Nat.le_refl|reflexivity].
Qed.

Lemma costs_weaken {A} na ns na' ns' (m : M world A) :
  (na <= na')%nat -> ns <= ns' ->
  costs_at_most na ns m -> costs_at_most na' ns' m.
Proof.
  intros Ha Hs H w. destruct (H w) as (evs & T & A1 & S1).
  exists evs. repeat split; [exact T|lia|lia].
Qed.

Lemma costs_bind {A B} na ns na' ns' (m : M world A) (k : A -> M world B) :
  0 <= ns' ->
  costs_at_most na ns m -> (forall a, costs_at_most na' ns' (k a)) ->
  costs_at_most (na + na') (ns + ns') (bind m k).
Proof.
  intros Hpos Hm Hk w. unfold bind.
  destruct (Hm w) as (e1 & T1 & A1 & S1).
  destruct (m w) as [[a|e] w1]; cbn [snd] in *.
  - destruct (Hk a w1) as (e2 & T2 & A2 & S2).
    exists (e1 ++ e2). rewrite T2, T1, app_assoc, attempts_app, slept_app.
    repeat split; lia.
  - exists e1. repeat split; [exact T1|lia|lia].
Qed.

Lemma costs_for_each {A B} na ns (f : A -> M world B) xs :
  0 <= ns -> (forall x, costs_at_most na ns (f x)) ->
  costs_at_most (length xs * na) (Z.of_nat (length xs) * ns) (for_each f xs).
Proof.
  intros Hpos Hf. induction xs as [|x xs IH]; cbn [for_each].
  - apply costs_silent, respects_ret, _.
  - eapply costs_weaken;
      [| |apply (costs_bind na ns (length xs * na + 0)
                   (Z.of_nat (length xs) * ns + 0))].
    + cbn [length]. lia.
    + cbn [length]. lia.
    + lia.
    + apply Hf.
    + intros y. apply costs_bind; [lia|exact IH|].
      intros ys. apply costs_silent, respects_ret, _.
Qed.

Lemma fs_get_file_trace fs url p w :
  trace (snd (fs_get_file fs url p w)) = trace w ++ [EvGetFile fs url].
Proof.
  unfold fs_get_file.
  destruct (remote_get_file (outside w) fs url (served w)) as [data|e];
    [|reflexivity].
  pose proof (silent_in_dir (parent p) (dir_write (fname p) data)
                (log (EvGetFile fs url) (tick w))) as H.
  unfold same_trace in H. unfold write_file. rewrite H. reflexivity.
Qed.

(** The fetch of one archive: at most three attempts and ninety seconds
    of sleep, whether the target directory exists or not. *)
Lemma costs_fetch_archive url fs p : costs_at_most 3 90 (fetch_archive url fs p).
Proof.
  intros w. rewrite fetch_archive_unroll.
  pose proof (fs_get_file_trace fs url p w) as T1.
  destruct (fs_get_file fs url p w) as [[[]|e1] w1]; cbn [snd] in T1.
  { eexists. split; [exact T1|]. vm_compute. split; [lia|discriminate]. }
  destruct (is_TimeoutError e1).
  2:{ eexists. split; [exact T1|]. vm_compute. split; [lia|discriminate]. }
  pose proof (fs_get_file_trace fs url p (log (EvSleep 30) w1)) as T2.
  cbn [log trace] in T2. rewrite T1, <- !app_assoc in T2. cbn [app] in T2.
  destruct (fs_get_file fs url p (log (EvSleep 30) w1)) as [[[]|e2] w2];
    cbn [snd] in T2.
  { eexists. split; [exact T2|]. vm_compute. split; [lia|discriminate]. }
  destruct (is_TimeoutError e2).
  2:{ eexists. split; [exact T2|]. vm_compute. split; [lia|discriminate]. }
  pose proof (fs_get_file_trace fs url p (log (EvSleep 60) w2)) as T3.
  cbn [log trace] in T3. rewrite T2, <- !app_assoc in T3. cbn [app] in T3.
  destruct (fs_get_file fs url p (log (EvSleep 60) w2)) as [[[]|e3] w3];
    cbn [snd] in T3;
    (eexists; split; [exact T3|]; vm_compute; split; [lia|discriminate]).
Qed.

Lemma costs_TemporaryDirectory {A} na ns (body : nat -> M world A) :
  (forall t, costs_at_most na ns (body t)) ->
  costs_at_most na ns (TemporaryDirectory body).
Proof.
  intros Hbody w. unfold TemporaryDirectory.
  set (t := fresh (dom (dirs w))).
  destruct (Hbody t (log (EvMkdtemp t) (set_dirs (<[t := ∅]>) w)))
    as (evs & T & A1 & S1).
  destruct (body t _) as [r w2]. cbn [snd log set_dirs trace] in *.
  exists (EvMkdtemp t :: evs ++ [EvRmtree t]). split.
  - rewrite T, <- !app_assoc. reflexivity.
  - change (EvMkdtemp t :: evs ++ [EvRmtree t])
      with ([EvMkdtemp t] ++ evs ++ [EvRmtree t]).
    rewrite !attempts_app, !slept_app.
    change (attempts [EvMkdtemp t]) with 0%nat.
    change (attempts [EvRmtree t]) with 0%nat.
    change (slept [EvMkdtemp t]) with 0.
    change (slept [EvRmtree t]) with 0. lia.
Qed.

Lemma costs_process_url d fs variable kw url :
  costs_at_most 3 90 (process_url d fs variable kw url).
Proof.
  unfold process_url, unpacked_prismzip_bil.
  apply costs_TemporaryDirectory. intros t.
  apply (costs_bind 3 90 0 0); [lia|apply costs_fetch_archive|]. intros _.
  apply (costs_bind 0 0 0 0); [lia|apply costs_silent, silent_open_zip_files|].
  intros zs.
  apply (costs_bind 0 0 0 0);
    [lia|apply costs_silent, respects_with_disk; intros os;
         apply silent_in_dir|].
  intros p. apply costs_silent, silent_process_bil.
Qed.

Lemma costs_to_zarr ds outpath : costs_at_most 0 0 (to_zarr ds outpath).
Proof.
  intros w. destruct (to_zarr_state ds outpath w) as (_ & tail & T & Htail & _).
  exists (EvToZarr outpath :: tail). split; [exact T|].
  destruct Htail as [-> | ->]; vm_compute; (split; [lia|discriminate]).
Qed.

(** X11: a run of [main] makes at most three fetch attempts and sleeps at
    most ninety seconds for each URL the listings returned, and none at
    all when a listing fails. *)
Theorem main_fetch_budget (years : list Z)
    (variable outpath version scale stability : string)
    (host protocol : option string) (kw : option kwargs) (w : world) :
  let run := main years variable outpath version scale stability host protocol kw w in
  let evs := new_events w (snd run) in
  match fst (enumerate_urls years (main_fs host protocol) variable scale
               version stability w) with
  | Ok all_urls =>
      (attempts evs <= 3 * length all_urls)%nat
      /\ slept evs <= 90 * Z.of_nat (length all_urls)
  | Raise _ => attempts evs = 0%nat /\ slept evs = 0
  end.
Proof.
  cbv zeta.
  destruct (lists_enumerate_urls years (main_fs host protocol) variable scale
              version stability w) as (_ & _ & globs & T1 & G1).
  assert (Hglobs : attempts globs = 0%nat /\ slept globs = 0).
  { clear T1. induction G1 as [|ev globs Hev _ [IHa IHs]]; [split; reflexivity|].
    change (ev :: globs) with ([ev] ++ globs).
    rewrite attempts_app, slept_app, IHa, IHs.
    destruct ev; try discriminate Hev. split; reflexivity. }
  destruct Hglobs as [Ga Gs].
  unfold main. rewrite bind_run. fold (main_fs host protocol).
  destruct (enumerate_urls _ _ _ _ _ _ w) as [[all_urls|e] w1];
    cbn [fst snd] in *.
  2:{ rewrite (new_events_app _ _ _ T1). split; assumption. }
  assert (Hrest : costs_at_most (length all_urls * 3 + (0 + 0))
                    (Z.of_nat (length all_urls) * 90 + (0 + 0))
    (TemporaryDirectory (fun tmpdir =>
       daily_paths <- for_each (process_url tmpdir (main_fs host protocol)
                                  variable (default no_kwargs kw)) all_urls ;;
       ds <- open_mfdataset daily_paths ;;
       to_zarr ds outpath))).
  { apply costs_TemporaryDirectory. intros t.
    apply costs_bind; [lia| |intros paths].
    - apply costs_for_each; [lia|]. intros url. apply costs_process_url.
    - apply costs_bind; [lia| |intros ds; apply costs_to_zarr].
      apply costs_silent. intros w0. unfold same_trace.
      rewrite open_mfdataset_state. reflexivity. }
  destruct (Hrest w1) as (evs & T & A1 & S1).
  rewrite (new_events_app w _ (globs ++ evs))
    by (rewrite T, T1, app_assoc; reflexivity).
  rewrite attempts_app, slept_app. lia.
Qed.

(* ===================================================================== *)
(** ** What the process keeps *)
(* ===================================================================== *)

#[local] Instance only_grows_preorder : PreOrder only_grows.
Proof.
  split.
  - intros w. repeat split; reflexivity.
  - intros a b c (O1 & C1 & S1) (O2 & C2 & S2).
    repeat split; [congruence|etransitivity; eassumption|lia].
Qed.

Lemma grows_step a b :
  outside b = outside a -> url_cache b = url_cache a ->
  (served a <= served b)%nat -> only_grows a b.
Proof. intros O C S. repeat split; [exact O|rewrite C; reflexivity|exact S]. Qed.

Lemma grows_sleep s : respects only_grows (sleep s).
Proof. intros w. apply grows_step; reflexivity. Qed.

Lemma grows_in_dir {A} t (m : M (gmap string bytes) A) :
  respects only_grows (in_dir t m).
Proof.
  intros w. unfold in_dir. destruct (dirs w !! t); [|reflexivity].
  destruct (m _). apply grows_step; reflexivity.
Qed.

Lemma grows_fs_get_file fs url p : respects only_grows (fs_get_file fs url p).
Proof.
  intros w. unfold fs_get_file.
  assert (H : only_grows w (log (EvGetFile fs url) (tick w)))
    by (apply grows_step; cbn; (reflexivity || lia)).
  destruct (remote_get_file (outside w) fs url (served w)); [|exact H].
  transitivity (log (EvGetFile fs url) (tick w)); [exact H|apply grows_in_dir].
Qed.

Lemma grows_fs_glob fs pattern : respects only_grows (fs_glob fs pattern).
Proof. intros w. apply grows_step; cbn; (reflexivity || lia). Qed.

Lemma grows_cache key f : respects only_grows f -> respects only_grows (cache key f).
Proof.
  intros Hf w. unfold cache.
  destruct (url_cache w !! key) eqn:Hkey; [reflexivity|].
  pose proof (Hf w) as (O & C & S). destruct (f w) as [[v|e] w1];
    cbn [snd] in *; [|split; [exact O|split; [exact C|exact S]]].
  split; [exact O|]. split; [|exact S]. cbn.
  apply insert_subseteq_r; assumption.
Qed.

Lemma grows_TemporaryDirectory {A} (body : nat -> M world A) :
  (forall t, respects only_grows (body t)) ->
  respects only_grows (TemporaryDirectory body).
Proof.
  intros Hbody w. unfold TemporaryDirectory.
  set (t := fresh (dom (dirs w))).
  pose proof (Hbody t (log (EvMkdtemp t) (set_dirs (<[t := ∅]>) w))) as H.
  destruct (body t _) as [r w2]. exact H.
Qed.

Lemma grows_open_rasterio p : respects only_grows (open_rasterio p).
Proof.
  intros w. unfold open_rasterio. destruct (dirs w !! parent p); reflexivity.
Qed.

Lemma grows_fetch_archive url fs p : respects only_grows (fetch_archive url fs p).
Proof.
  apply respects_retry_call; [apply _|apply grows_fs_get_file|apply grows_sleep].
Qed.

Lemma grows_unpacked {A} url fs (body : Path -> M world A) :
  (forall p, respects only_grows (body p)) ->
  respects only_grows (unpacked_prismzip_bil url fs body).
Proof.
  intros Hbody. unfold unpacked_prismzip_bil.
  apply grows_TemporaryDirectory. intros t.
  apply respects_bind; [apply _|apply grows_fetch_archive|]. intros _.
  apply respects_bind; [apply _| |intros zs].
  { apply respects_bind; [apply _|apply respects_read_file, _|].
    intros data. apply respects_ask, _. }
  apply respects_bind;
    [apply _|apply respects_with_disk; intros os; apply grows_in_dir
    |exact Hbody].
Qed.

Lemma grows_process_url d fs variable kw url :
  respects only_grows (process_url d fs variable kw url).
Proof.
  apply grows_unpacked. intros p. unfold process_bil.
  apply respects_bind; [apply _|apply grows_open_rasterio|]. intros da.
  apply respects_bind; [apply _|apply respects_preprocess, _|]. intros da'.
  apply respects_bind; [apply _|apply respects_lift, _|]. intros out.
  apply respects_bind; [apply _| |intros _; apply respects_ret, _].
  apply respects_bind; [apply _|apply respects_ask, _|]. intros data.
  apply grows_in_dir.
Qed.

Lemma grows_get_prism_daily_urls year fs variable stability scale version
    keywords :
  respects only_grows
    (get_prism_daily_urls year fs variable stability scale version keywords).
Proof. apply grows_cache, grows_fs_glob. Qed.

Lemma grows_enumerate_urls years fs variable scale version stability :
  respects only_grows (enumerate_urls years fs variable scale version stability).
Proof.
  apply respects_bind; [apply _| |intros l; apply respects_ret, _].
  apply respects_for_each; [apply _|]. intros yr.
  apply grows_get_prism_daily_urls.
Qed.

Lemma grows_to_zarr ds outpath : respects only_grows (to_zarr ds outpath).
Proof.
  intros w. destruct (to_zarr_cases ds outpath w) as [[store ->]|[e ->]];
    cbn [snd]; [|destruct (xr_zarr_left _ _)]; apply grows_step; reflexivity.
Qed.

Lemma grows_main years variable outpath version scale stability host protocol kw :
  respects only_grows
    (main years variable outpath version scale stability host protocol kw).
Proof.
  unfold main.
  apply respects_bind; [apply _|apply grows_enumerate_urls|]. intros all_urls.
  apply grows_TemporaryDirectory. intros t.
  apply respects_bind; [apply _| |intros paths].
  { apply respects_for_each; [apply _|]. intros url. apply grows_process_url. }
  apply respects_bind; [apply _| |intros ds; apply grows_to_zarr].
  intros w. rewrite open_mfdataset_state. reflexivity.
Qed.

(* ===================================================================== *)
(** ** The intermediate files and the combined store *)
(* ===================================================================== *)

#[local] Instance files_stay_preorder d : PreOrder (files_stay d).
Proof.
  split; [intros w nm H; exact H|].
  intros a b c H1 H2 nm H. apply H2, H1, H.
Qed.

Lemma stay_same_dirs d a b : dirs b = dirs a -> files_stay d a b.
Proof. intros H nm. unfold file_at. rewrite H. auto. Qed.

Lemma stay_write_file d p data : respects (files_stay d) (write_file p data).
Proof.
  intros w nm. unfold write_file, in_dir, dir_write.
  destruct (dirs w !! parent p) as [c|] eqn:E; [|auto].
  unfold file_at. cbn [snd joinpath parent fname set_dirs dirs].
  destruct (decide (parent p = d)) as [<-|Hne].
  - rewrite E, lookup_insert_eq.
    destruct (decide (fname p = nm)) as [->|Hnm].
    + rewrite lookup_insert_eq. eauto.
    + rewrite lookup_insert_ne by exact Hnm. auto.
  - rewrite lookup_insert_ne by exact Hne. auto.
Qed.

Lemma stay_in_dir_other {A} d t (m : M (gmap string bytes) A) :
  t <> d -> respects (files_stay d) (in_dir t m).
Proof.
  intros Hne w nm. unfold in_dir.
  destruct (dirs w !! t) as [c|]; [|auto]. destruct (m c) as [r c'].
  unfold file_at. cbn [snd joinpath parent fname set_dirs dirs].
  rewrite lookup_insert_ne by exact Hne. auto.
Qed.

Lemma stay_fs_get_file d fs url p : respects (files_stay d) (fs_get_file fs url p).
Proof.
  intros w. unfold fs_get_file.
  destruct (remote_get_file (outside w) fs url (served w)).
  - transitivity (log (EvGetFile fs url) (tick w)).
    + apply stay_same_dirs. reflexivity.
    + apply stay_write_file.
  - apply stay_same_dirs. reflexivity.
Qed.

Lemma stay_fetch_archive d url fs p :
  respects (files_stay d) (fetch_archive url fs p).
Proof.
  apply respects_retry_call; [apply _|apply stay_fs_get_file|].
  intros s w. apply stay_same_dirs. reflexivity.
Qed.

Lemma stay_open_rasterio d p : respects (files_stay d) (open_rasterio p).
Proof.
  intros w. unfold open_rasterio. destruct (dirs w !! parent p); reflexivity.
Qed.

(** A scope's directory is new: the files of a directory that exists
    stay through the scope when they stay through its block. *)
Lemma stay_TemporaryDirectory {A} d (body : nat -> M world A) :
  (forall t, t <> d -> respects (files_stay d) (body t)) ->
  respects (files_stay d) (TemporaryDirectory body).
Proof.
  intros Hbody w nm Hsome. unfold TemporaryDirectory.
  set (t := fresh (dom (dirs w))).
  assert (Hne : t <> d).
  { intros Heq. destruct Hsome as [b Hb]. unfold file_at in Hb.
    cbn [joinpath parent] in Hb. rewrite <- Heq in Hb. unfold t in Hb.
    rewrite fresh_dir_absent in Hb. discriminate. }
  pose proof (Hbody t Hne (log (EvMkdtemp t) (set_dirs (<[t := ∅]>) w)) nm) as H.
  destruct (body t _) as [r w2]. cbn [snd] in *.
  unfold file_at in *. cbn [joinpath parent fname log set_dirs dirs] in *.
  rewrite lookup_delete_ne by exact Hne. apply H.
  rewrite lookup_insert_ne by exact Hne. exact Hsome.
Qed.

Lemma stay_process_bil d tmpdir variable url kw p :
  respects (files_stay d) (process_bil tmpdir variable url kw p).
Proof.
  unfold process_bil.
  apply respects_bind; [apply _|apply stay_open_rasterio|]. intros da.
  apply respects_bind; [apply _|apply respects_preprocess, _|]. intros da'.
  apply respects_bind; [apply _|apply respects_lift, _|]. intros out.
  apply respects_bind; [apply _| |intros _; apply respects_ret, _].
  apply respects_bind; [apply _|apply respects_ask, _|]. intros data.
  apply stay_write_file.
Qed.

Lemma stay_process_url d tmpdir fs variable kw url :
  respects (files_stay d) (process_url tmpdir fs variable kw url).
Proof.
  unfold process_url, unpacked_prismzip_bil.
  apply stay_TemporaryDirectory. intros t Hne.
  apply respects_bind; [apply _|apply stay_fetch_archive|]. intros _.
  apply respects_bind; [apply _| |intros zs].
  { apply respects_bind; [apply _|apply respects_read_file, _|].
    intros data. apply respects_ask, _. }
  apply respects_bind;
    [apply _|apply respects_with_disk; intros os;
             apply stay_in_dir_other, Hne|].
  intros p. apply stay_process_bil.
Qed.

Lemma open_rasterio_state p w : snd (open_rasterio p w) = w.
Proof. unfold open_rasterio. destruct (dirs w !! parent p); reflexivity. Qed.

Lemma call_preprocess_state da kw w : snd (call_preprocess da kw w) = w.
Proof.
  symmetry. revert w. change (respects eq (call_preprocess da kw)).
  apply respects_preprocess, _.
Qed.

(** The block of one day leaves the day's file in the scratch
    directory. *)
Lemma process_bil_file d variable url kw q w p w' :
  d ∈ dom (dirs w) ->
  process_bil d variable url kw q w = (Ok p, w') ->
  parent p = d /\ is_Some (file_at w' p) /\ d ∈ dom (dirs w').
Proof.
  intros Hd. unfold process_bil. rewrite bind_run.
  pose proof (open_rasterio_state q w) as H1.
  destruct (open_rasterio q w) as [[da|e] wa]; [|discriminate].
  cbn [snd] in H1. subst wa. rewrite bind_run.
  match goal with
  | |- context [call_preprocess ?a kw w] =>
      pose proof (call_preprocess_state a kw w) as H2;
      destruct (call_preprocess a kw w) as [[da'|e] wb]; [|discriminate]
  end.
  cbn [snd] in H2. subst wb. rewrite bind_run. unfold lift.
  destruct (with_suffix (joinpath d (fname q)) ".nc") as [out|e] eqn:E;
    [|discriminate].
  apply with_suffix_parent in E. cbn [joinpath parent] in E.
  rewrite bind_run. unfold to_netcdf. rewrite bind_run. unfold ask.
  destruct (xr_to_netcdf (outside w) da') as [data|e]; [|discriminate].
  unfold write_file, in_dir, dir_write. rewrite E.
  apply elem_of_dom in Hd as [c Hc]. rewrite Hc. unfold ret.
  intros [= <- <-]. split; [exact E|]. unfold file_at.
  cbn [set_dirs dirs]. rewrite E, lookup_insert_eq, lookup_insert_eq.
  split; [eauto|]. apply elem_of_dom. rewrite lookup_insert_eq. eauto.
Qed.

Lemma process_url_file d fs variable kw url w p w' :
  d ∈ dom (dirs w) ->
  process_url d fs variable kw url w = (Ok p, w') ->
  parent p = d /\ is_Some (file_at w' p) /\ d ∈ dom (dirs w').
Proof.
  intros Hd. unfold process_url. rewrite unpacked_as_prelude.
  unfold TemporaryDirectory. set (t := fresh (dom (dirs w))).
  set (w1 := log (EvMkdtemp t) (set_dirs (<[t := ∅]>) w)).
  assert (Hne : d <> t).
  { intros ->. apply elem_of_dom in Hd as [c Hc].
    unfold t in Hc. rewrite fresh_dir_absent in Hc. discriminate. }
  rewrite bind_run.
  pose proof (kept_unpack_prelude {[t]} url fs t
                ltac:(apply elem_of_singleton; reflexivity) w1) as Hpre.
  destruct (unpack_prelude url fs t w1) as [[q|e] w2]; [|discriminate].
  cbn [snd] in Hpre.
  assert (Hd2 : d ∈ dom (dirs w2)).
  { apply elem_of_dom. rewrite (Hpre d) by (rewrite elem_of_singleton; exact Hne).
    cbn [w1 log set_dirs dirs]. rewrite lookup_insert_ne by congruence.
    apply elem_of_dom, Hd. }
  destruct (process_bil d variable url kw q w2) as [[p'|e] w3] eqn:Ebil;
    [|discriminate].
  destruct (process_bil_file _ _ _ _ _ _ _ _ Hd2 Ebil) as (Hp & Hf & Hd3).
  intros [= <- <-]. split; [exact Hp|].
  unfold file_at in *. cbn [log set_dirs dirs]. rewrite Hp in *.
  rewrite lookup_delete_ne by congruence. split; [exact Hf|].
  apply elem_of_dom. rewrite lookup_delete_ne by congruence.
  apply elem_of_dom, Hd3.
Qed.

(** After the loop over the days every path it collected is a file of
    the scratch directory. *)
Lemma days_files d fs variable kw urls : forall w paths w',
  d ∈ dom (dirs w) ->
  for_each (process_url d fs variable kw) urls w = (Ok paths, w') ->
  Forall (fun p => parent p = d /\ is_Some (file_at w' p)) paths.
Proof.
  induction urls as [|url urls IH]; intros w paths w' Hd; cbn [for_each].
  - intros [= <- <-]. constructor.
  - rewrite bind_run.
    destruct (process_url d fs variable kw url w) as [[p|e] w1] eqn:E1;
      [|discriminate].
    destruct (process_url_file _ _ _ _ _ _ _ _ Hd E1) as (Hp & Hf & Hd1).
    rewrite bind_run.
    destruct (for_each _ urls w1) as [[ps|e] w2] eqn:E2; [|discriminate].
    intros [= <- <-]. constructor; [|eapply IH; eassumption].
    split; [exact Hp|].
    pose proof (respects_for_each (files_stay d) _ urls
                  (stay_process_url d d fs variable kw) w1) as Hstay.
    rewrite E2 in Hstay. cbn [snd] in Hstay.
    destruct p as [pd pn]. cbn [parent] in Hp. subst pd. apply Hstay, Hf.
Qed.

Lemma read_files paths w contents :
  Forall2 (fun p c => file_at w p = Some c) paths contents ->
  for_each read_file paths w = (Ok contents, w).
Proof.
  induction 1 as [|p c paths contents Hp _ IH]; cbn [for_each]; [reflexivity|].
  rewrite bind_run. unfold read_file at 1. unfold file_at in Hp.
  destruct (dirs w !! parent p) as [dir|]; [|discriminate]. rewrite Hp.
  rewrite bind_run, IH. reflexivity.
Qed.

Lemma files_contents w paths :
  Forall (fun p => is_Some (file_at w p)) paths ->
  exists contents, Forall2 (fun p c => file_at w p = Some c) paths contents.
Proof.
  induction 1 as [|p paths [c Hc] _ [cs IH]].
  - exists []. constructor.
  - exists (c :: cs). constructor; assumption.
Qed.

Lemma open_mfdataset_run paths w contents :
  for_each read_file paths w = (Ok contents, w) ->
  open_mfdataset paths w
  = (match xr_open_mfdataset (outside w) contents with
     | Ok _ => Ok {| ds_paths := paths |}
     | Raise e => Raise e
     end, w).
Proof.
  intros H. unfold open_mfdataset. rewrite bind_run, H, bind_run. unfold ask.
  destruct (xr_open_mfdataset _ _); reflexivity.
Qed.

Lemma to_zarr_run ds outpath w contents :
  for_each read_file (ds_paths ds) (log (EvToZarr outpath) w)
  = (Ok contents, log (EvToZarr outpath) w) ->
  to_zarr ds outpath w
  = match xr_to_zarr (outside w) contents with
    | Ok store =>
        (Ok tt, log (EvZarrDone outpath)
                  (set_stores (<[outpath := store]>) (log (EvToZarr outpath) w)))
    | Raise e =>
        (Raise e,
         match xr_zarr_left (outside w) e with
         | Some part => set_stores (<[outpath := part]>)
                          (log (EvToZarr outpath) w)
         | None => log (EvToZarr outpath) w
         end)
    end.
Proof.
  intros H. unfold to_zarr. cbv zeta. rewrite bind_run, H. unfold ask.
  cbn [outside log]. destruct (xr_to_zarr _ _); reflexivity.
Qed.

(** The run of [main] up to the end of its loop: the listings, then the
    events of the days, in a scratch directory that is still there; no
    store is touched. *)
Lemma main_loop_trace years variable version scale stability host protocol kw
    w all_urls w1 :
  enumerate_urls years (main_fs host protocol) variable scale version
    stability w = (Ok all_urls, w1) ->
  let d := fresh (dom (dirs w)) in
  let w3 := snd (for_each (process_url d (main_fs host protocol) variable
                             (default no_kwargs kw)) all_urls
                   (scratch_made d w1)) in
  exists globs days,
    Forall (fun e => is_glob e = true) globs
    /\ Forall (fun e => e <> EvRmtree d /\ is_zarr e = false) days
    /\ trace w3 = trace w ++ globs ++ EvMkdtemp d :: days
    /\ stores w3 = stores w /\ outside w3 = outside w
    /\ d ∈ dom (dirs (scratch_made d w1)) /\ d ∈ dom (dirs w3)
    /\ dirs w1 = dirs w.
Proof.
  intros Henum. cbv zeta.
  destruct (lists_enumerate_urls years (main_fs host protocol) variable scale
              version stability w) as (D1 & S1 & globs & T1 & G1).
  pose proof (grows_enumerate_urls years (main_fs host protocol) variable scale
                version stability w) as (O1 & _).
  rewrite Henum in D1, S1, T1, O1. cbn [snd] in D1, S1, T1, O1.
  set (d := fresh (dom (dirs w))). set (w2 := scratch_made d w1).
  assert (Hd2 : d ∈ dom (dirs w2)).
  { apply elem_of_dom. cbn. rewrite lookup_insert_eq. eauto. }
  pose proof (respects_for_each (scratch_kept d) _ all_urls
                (scratch_process_url d d (main_fs host protocol) variable
                   (default no_kwargs kw)) w2 Hd2)
    as (Hd3 & S3 & days & T3 & F3).
  pose proof (respects_for_each only_grows _ all_urls
                (grows_process_url d (main_fs host protocol) variable
                   (default no_kwargs kw)) w2) as (O3 & _).
  exists globs, days. split; [exact G1|]. split; [exact F3|].
  split; [rewrite T3; cbn; rewrite T1, <- !app_assoc; reflexivity|].
  split; [rewrite S3; exact S1|]. split; [rewrite O3; exact O1|].
  split; [exact Hd2|]. split; [exact Hd3|exact D1].
Qed.

(** The last stage of [main], once the listings and every day have
    succeeded: the files of the days are in the scratch directory, the
    combine step and the store write work on their contents, and the
    scratch directory is removed after the store write has ended. *)
Lemma main_write_stage years variable outpath version scale stability host
    protocol kw w all_urls w1 daily_paths w3 :
  enumerate_urls years (main_fs host protocol) variable scale version
    stability w = (Ok all_urls, w1) ->
  for_each (process_url (fresh (dom (dirs w))) (main_fs host protocol) variable
              (default no_kwargs kw)) all_urls
    (scratch_made (fresh (dom (dirs w))) w1) = (Ok daily_paths, w3) ->
  let d := fresh (dom (dirs w)) in
  let ds := {| ds_paths := daily_paths |} in
  exists contents,
    length contents = length all_urls
    /\ Forall (fun p => parent p = d) daily_paths
    /\ Forall2 (fun p c => file_at w3 p = Some c) daily_paths contents
    /\ main years variable outpath version scale stability host protocol kw w
       = match xr_open_mfdataset (outside w) contents with
         | Raise e => (Raise e, scratch_removed d w3)
         | Ok _ => (fst (to_zarr ds outpath w3),
                    scratch_removed d (snd (to_zarr ds outpath w3)))
         end
    /\ to_zarr ds outpath w3
       = match xr_to_zarr (outside w) contents with
         | Ok store =>
             (Ok tt, log (EvZarrDone outpath)
                       (set_stores (<[outpath := store]>)
                          (log (EvToZarr outpath) w3)))
         | Raise e =>
             (Raise e,
              match xr_zarr_left (outside w) e with
              | Some part => set_stores (<[outpath := part]>)
                               (log (EvToZarr outpath) w3)
              | None => log (EvToZarr outpath) w3
              end)
         end.
Proof.
  intros Henum Hloop. cbv zeta.
  destruct (main_loop_trace years variable version scale stability host
              protocol kw w all_urls w1 Henum)
    as (globs & days & _ & _ & _ & _ & Hout & Hd2 & _ & D1).
  cbv zeta in Hout. rewrite Hloop in Hout. cbn [snd] in Hout.
  pose proof (days_files _ _ _ _ _ _ _ _ Hd2 Hloop) as Hfiles.
  apply Forall_and in Hfiles as [Hparents Hsome].
  destruct (files_contents _ _ Hsome) as [contents Hcontents].
  exists contents. split.
  { rewrite <- (Forall2_length _ _ _ Hcontents).
    eapply for_each_length, Hloop. }
  split; [exact Hparents|]. split; [exact Hcontents|]. split.
  - rewrite main_run. cbv zeta. rewrite Henum, D1, Hloop.
    rewrite (open_mfdataset_run _ _ _ (read_files _ _ _ Hcontents)), Hout.
    destruct (xr_open_mfdataset (outside w) contents) as [[]|e]; reflexivity.
  - rewrite (to_zarr_run {| ds_paths := daily_paths |} outpath w3 contents
               (read_files daily_paths (log (EvToZarr outpath) w3) contents
                  Hcontents)), Hout.
    reflexivity.
Qed.

(** X12: when the listings and the processing of every day succeed, the
    loop has left one intermediate file per listed URL in the scratch
    directory, all of them still there when the files are combined;
    [main] then answers what the combine step and the store write answer
    on the contents of these files, in the order of the URLs.  A run
    that succeeds leaves at [outpath] the store made from them and no
    other store changed; a run that fails at the combine step changes no
    store; a run whose store write breaks off changes no store but the
    one at [outpath], where it leaves what the write had got to. *)
Theorem main_combines_all_days (years : list Z)
    (variable outpath version scale stability : string)
    (host protocol : option string) (kw : option kwargs) (w : world)
    (all_urls : list string) (w1 : world) (daily_paths : list Path)
    (w3 : world) :
  enumerate_urls years (main_fs host protocol) variable scale version
    stability w = (Ok all_urls, w1) ->
  for_each (process_url (fresh (dom (dirs w))) (main_fs host protocol) variable
              (default no_kwargs kw)) all_urls
    (scratch_made (fresh (dom (dirs w))) w1) = (Ok daily_paths, w3) ->
  let run := main years variable outpath version scale stability
               host protocol kw w in
  exists contents,
    length contents = length all_urls
    /\ Forall (fun p => parent p = fresh (dom (dirs w))) daily_paths
    /\ Forall2 (fun p c => file_at w3 p = Some c) daily_paths contents
    /\ match xr_open_mfdataset (outside w) contents,
             xr_to_zarr (outside w) contents with
       | Ok _, Ok store =>
           fst run = Ok tt
           /\ stores (snd run) = <[outpath := store]> (stores w)
       | Ok _, Raise e =>
           fst run = Raise e
           /\ (forall o, o <> outpath -> stores (snd run) !! o = stores w !! o)
           /\ stores (snd run) !! outpath
              = match xr_zarr_left (outside w) e with
                | Some part => Some part
                | None => stores w !! outpath
                end
       | Raise e, _ =>
           fst run = Raise e /\ stores (snd run) = stores w
       end.
Proof.
  intros Henum Hloop. cbv zeta.
  destruct (main_loop_trace years variable version scale stability host
              protocol kw w all_urls w1 Henum)
    as (globs & days & _ & _ & _ & Hst & _ & _ & _ & _).
  cbv zeta in Hst. rewrite Hloop in Hst. cbn [snd] in Hst.
  destruct (main_write_stage years variable outpath version scale stability
              host protocol kw w all_urls w1 daily_paths w3 Henum Hloop)
    as (contents & Hlen & Hparents & Hcontents & Hmain & Hzarr).
  cbv zeta in Hmain, Hzarr.
  exists contents. split; [exact Hlen|]. split; [exact Hparents|].
  split; [exact Hcontents|]. rewrite Hmain.
  destruct (xr_open_mfdataset (outside w) contents) as [[]|e].
  2:{ destruct (xr_to_zarr (outside w) contents);
        (split; [reflexivity|exact Hst]). }
  rewrite Hzarr.
  destruct (xr_to_zarr (outside w) contents) as [store|e]; cbn [fst snd].
  - split; [reflexivity|]. cbn. rewrite Hst. reflexivity.
  - split; [reflexivity|].
    destruct (xr_zarr_left (outside w) e) as [part|]; cbn; rewrite Hst.
    + split; [|apply lookup_insert_eq].
      intros o Ho. apply lookup_insert_ne. congruence.
    + split; reflexivity.
Qed.

Lemma pair_of_fst {A B} (p : A * B) a : fst p = a -> p = (a, snd p).
Proof. destruct p. cbn. congruence. Qed.

Lemma main_combines_all_days_witness :
  exists contents,
    length contents = 2%nat
    /\ fst (sample_main healthy) = Ok tt
    /\ stores (snd (sample_main healthy))
       = <["prism-tmean-2020.zarr" := concat contents]> ∅.
Proof.
  pose (w1 := snd (enumerate_urls [2020] (main_fs None None) "tmean" "4km"
                     "D2" "stable" (start healthy))).
  assert (H1 : enumerate_urls [2020] (main_fs None None) "tmean" "4km" "D2"
                 "stable" (start healthy) = (Ok [day1_url; day2_url], w1))
    by (apply pair_of_fst; vm_compute; reflexivity).
  assert (H2 : for_each (process_url (fresh (dom (dirs (start healthy))))
                           (main_fs None None) "tmean" (default no_kwargs None))
                 [day1_url; day2_url]
                 (scratch_made (fresh (dom (dirs (start healthy)))) w1)
               = (Ok [joinpath 0 "PRISM_tmean_stable_4kmD2_20200101_bil.nc";
                      joinpath 0 "PRISM_tmean_stable_4kmD2_20200102_bil.nc"],
                  snd (for_each (process_url (fresh (dom (dirs (start healthy))))
                                   (main_fs None None) "tmean"
                                   (default no_kwargs None))
                         [day1_url; day2_url]
                         (scratch_made (fresh (dom (dirs (start healthy)))) w1))))
    by (apply pair_of_fst; vm_compute; reflexivity).
  destruct (main_combines_all_days [2020] "tmean" "prism-tmean-2020.zarr"
              "D2" "4km" "stable" None None None (start healthy) _ _ _ _ H1 H2)
    as (contents & Hlen & _ & _ & Hrun).
  exists contents. split; [exact Hlen|]. exact Hrun.
Defined.

Lemma ends_with_removal d (body evs : list event) :
  evs = body ++ [EvRmtree d] -> EvRmtree d ∉ body ->
  forall before after, evs = before ++ EvRmtree d :: after ->
    after = []
    /\ forall o, (EvToZarr o ∈ evs -> EvToZarr o ∈ before)
                 /\ (EvZarrDone o ∈ evs -> EvZarrDone o ∈ before).
Proof.
  intros Hevs Hbody before after E. rewrite Hevs in E.
  destruct (cut_at_last body _ before after Hbody E) as [-> ->].
  split; [reflexivity|]. intros o. rewrite Hevs.
  split; intros Ho; (apply elem_of_app in Ho as [Ho|Ho]; [exact Ho|]);
    apply list_elem_of_singleton in Ho; discriminate.
Qed.

Lemma loop_body_no_removal d globs days :
  Forall (fun e => is_glob e = true) globs ->
  Forall (fun e => e <> EvRmtree d /\ is_zarr e = false) days ->
  (EvRmtree d ∉ globs ++ EvMkdtemp d :: days)
  /\ forall o, EvToZarr o ∉ globs ++ EvMkdtemp d :: days.
Proof.
  intros G F. pose proof (glob_not_rmtree d globs G) as Hg.
  pose proof (days_not_rmtree d days F) as Hd.
  rewrite Forall_forall in G, F. split.
  - rewrite elem_of_app, elem_of_cons. intros [?|[?|?]]; [tauto|discriminate|tauto].
  - intros o. rewrite elem_of_app, elem_of_cons. intros [H|[H|H]].
    + specialize (G _ H). discriminate.
    + discriminate.
    + destruct (F _ H) as [_ Hz]. discriminate.
Qed.

(** C2: in every run of [main], the scratch directory is removed last,
    and once.  Whenever the write of the consolidated store is entered,
    the listings and every day have succeeded, the directory removed at
    the end is the one that holds the intermediate files of the days,
    all of them are there when the write starts and still there when it
    ends, and the removal is applied to the process as the write left
    it: it begins only after the write has returned or raised.  A write
    that returns has put the store at [outpath], and the run's trace
    ends with the start of the write, its end, and then the removal; a
    run that succeeds has gone this way. *)
Theorem main_writes_before_cleanup (years : list Z)
    (variable outpath version scale stability : string)
    (host protocol : option string) (kw : option kwargs) (w : world) :
  let d := fresh (dom (dirs w)) in
  let run := main years variable outpath version scale stability host protocol kw w in
  let evs := new_events w (snd run) in
  (forall before after, evs = before ++ EvRmtree d :: after ->
     after = []
     /\ forall o, (EvToZarr o ∈ evs -> EvToZarr o ∈ before)
                  /\ (EvZarrDone o ∈ evs -> EvZarrDone o ∈ before))
  /\ (forall o, EvToZarr o ∈ evs ->
      exists daily_paths contents wz body,
        o = outpath
        /\ (d ∈ dom (dirs wz))
        /\ Forall (fun p => parent p = d) daily_paths
        /\ Forall2 (fun p c => file_at wz p = Some c) daily_paths contents
        /\ dirs (snd (to_zarr {| ds_paths := daily_paths |} outpath wz))
           = dirs wz
        /\ run = (fst (to_zarr {| ds_paths := daily_paths |} outpath wz),
                  scratch_removed d
                    (snd (to_zarr {| ds_paths := daily_paths |} outpath wz)))
        /\ (EvRmtree d ∉ body)
        /\ match xr_to_zarr (outside w) contents with
           | Ok store =>
               fst run = Ok tt
               /\ stores (snd run) = <[outpath := store]> (stores w)
               /\ evs = body ++ [EvToZarr outpath; EvZarrDone outpath;
                                 EvRmtree d]
           | Raise e =>
               fst run = Raise e
               /\ evs = body ++ [EvToZarr outpath; EvRmtree d]
           end)
  /\ (fst run = Ok tt -> EvToZarr outpath ∈ evs).
Proof.
  cbv zeta. set (d := fresh (dom (dirs w))).
  destruct (enumerate_urls years (main_fs host protocol) variable scale
              version stability w) as [[all_urls|e] w1] eqn:Henum.
  2:{ destruct (lists_enumerate_urls years (main_fs host protocol) variable
                  scale version stability w) as (_ & _ & globs & T1 & G1).
      rewrite Henum in T1. cbn [snd] in T1.
      rewrite main_run. cbv zeta. rewrite Henum. cbn [fst snd].
      rewrite (new_events_app w w1 globs T1). rewrite Forall_forall in G1.
      split; [|split].
      - intros before after E. exfalso.
        assert (Hin : EvRmtree d ∈ globs)
          by (rewrite E; apply elem_of_app; right; left).
        specialize (G1 _ Hin). discriminate.
      - intros o Ho. specialize (G1 _ Ho). discriminate.
      - discriminate. }
  destruct (main_loop_trace years variable version scale stability host
              protocol kw w all_urls w1 Henum)
    as (globs & days & G & F & T3 & S3 & _ & _ & Hd3 & D1).
  cbv zeta in T3, S3, Hd3. fold d in T3, S3, Hd3.
  destruct (loop_body_no_removal d globs days G F) as [Hbody Hnoz].
  destruct (for_each (process_url d (main_fs host protocol) variable
                        (default no_kwargs kw)) all_urls (scratch_made d w1))
    as [[daily_paths|e] w3] eqn:Hloop; cbn [snd] in T3, S3, Hd3.
  2:{ assert (Hrun : main years variable outpath version scale stability
                       host protocol kw w = (Raise e, scratch_removed d w3)).
      { rewrite main_run. cbv zeta. rewrite Henum, D1. fold d.
        rewrite Hloop. reflexivity. }
      rewrite Hrun. cbn [fst snd].
      assert (Hevs : new_events w (scratch_removed d w3)
                     = (globs ++ EvMkdtemp d :: days) ++ [EvRmtree d]).
      { apply new_events_app. cbn. rewrite T3, <- !app_assoc. reflexivity. }
      split; [apply (ends_with_removal d _ _ Hevs Hbody)|].
      split; [|discriminate].
      intros o Ho. exfalso. rewrite Hevs in Ho.
      apply elem_of_app in Ho as [Ho|Ho]; [exact (Hnoz o Ho)|].
      apply list_elem_of_singleton in Ho. discriminate. }
  destruct (main_write_stage years variable outpath version scale stability
              host protocol kw w all_urls w1 daily_paths w3 Henum Hloop)
    as (contents & _ & Hparents & Hcontents & Hmain & Hzarr).
  cbv zeta in Hmain, Hzarr. fold d in Hparents, Hmain.
  destruct (xr_open_mfdataset (outside w) contents) as [[]|e].
  2:{ rewrite Hmain. cbn [fst snd].
      assert (Hevs : new_events w (scratch_removed d w3)
                     = (globs ++ EvMkdtemp d :: days) ++ [EvRmtree d]).
      { apply new_events_app. cbn. rewrite T3, <- !app_assoc. reflexivity. }
      split; [apply (ends_with_removal d _ _ Hevs Hbody)|].
      split; [|discriminate].
      intros o Ho. exfalso. rewrite Hevs in Ho.
      apply elem_of_app in Ho as [Ho|Ho]; [exact (Hnoz o Ho)|].
      apply list_elem_of_singleton in Ho. discriminate. }
  set (wr := to_zarr {| ds_paths := daily_paths |} outpath w3) in *.
  rewrite Hmain. cbn [fst snd].
  pose proof (proj1 (to_zarr_state {| ds_paths := daily_paths |} outpath w3))
    as Hdirs. fold wr in Hdirs.
  assert (Hcase :
    match xr_to_zarr (outside w) contents with
    | Ok store =>
        fst wr = Ok tt
        /\ stores (scratch_removed d (snd wr)) = <[outpath := store]> (stores w)
        /\ new_events w (scratch_removed d (snd wr))
           = (globs ++ EvMkdtemp d :: days)
             ++ [EvToZarr outpath; EvZarrDone outpath; EvRmtree d]
    | Raise e =>
        fst wr = Raise e
        /\ new_events w (scratch_removed d (snd wr))
           = (globs ++ EvMkdtemp d :: days)
             ++ [EvToZarr outpath; EvRmtree d]
    end).
  { rewrite Hzarr. destruct (xr_to_zarr (outside w) contents) as [store|e];
      cbn [fst snd].
    - split; [reflexivity|]. split; [cbn; rewrite S3; reflexivity|].
      apply new_events_app. cbn. rewrite T3, <- !app_assoc. reflexivity.
    - split; [reflexivity|]. apply new_events_app.
      destruct (xr_zarr_left (outside w) e); cbn;
        rewrite T3, <- !app_assoc; reflexivity. }
  assert (Hevs : exists tail,
    new_events w (scratch_removed d (snd wr))
    = ((globs ++ EvMkdtemp d :: days) ++ EvToZarr outpath :: tail)
      ++ [EvRmtree d]
    /\ (tail = [] \/ tail = [EvZarrDone outpath])).
  { destruct (xr_to_zarr (outside w) contents) as [store|e].
    - destruct Hcase as (_ & _ & ->). exists [EvZarrDone outpath].
      rewrite <- !app_assoc. split; [reflexivity|right; reflexivity].
    - destruct Hcase as (_ & ->). exists [].
      rewrite <- !app_assoc. split; [reflexivity|left; reflexivity]. }
  destruct Hevs as (tail & Hevs & Htail).
  assert (Hbody' : EvRmtree d
                   ∉ (globs ++ EvMkdtemp d :: days) ++ EvToZarr outpath :: tail).
  { intros Hin. apply elem_of_app in Hin as [Hin|Hin]; [exact (Hbody Hin)|].
    apply elem_of_cons in Hin as [Hin|Hin]; [discriminate|].
    destruct Htail as [-> | ->]; [inversion Hin|].
    apply list_elem_of_singleton in Hin. discriminate. }
  split; [apply (ends_with_removal d _ _ Hevs Hbody')|]. split.
  - intros o Ho.
    exists daily_paths, contents, w3, (globs ++ EvMkdtemp d :: days).
    assert (Ho' : o = outpath).
    { rewrite Hevs in Ho. apply elem_of_app in Ho as [Ho|Ho].
      - apply elem_of_app in Ho as [Ho|Ho]; [destruct (Hnoz o Ho)|].
        apply elem_of_cons in Ho as [Ho|Ho]; [congruence|].
        destruct Htail as [-> | ->]; [inversion Ho|].
        apply list_elem_of_singleton in Ho. discriminate.
      - apply list_elem_of_singleton in Ho. discriminate. }
    split; [exact Ho'|]. split; [exact Hd3|]. split; [exact Hparents|].
    split; [exact Hcontents|]. split; [exact Hdirs|]. split; [reflexivity|].
    split; [exact Hbody|exact Hcase].
  - intros _. rewrite Hevs. apply elem_of_app. left. apply elem_of_app.
    right. left.
Qed.

(** A successful run: the store is written from the files of the two
    days, and the scratch directory is removed after the write ended. *)
Lemma main_writes_before_cleanup_witness :
  exists body,
    new_events (start healthy) (snd (sample_main healthy))
    = body ++ [EvToZarr "prism-tmean-2020.zarr";
               EvZarrDone "prism-tmean-2020.zarr"; EvRmtree 0]
    /\ stores (snd (sample_main healthy))
       = <["prism-tmean-2020.zarr" := [Byte.x11; Byte.x21]]> ∅.
Proof.
  pose proof (main_writes_before_cleanup [2020] "tmean"
                "prism-tmean-2020.zarr" "D2" "4km" "stable"
                None None None (start healthy)) as (_ & H & Hok).
  cbv zeta in H, Hok.
  destruct (H "prism-tmean-2020.zarr" (Hok ltac:(vm_compute; reflexivity)))
    as (daily_paths & contents & wz & body & _ & _ & _ & _ & _ & _ & _ & Hcase).
  exists body. split; [|vm_compute; reflexivity].
  destruct (xr_to_zarr (outside (start healthy)) contents) as [store|e].
  - exact (proj2 (proj2 Hcase)).
  - destruct Hcase as [Hr _].
    assert (Hr' : fst (sample_main healthy) = Ok tt) by (vm_compute; reflexivity).
    unfold sample_main in Hr'. rewrite Hr in Hr'. discriminate.
Defined.

(* ===================================================================== *)
(** ** The date a day is filed under *)
(* ===================================================================== *)

Lemma on_grid_run op da w :
  on_grid op da w
  = (match op (outside w) (da_grid da) with
     | Ok g => Ok {| da_name := da_name da; da_attrs := da_attrs da;
                     da_grid := g |}
     | Raise e => Raise e
     end, w).
Proof. unfold on_grid, ask. rewrite bind_run. destruct (op _ _); reflexivity. Qed.

Lemma bind_on_grid {B} op da (k : DataArray -> M world B) w :
  bind (on_grid op da) k w
  = match op (outside w) (da_grid da) with
    | Ok g => k {| da_name := da_name da; da_attrs := da_attrs da;
                   da_grid := g |} w
    | Raise e => (Raise e, w)
    end.
Proof. rewrite bind_run, on_grid_run. destruct (op _ _); reflexivity. Qed.

Ltac grid_step :=
  rewrite bind_on_grid; cbv beta;
  match goal with
  | |- match ?x with Ok _ => _ | Raise _ => _ end = _ -> _ =>
      destruct x; [|discriminate]
  end; cbn [da_name da_attrs da_grid].

Lemma preprocess_ok da minlat minlon maxlat maxlon epsg w da' w' :
  preprocess_bil_dataarray da minlat minlon maxlat maxlon epsg w = (Ok da', w') ->
  exists u dt,
    da_attrs da !! "source_url" = Some u
    /\ _datetime_from_prism_flname u = Ok dt
    /\ da_name da' = da_name da /\ da_attrs da' = da_attrs da.
Proof.
  unfold preprocess_bil_dataarray.
  assert (H0 : forall (k : DataArray -> M world DataArray),
    (forall d0, da_name d0 = da_name da -> da_attrs d0 = da_attrs da ->
       k d0 w = (Ok da', w') ->
       exists u dt, da_attrs da !! "source_url" = Some u
         /\ _datetime_from_prism_flname u = Ok dt
         /\ da_name da' = da_name da /\ da_attrs da' = da_attrs da) ->
    bind match epsg with
         | Some e => on_grid (fun c => rio_reproject c ("EPSG:" +:+ e)) da
         | None => ret da
         end k w = (Ok da', w') ->
    exists u dt, da_attrs da !! "source_url" = Some u
      /\ _datetime_from_prism_flname u = Ok dt
      /\ da_name da' = da_name da /\ da_attrs da' = da_attrs da).
  { intros k Hk. destruct epsg as [e|].
    - rewrite bind_on_grid.
      destruct (rio_reproject _ _ _); [|discriminate]. apply Hk; reflexivity.
    - rewrite bind_run. apply Hk; reflexivity. }
  apply H0. clear H0. intros d0 Hn Ha.
  do 4 grid_step. rewrite bind_run.
  destruct (da_attrs d0 !! "source_url") as [u|] eqn:Hu; [|discriminate].
  unfold ret at 1. cbv beta iota. grid_step.
  rewrite bind_run. unfold lift.
  destruct (_datetime_from_prism_flname u) as [dt|e] eqn:Hdt; [|discriminate].
  rewrite on_grid_run.
  match goal with
  | |- (match ?x with Ok _ => _ | Raise _ => _ end, _) = _ -> _ =>
      destruct x; [|discriminate]
  end.
  intros [= <- _]. exists u, dt. cbn [da_name da_attrs].
  rewrite <- Ha. auto.
Qed.

Lemma process_bil_dated d variable url kw q w p w' :
  process_bil d variable url kw q w = (Ok p, w') ->
  exists dt, _datetime_from_prism_flname url = Ok dt.
Proof.
  unfold process_bil. rewrite bind_run.
  destruct (open_rasterio q w) as [[da|e] wa]; [|discriminate].
  rewrite bind_run.
  match goal with
  | |- context [call_preprocess ?a kw wa] =>
      destruct (call_preprocess a kw wa) as [[da'|e] wb] eqn:E; [|discriminate]
  end.
  intros _. apply preprocess_ok in E as (u & dt & Hu & Hdt & _).
  cbn [da_attrs] in Hu. rewrite lookup_insert_eq in Hu.
  injection Hu as <-. eauto.
Qed.

Lemma process_url_dated d fs variable kw url w p w' :
  process_url d fs variable kw url w = (Ok p, w') ->
  exists dt, _datetime_from_prism_flname url = Ok dt.
Proof.
  unfold process_url. rewrite unpacked_as_prelude. unfold TemporaryDirectory.
  rewrite bind_run.
  destruct (unpack_prelude _ _ _ _) as [[q|e] w2]; [|discriminate].
  destruct (process_bil d variable url kw q w2) as [[p'|e] w3] eqn:E;
    [|discriminate].
  intros _. eapply process_bil_dated, E.
Qed.

(** A loop that ends normally has run its body to a normal end on every
    element. *)
Lemma for_each_ok_each {S A B} (f : A -> M S B) xs : forall s ys s',
  for_each f xs s = (Ok ys, s') ->
  Forall (fun x => exists s0 y s1, f x s0 = (Ok y, s1)) xs.
Proof.
  induction xs as [|x xs IH]; intros s ys s'; cbn [for_each]; [constructor|].
  rewrite bind_run. destruct (f x s) as [[y|e] s1] eqn:E1; [|discriminate].
  rewrite bind_run. destruct (for_each f xs s1) as [[ys'|e] s2] eqn:E2;
    [|discriminate].
  intros _. constructor; [eauto|eapply IH, E2].
Qed.

(** X13: [preprocess_bil_dataarray] returns only for a frame that carries
    a [source_url] attribute whose file name holds a date that
    [_datetime_from_prism_flname] reads; without the attribute, or with a
    name it cannot read, every call raises, whatever the bounding box and
    the target reference system are. *)
Theorem preprocess_needs_dated_source (da da' : DataArray)
    (minlat minlon maxlat maxlon : Q) (project_epsg : option string)
    (w : world) :
  fst (preprocess_bil_dataarray da minlat minlon maxlat maxlon project_epsg w)
  = Ok da' ->
  exists u dt, da_attrs da !! "source_url" = Some u
               /\ _datetime_from_prism_flname u = Ok dt.
Proof.
  destruct (preprocess_bil_dataarray _ _ _ _ _ _ w) as [r w'] eqn:E.
  cbn [fst]. intros ->.
  apply preprocess_ok in E as (u & dt & Hu & Hdt & _). eauto.
Qed.

Lemma preprocess_needs_dated_source_witness :
  exists u dt,
    da_attrs day1_frame !! "source_url" = Some u
    /\ _datetime_from_prism_flname u = Ok dt.
Proof.
  apply (preprocess_needs_dated_source day1_frame day1_normal
           (32 # 1)%Q (-125 # 1)%Q (43 # 1)%Q (-114 # 1)%Q (Some "4326")
           (start healthy)).
  vm_compute. reflexivity.
Defined.

(* ===================================================================== *)
(** ** The normalizer: [preprocess_bil_dataarray] *)
(* ===================================================================== *)

Ltac grid_call :=
  rewrite bind_on_grid; cbv beta;
  match goal with
  | |- match ?x with Ok _ => _ | Raise _ => _ end = _ -> _ =>
      destruct x eqn:?; [|discriminate]
  end; cbn [da_name da_attrs da_grid].

(** The library calls of a run without reprojection that returns, in the
    order the code makes them. *)
Lemma preprocess_calls da minlat minlon maxlat maxlon w da' w' :
  preprocess_bil_dataarray da minlat minlon maxlat maxlon None w = (Ok da', w') ->
  exists g1 g2 g3 g4 g5 u dt,
    rio_clip_box (outside w) minlon minlat maxlon maxlat (da_grid da) = Ok g1
    /\ xr_drop (outside w) "spatial_ref" g1 = Ok g2
    /\ xr_squeeze (outside w) g2 = Ok g3
    /\ xr_rename (outside w) [("x", "lon"); ("y", "lat")] g3 = Ok g4
    /\ da_attrs da !! "source_url" = Some u
    /\ xr_expand_dims (outside w) "time" g4 = Ok g5
    /\ _datetime_from_prism_flname u = Ok dt
    /\ xr_assign_time (outside w) dt g5 = Ok (da_grid da').
Proof.
  unfold preprocess_bil_dataarray. rewrite bind_run. unfold ret at 1.
  cbv beta iota.
  do 4 grid_call. rewrite bind_run.
  destruct (da_attrs da !! "source_url") as [u|] eqn:Hu; [|discriminate].
  unfold ret at 1. cbv beta iota. grid_call.
  rewrite bind_run. unfold lift.
  destruct (_datetime_from_prism_flname u) as [dt|e] eqn:Hdt; [|discriminate].
  rewrite on_grid_run.
  match goal with
  | |- (match ?x with Ok _ => _ | Raise _ => _ end, _) = _ -> _ =>
      destruct x eqn:Hlast; [|discriminate]
  end.
  intros [= <- _]. cbn [da_grid]. eauto 15.
Qed.

(** With a target reference system the first call is the reprojection
    to [EPSG:] and that code; the rest is the run without one, on the
    reprojected grid. *)
Lemma preprocess_reprojects_first da minlat minlon maxlat maxlon epsg w :
  preprocess_bil_dataarray da minlat minlon maxlat maxlon (Some epsg) w
  = match rio_reproject (outside w) ("EPSG:" +:+ epsg) (da_grid da) with
    | Ok g =>
        preprocess_bil_dataarray
          {| da_name := da_name da; da_attrs := da_attrs da; da_grid := g |}
          minlat minlon maxlat maxlon None w
    | Raise e => (Raise e, w)
    end.
Proof.
  unfold preprocess_bil_dataarray. rewrite bind_on_grid.
  destruct (rio_reproject _ _ _); [|reflexivity].
  rewrite (bind_run (ret _)). reflexivity.
Qed.

(** Without one, the answer does not depend on the reprojection
    routine. *)
Lemma preprocess_skips_reprojection f da minlat minlon maxlat maxlon w :
  fst (preprocess_bil_dataarray da minlat minlon maxlat maxlon None
         (with_reproject f w))
  = fst (preprocess_bil_dataarray da minlat minlon maxlat maxlon None w).
Proof.
  unfold preprocess_bil_dataarray. rewrite !(bind_run (ret da)).
  unfold ret at 1 3. cbv beta iota.
  repeat (rewrite !bind_on_grid; cbv beta;
          cbn [outside with_reproject rio_clip_box xr_drop xr_squeeze
               xr_rename xr_expand_dims xr_assign_time];
          match goal with
          | |- context [match ?x with Ok _ => _ | Raise _ => _ end] =>
              destruct x; [|reflexivity]
          end; cbn [da_name da_attrs da_grid]).
  rewrite !bind_run.
  destruct (da_attrs da !! "source_url") as [u|]; [|reflexivity].
  unfold ret at 1 2. cbv beta iota.
  rewrite !bind_on_grid. cbv beta. cbn [outside with_reproject xr_expand_dims].
  destruct (xr_expand_dims _ _ _); [|reflexivity].
  rewrite !bind_run. unfold lift.
  destruct (_datetime_from_prism_flname u); [|reflexivity].
  rewrite !on_grid_run. cbn [outside with_reproject xr_assign_time fst].
  reflexivity.
Qed.

Lemma regridded_raster ds' ds :
  regridded ds' ds -> raster_dims ds -> raster_dims ds'.
Proof.
  intros H (ny & nx & [->| ->]).
  - apply Forall2_cons_inv_r in H as ([n1 k1] & r1 & [Hn1 _] & H & ->).
    apply Forall2_cons_inv_r in H as ([n2 k2] & r2 & [Hn2 _] & H & ->).
    apply Forall2_nil_inv_r in H as ->. cbn [fst] in *. subst.
    exists k1, k2. left. reflexivity.
  - apply Forall2_cons_inv_r in H as ([n0 k0] & r0 & [Hn0 Hk0] & H & ->).
    apply Forall2_cons_inv_r in H as ([n1 k1] & r1 & [Hn1 _] & H & ->).
    apply Forall2_cons_inv_r in H as ([n2 k2] & r2 & [Hn2 _] & H & ->).
    apply Forall2_nil_inv_r in H as ->. cbn [fst snd] in *. subst.
    rewrite Hk0 by discriminate.
    exists k1, k2. right. reflexivity.
Qed.

(** What [squeeze], [rename] and [expand_dims] make of the dimensions of
    a raster: the renaming goes through only when neither the rows nor
    the columns were squeezed away. *)
Lemma raster_dims_labelled ds :
  raster_dims ds ->
  "x" ∈ (fst <$> filter (fun d : string * nat => snd d <> 1%nat) ds) ->
  "y" ∈ (fst <$> filter (fun d : string * nat => snd d <> 1%nat) ds) ->
  exists nlat nlon : nat,
    ((fun d : string * nat =>
        (renamed [("x", "lon"); ("y", "lat")] (fst d), snd d))
       <$> filter (fun d : string * nat => snd d <> 1%nat) ds)
    = [("lat", nlat); ("lon", nlon)]
    /\ nlat <> 1%nat /\ nlon <> 1%nat.
Proof.
  intros (ny & nx & Hds) Hx Hy.
  assert (Hf : filter (fun d : string * nat => snd d <> 1%nat) ds
               = filter (fun d : string * nat => snd d <> 1%nat)
                   [("y", ny); ("x", nx)]).
  { destruct Hds as [->| ->]; [reflexivity|].
    rewrite filter_cons, decide_False by (intros H; apply H; reflexivity).
    reflexivity. }
  rewrite Hf in *. clear Hf Hds.
  rewrite !filter_cons, filter_nil in *. cbn [snd] in *.
  destruct (decide (ny <> 1%nat)) as [Hny|Hny];
    destruct (decide (nx <> 1%nat)) as [Hnx|Hnx]; cbn in Hx, Hy.
  - exists ny, nx. split; [reflexivity|]. split; assumption.
  - exfalso. set_solver.
  - exfalso. set_solver.
  - exfalso. set_solver.
Qed.

(** C5: [preprocess_bil_dataarray] reprojects exactly when the target
    reference system is given: with one, its first call reprojects the
    frame to [EPSG:] and that code, and it goes on as without one on the
    reprojected frame, or raises what the reprojection raised; without
    one, its answer does not depend on the reprojection routine.  With
    raster libraries that do what the spec says of them, what it
    returns for a valid frame lies within the bounding box, has the
    dimensions [time] of length one, [lat] and [lon], in this order and
    no other, has no coordinate [spatial_ref] left, and has one value
    along [time]: the date of the file name in [source_url]. *)
Theorem preprocess_normalizes (da : DataArray)
    (minlat minlon maxlat maxlon : Q) (project_epsg : option string)
    (w : world) :
  match project_epsg with
  | Some epsg =>
      match rio_reproject (outside w) ("EPSG:" +:+ epsg) (da_grid da) with
      | Ok g =>
          preprocess_bil_dataarray da minlat minlon maxlat maxlon
            (Some epsg) w
          = preprocess_bil_dataarray
              {| da_name := da_name da; da_attrs := da_attrs da;
                 da_grid := g |}
              minlat minlon maxlat maxlon None w
          /\ (documented (outside w) -> g_crs g = "EPSG:" +:+ epsg)
      | Raise e =>
          preprocess_bil_dataarray da minlat minlon maxlat maxlon
            (Some epsg) w
          = (Raise e, w)
      end
  | None =>
      forall f,
        fst (preprocess_bil_dataarray da minlat minlon maxlat maxlon None
               (with_reproject f w))
        = fst (preprocess_bil_dataarray da minlat minlon maxlat maxlon
                 None w)
  end
  /\ (documented (outside w) -> valid_frame (da_grid da) ->
      forall da',
        fst (preprocess_bil_dataarray da minlat minlon maxlat maxlon
               project_epsg w) = Ok da' ->
        inside (g_extent (da_grid da'))
               {| minx := minlon; miny := minlat;
                  maxx := maxlon; maxy := maxlat |}
        /\ (exists nlat nlon : nat,
              g_dims (da_grid da')
              = [("time", 1%nat); ("lat", nlat); ("lon", nlon)]
              /\ nlat <> 1%nat /\ nlon <> 1%nat)
        /\ g_coords (da_grid da') = []
        /\ exists u dt,
             da_attrs da !! "source_url" = Some u
             /\ _datetime_from_prism_flname u = Ok dt
             /\ g_time (da_grid da') = [dt]).
Proof.
  split.
  { destruct project_epsg as [epsg|].
    - rewrite preprocess_reprojects_first.
      destruct (rio_reproject _ _ _) as [g|e] eqn:Hr; [|reflexivity].
      split; [reflexivity|]. intros Hdoc.
      apply (reproject_doc _ Hdoc) in Hr as [Hcrs _]. exact Hcrs.
    - intros f. apply preprocess_skips_reprojection. }
  intros Hdoc Hvalid da'.
  assert (Hnone : forall da0,
    da_attrs da0 = da_attrs da -> valid_frame (da_grid da0) ->
    fst (preprocess_bil_dataarray da0 minlat minlon maxlat maxlon None w)
    = Ok da' ->
    inside (g_extent (da_grid da'))
           {| minx := minlon; miny := minlat; maxx := maxlon; maxy := maxlat |}
    /\ (exists nlat nlon : nat,
          g_dims (da_grid da')
          = [("time", 1%nat); ("lat", nlat); ("lon", nlon)]
          /\ nlat <> 1%nat /\ nlon <> 1%nat)
    /\ g_coords (da_grid da') = []
    /\ exists u dt,
         da_attrs da !! "source_url" = Some u
         /\ _datetime_from_prism_flname u = Ok dt
         /\ g_time (da_grid da') = [dt]).
  { intros da0 Hattrs [Hcoords Hdims] Hok.
    destruct (preprocess_bil_dataarray da0 _ _ _ _ None w) as [r w'] eqn:E.
    cbn [fst] in Hok. subst r.
    apply preprocess_calls in E
      as (g1 & g2 & g3 & g4 & g5 & u & dt
          & Hclip & Hdrop & Hsq & Hren & Hu & Hexp & Hdt & Hassign).
    apply (clip_box_doc _ Hdoc) in Hclip as (Hin & _ & Hd1 & Hc1).
    apply (drop_doc _ Hdoc) in Hdrop as (Hc2 & Hd2 & He2).
    apply (squeeze_doc _ Hdoc) in Hsq as (Hd3 & Hc3 & He3).
    apply (rename_doc _ Hdoc) in Hren as (Hold & Hd4 & Hc4 & He4).
    apply (expand_dims_doc _ Hdoc) in Hexp as (Hd5 & Hc5 & He5).
    apply (assign_time_doc _ Hdoc) in Hassign as (Ht6 & Hd6 & Hc6 & He6).
    assert (Hnone2 : g_coords g2 = []).
    { rewrite Hc2, Hc1, Hcoords. reflexivity. }
    assert (Hraster : raster_dims (g_dims g2)).
    { rewrite Hd2. eapply regridded_raster; [exact Hd1|exact Hdims]. }
    apply Forall_cons in Hold as [Hx Hold].
    apply Forall_cons in Hold as [Hy _]. cbn [fst] in Hx, Hy.
    unfold dim_names in Hx, Hy. rewrite Hc3, Hnone2, Hd3 in Hx, Hy.
    destruct Hx as [Hx|Hx]; [|inversion Hx].
    destruct Hy as [Hy|Hy]; [|inversion Hy].
    destruct (raster_dims_labelled (g_dims g2) Hraster Hx Hy)
      as (nlat & nlon & Hlab & Hnlat & Hnlon).
    split; [rewrite He6, He5, He4, He3, He2; exact Hin|].
    split.
    { exists nlat, nlon. rewrite Hd6, Hd5, Hd4, Hd3, Hlab.
      split; [reflexivity|]. split; assumption. }
    split; [rewrite Hc6, Hc5, Hc4, Hc3, Hnone2; reflexivity|].
    exists u, dt. rewrite <- Hattrs. split; [exact Hu|].
    split; [exact Hdt|exact Ht6]. }
  destruct project_epsg as [epsg|]; [|apply Hnone; [reflexivity|exact Hvalid]].
  rewrite preprocess_reprojects_first.
  destruct (rio_reproject _ _ _) as [g|e] eqn:Hr; [|discriminate].
  apply Hnone; [reflexivity|]. cbn [da_grid].
  apply (reproject_doc _ Hdoc) in Hr as (_ & Hd & Hc).
  destruct Hvalid as [Hcoords Hdims].
  split; [rewrite Hc; exact Hcoords|].
  eapply regridded_raster; [exact Hd|exact Hdims].
Qed.

Lemma regridded_refl ds : regridded ds ds.
Proof. apply Forall2_same_length_lookup_2; [reflexivity|]. intros; simplify_eq. auto. Qed.

(** The sample raster libraries do what the spec says. *)
Lemma sample_documented glob get : documented (sample_outside glob get).
Proof.
  split; cbn [sample_outside rio_reproject rio_clip_box xr_drop xr_squeeze
              xr_rename xr_expand_dims xr_assign_time].
  - intros crs g g' [= <-]. cbn. split; [reflexivity|].
    split; [apply regridded_refl|reflexivity].
  - intros x0 y0 x1 y1 g g'. unfold sample_clip_box.
    destruct (inside_b _ _) eqn:Hin; intros [= <-].
    + split; [|split; [reflexivity|split; [apply regridded_refl|reflexivity]]].
      unfold inside_b in Hin.
      apply andb_prop in Hin as [Hin H4]. apply andb_prop in Hin as [Hin H3].
      apply andb_prop in Hin as [H1 H2].
      repeat split; apply Qle_bool_iff; assumption.
    + split; [|split; [reflexivity|split; [apply regridded_refl|reflexivity]]].
      cbn. repeat split; apply Qle_refl.
  - intros nm g g' [= <-]. repeat split.
  - intros g g' [= <-]. repeat split.
  - intros m g g'. unfold sample_rename.
    destruct (bool_decide _) eqn:Hb; [|discriminate]. intros [= <-].
    apply bool_decide_eq_true in Hb. repeat split. exact Hb.
  - intros nm g g' [= <-]. repeat split.
  - intros t g g' [= <-]. repeat split.
Qed.

Lemma preprocess_normalizes_witness :
  inside (g_extent (da_grid day1_normal))
         {| minx := (-125 # 1)%Q; miny := (32 # 1)%Q;
            maxx := (-114 # 1)%Q; maxy := (43 # 1)%Q |}
  /\ (exists nlat nlon : nat,
        g_dims (da_grid day1_normal)
        = [("time", 1%nat); ("lat", nlat); ("lon", nlon)]
        /\ nlat <> 1%nat /\ nlon <> 1%nat)
  /\ g_coords (da_grid day1_normal) = []
  /\ exists u dt,
       da_attrs day1_frame !! "source_url" = Some u
       /\ _datetime_from_prism_flname u = Ok dt
       /\ g_time (da_grid day1_normal) = [dt].
Proof.
  apply (proj2 (preprocess_normalizes day1_frame
                  (32 # 1)%Q (-125 # 1)%Q (43 # 1)%Q (-114 # 1)%Q
                  (Some "4326") (start healthy))).
  - apply sample_documented.
  - split; [reflexivity|]. exists 2%nat, 2%nat. right. reflexivity.
  - vm_compute. reflexivity.
Defined.

(** X14: a run of [main] that returns has listed only URLs whose file
    names hold a date that [_datetime_from_prism_flname] reads: one
    listed URL without such a date makes the whole run raise. *)
Theorem main_returns_only_for_dated_urls (years : list Z)
    (variable outpath version scale stability : string)
    (host protocol : option string) (kw : option kwargs) (w : world) :
  fst (main years variable outpath version scale stability host protocol kw w)
  = Ok tt ->
  exists all_urls,
    fst (enumerate_urls years (main_fs host protocol) variable scale version
           stability w) = Ok all_urls
    /\ Forall (fun url => exists dt, _datetime_from_prism_flname url = Ok dt)
         all_urls.
Proof.
  rewrite main_run. cbv zeta.
  destruct (enumerate_urls _ _ _ _ _ _ w) as [[all_urls|e] w1]; [|discriminate].
  destruct (for_each _ all_urls _) as [[daily_paths|e] w3] eqn:Hloop;
    [|discriminate].
  intros _. exists all_urls. split; [reflexivity|].
  apply for_each_ok_each in Hloop. eapply Forall_impl; [exact Hloop|].
  intros url (s0 & p & s1 & Hurl). eapply process_url_dated, Hurl.
Qed.

Lemma main_returns_only_for_dated_urls_witness :
  exists all_urls,
    fst (enumerate_urls [2020] ftp_prism "tmean" "4km" "D2" "stable"
           (start healthy)) = Ok all_urls
    /\ Forall (fun url => exists dt, _datetime_from_prism_flname url = Ok dt)
         all_urls.
Proof.
  apply (main_returns_only_for_dated_urls [2020] "tmean"
           "prism-tmean-2020.zarr" "D2" "4km" "stable" None None None
           (start healthy)).
  vm_compute. reflexivity.
Defined.

(* ===================================================================== *)
(** ** Listings are asked for once *)
(* ===================================================================== *)

Lemma queries_glob fs pattern evs :
  queries (EvGlob fs pattern :: evs) = S (queries evs).
Proof. reflexivity. Qed.

Lemma year_key_differs (fs : filesystem) (variable : string)
    (stability scale version : option string) (keywords : list string)
    (y yr : Z) (c : gmap cache_key (list string)) (v : list string) :
  <[call_key (YInt y) fs variable stability scale version keywords := v]> c
    !! call_key (YInt yr) fs variable stability scale version keywords = None ->
  yr <> y
  /\ c !! call_key (YInt yr) fs variable stability scale version keywords = None.
Proof.
  intros H. assert (Hne : yr <> y).
  { intros ->. rewrite lookup_insert_eq in H. discriminate. }
  split; [exact Hne|]. rewrite lookup_insert_ne in H; [exact H|].
  unfold call_key. cbn [year_key]. congruence.
Qed.

Lemma bind_ret_state {S A B} (m : M S A) (f : A -> B) s :
  snd (bind m (fun a => ret (f a)) s) = snd (m s).
Proof. rewrite bind_run. destruct (m s) as [[a|e] s']; reflexivity. Qed.

(** The listings of a run of years: one query at most for each distinct
    year whose listing is not filed yet. *)
Lemma listings_queries fs variable stability scale version years : forall w,
  exists evs,
    trace (snd (for_each (fun yr =>
              get_prism_daily_urls (YInt yr) fs variable
                (Some stability) (Some scale) (Some version) main_keywords) years w))
    = trace w ++ evs
    /\ (queries evs
        <= size (list_to_set (filter (fun yr =>
                   url_cache w !! call_key (YInt yr) fs variable
                     (Some stability) (Some scale) (Some version) main_keywords = None)
                   years) : gset Z))%nat.
Proof.
  induction years as [|y ys IH]; intros w; cbn [for_each].
  - exists []. split; [symmetry; apply app_nil_r|cbn; lia].
  - rewrite bind_run. unfold get_prism_daily_urls at 1, cache.
    fold (call_key (YInt y) fs variable (Some stability) (Some scale)
            (Some version) main_keywords).
    destruct (url_cache w !! call_key (YInt y) _ _ _ _ _ _) as [v|] eqn:Hkey.
    + destruct (IH w) as (evs & T & Q). exists evs.
      rewrite bind_ret_state. split; [exact T|].
      rewrite filter_cons_False by (rewrite Hkey; discriminate). exact Q.
    + rewrite filter_cons_True by exact Hkey. rewrite list_to_set_cons.
      unfold get_prism_daily_urls_wrapped, fs_glob.
      destruct (remote_glob _ _ _ _) as [v|e].
      2:{ eexists [_]. split; [reflexivity|]. rewrite queries_glob.
          change (queries []) with 0%nat.
          transitivity (size ({[y]} : gset Z)); [rewrite size_singleton; lia|].
          apply subseteq_size, union_subseteq_l. }
      rewrite bind_ret_state.
      match goal with
      | |- context [for_each _ ys ?w1] => destruct (IH w1) as (evs & T & Q)
      end.
      eexists (_ :: evs). split.
      { rewrite T. cbn [set_url_cache log tick trace].
        rewrite <- app_assoc. reflexivity. }
      rewrite queries_glob. cbn [set_url_cache url_cache log tick] in Q.
      match type of Q with
      | (_ <= size ?S')%nat =>
          assert (Hsub : S' ⊆ list_to_set (filter (fun yr =>
                     url_cache w !! call_key (YInt yr) fs variable
                       (Some stability) (Some scale) (Some version) main_keywords = None)
                     ys) ∖ {[y]})
      end.
      { intros yr Hyr. apply elem_of_list_to_set, list_elem_of_filter in Hyr
          as [Hnone Hin].
        apply year_key_differs in Hnone as [Hne Hnone].
        apply elem_of_difference. split.
        - apply elem_of_list_to_set, list_elem_of_filter. split; assumption.
        - rewrite elem_of_singleton. exact Hne. }
      apply subseteq_size in Hsub.
      match goal with
      | |- (_ <= size ({[y]} ∪ ?S0))%nat =>
          assert (Hsize : size ({[y]} ∪ S0)
                          = S (size (S0 ∖ {[y]})))
      end.
      { match goal with
        | |- size ({[y]} ∪ ?S0) = _ =>
            assert (E : ({[y]} : gset Z) ∪ S0 = {[y]} ∪ (S0 ∖ {[y]}))
        end.
        { apply set_eq. intros k.
          rewrite !elem_of_union, elem_of_difference, elem_of_singleton.
          destruct (decide (k = y)); tauto. }
        rewrite E, size_union, size_singleton; [reflexivity|].
        intros k Hk1 Hk2. apply elem_of_difference in Hk2 as [_ Hk2].
        contradiction. }
      rewrite Hsize. lia.
Qed.

(** X15: the listings of [main] put at most one query to the remote
    store for each distinct year of [years] whose listing is not filed
    yet, so at most one for each distinct year; a year that occurs twice,
    or whose listing an earlier call filed, is not asked for again. *)
Theorem enumerate_urls_asks_each_year_once (years : list Z) (fs : filesystem)
    (variable scale version stability : string) (w : world) :
  let evs := new_events w (snd (enumerate_urls years fs variable scale version
                                  stability w)) in
  (queries evs
   <= size (list_to_set (filter (fun yr =>
              url_cache w !! call_key (YInt yr) fs variable
                (Some stability) (Some scale) (Some version) main_keywords = None)
              years) : gset Z))%nat
  /\ (queries evs <= size (list_to_set years : gset Z))%nat.
Proof.
  cbv zeta.
  destruct (listings_queries fs variable stability scale version years w)
    as (evs & T & Q).
  assert (Hevs : new_events w (snd (enumerate_urls years fs variable scale
                                      version stability w)) = evs).
  { apply new_events_app. unfold enumerate_urls. rewrite bind_run.
    destruct (for_each _ years w) as [[ls|e] w1]; exact T. }
  rewrite Hevs. split; [exact Q|].
  etransitivity; [exact Q|]. apply subseteq_size.
  intros yr Hyr. apply elem_of_list_to_set, list_elem_of_filter in Hyr as [_ Hin].
  apply elem_of_list_to_set, Hin.
Qed.

(** The listings a run of years returned are filed when it ends. *)
Lemma listings_filed fs variable stability scale version years : forall w ls w1,
  for_each (fun yr => get_prism_daily_urls (YInt yr) fs variable
                        (Some stability) (Some scale) (Some version) main_keywords) years w
  = (Ok ls, w1) ->
  Forall2 (fun yr l => url_cache w1 !! call_key (YInt yr) fs variable
                         (Some stability) (Some scale) (Some version) main_keywords = Some l)
    years ls.
Proof.
  induction years as [|y ys IH]; intros w ls w1; cbn [for_each].
  - intros [= <- <-]. constructor.
  - rewrite bind_run.
    destruct (get_prism_daily_urls (YInt y) _ _ _ _ _ _ w) as [[l|e] w0] eqn:E;
      [|discriminate].
    assert (Hfiled : url_cache w0 !! call_key (YInt y) fs variable
                       (Some stability) (Some scale) (Some version) main_keywords = Some l).
    { revert E. unfold get_prism_daily_urls, cache.
      fold (call_key (YInt y) fs variable (Some stability) (Some scale)
              (Some version) main_keywords).
      destruct (url_cache w !! call_key _ _ _ _ _ _ _) as [v|] eqn:Hkey.
      - intros [= <- <-]. exact Hkey.
      - destruct (get_prism_daily_urls_wrapped _ _ _ _ _ _ w) as [[v|e] w'];
          [|discriminate].
        intros [= <- <-]. apply lookup_insert_eq. }
    rewrite bind_run.
    pose proof (respects_for_each only_grows _ ys
                  (fun yr => grows_get_prism_daily_urls (YInt yr) fs variable
                               (Some stability) (Some scale) (Some version) main_keywords)
                  w0) as (_ & Hsub & _).
    destruct (for_each _ ys w0) as [[ls'|e] w2] eqn:E2; [|discriminate].
    cbn [snd] in Hsub. intros [= <- <-]. constructor; [|eapply IH, E2].
    eapply lookup_weaken; eassumption.
Qed.

(** Listings that are all filed are returned without a step. *)
Lemma listings_from_cache fs variable stability scale version w years ls :
  Forall2 (fun yr l => url_cache w !! call_key (YInt yr) fs variable
                         (Some stability) (Some scale) (Some version) main_keywords = Some l)
    years ls ->
  for_each (fun yr => get_prism_daily_urls (YInt yr) fs variable
                        (Some stability) (Some scale) (Some version) main_keywords) years w
  = (Ok ls, w).
Proof.
  induction 1 as [|y l ys ls Hy _ IH]; cbn [for_each]; [reflexivity|].
  rewrite bind_run. unfold get_prism_daily_urls at 1, cache.
  fold (call_key (YInt y) fs variable (Some stability) (Some scale)
          (Some version) main_keywords).
  rewrite Hy, bind_run, IH. reflexivity.
Qed.

Lemma grows_after_listing fs variable kw outpath all_urls :
  respects only_grows
    (TemporaryDirectory (fun tmpdir =>
       daily_paths <- for_each (process_url tmpdir fs variable kw) all_urls ;;
       ds <- open_mfdataset daily_paths ;;
       to_zarr ds outpath)).
Proof.
  apply grows_TemporaryDirectory. intros t.
  apply respects_bind; [apply _| |intros paths].
  { apply respects_for_each; [apply _|]. intros url. apply grows_process_url. }
  apply respects_bind; [apply _| |intros ds; apply grows_to_zarr].
  intros w. rewrite open_mfdataset_state. reflexivity.
Qed.

(** X16: the listings [main] obtained stay filed for the rest of the
    process, whether the run then succeeds or fails: listing the same
    years again after the run returns the same URLs and does nothing,
    no query included. *)
Theorem main_files_its_listings (years : list Z)
    (variable outpath version scale stability : string)
    (host protocol : option string) (kw : option kwargs) (w : world)
    (all_urls : list string) :
  fst (enumerate_urls years (main_fs host protocol) variable scale version
         stability w) = Ok all_urls ->
  let w' := snd (main years variable outpath version scale stability
                   host protocol kw w) in
  enumerate_urls years (main_fs host protocol) variable scale version
    stability w' = (Ok all_urls, w').
Proof.
  intros Henum. cbv zeta.
  destruct (enumerate_urls years (main_fs host protocol) variable scale
              version stability w) as [r w1] eqn:E.
  cbn [fst] in Henum. subst r.
  assert (Hfiled : exists ls, all_urls = concat ls
    /\ Forall2 (fun yr l =>
          url_cache w1 !! call_key (YInt yr) (main_fs host protocol) variable
            (Some stability) (Some scale) (Some version) main_keywords = Some l) years ls).
  { revert E. unfold enumerate_urls. rewrite bind_run.
    destruct (for_each _ years w) as [[ls|e] w0] eqn:Hloop; [|discriminate].
    intros [= <- <-]. exists ls. split; [reflexivity|].
    eapply listings_filed, Hloop. }
  destruct Hfiled as (ls & -> & Hfiled).
  pose proof (grows_after_listing (main_fs host protocol) variable
                (default no_kwargs kw) outpath (concat ls) w1)
    as (_ & Hsub & _).
  assert (Hmain : snd (main years variable outpath version scale stability
                         host protocol kw w)
                  = snd (TemporaryDirectory (fun tmpdir =>
                      daily_paths <- for_each
                        (process_url tmpdir (main_fs host protocol) variable
                           (default no_kwargs kw)) (concat ls) ;;
                      ds <- open_mfdataset daily_paths ;;
                      to_zarr ds outpath) w1)).
  { unfold main. rewrite bind_run. fold (main_fs host protocol).
    rewrite E. reflexivity. }
  rewrite Hmain.
  set (w' := snd (TemporaryDirectory _ w1)) in *.
  unfold enumerate_urls. rewrite bind_run.
  rewrite (listings_from_cache _ _ _ _ _ w' years ls); [reflexivity|].
  eapply Forall2_impl; [exact Hfiled|]. intros yr l Hl. cbv beta in Hl.
  exact (lookup_weaken _ _ _ _ Hl Hsub).
Qed.

Lemma main_files_its_listings_witness :
  enumerate_urls [2020] ftp_prism "tmean" "4km" "D2" "stable"
    (snd (sample_main one_bad_day))
  = (Ok [day1_url; bad_url; day2_url], snd (sample_main one_bad_day)).
Proof.
  apply (main_files_its_listings [2020] "tmean" "prism-tmean-2020.zarr"
           "D2" "4km" "stable" None None None (start one_bad_day)).
  vm_compute. reflexivity.
Defined.

(* ===================================================================== *)
(** ** The command line *)
(* ===================================================================== *)

Lemma clipbox_item_key {F} (float : string -> result F) c k x :
  clipbox_item float c = Ok (k, x) -> k = item_key c.
Proof.
  unfold clipbox_item, item_key, getitem.
  destruct (split "=" c) as [|k0 [|t fields]]; cbn; try discriminate.
  destruct (float t); [|discriminate]. intros [= <- _]. reflexivity.
Qed.

(** X17: an item of the clip box without [=] raises [IndexError]; an
    item [k=t], or [k=t=...] where anything may follow the second [=],
    gives the key [k] and the number [float(t)], or the error of
    [float(t)]: what follows a second [=] is ignored. *)
Theorem clipbox_item_reads {F} (float : string -> result F) (c : string) :
  (lacks "=" c -> clipbox_item float c = Raise IndexError)
  /\ forall k t, lacks "=" k -> lacks "=" t ->
       (c = k +:+ "=" +:+ t \/ exists more, c = k +:+ "=" +:+ t +:+ "=" +:+ more) ->
       clipbox_item float c
       = match float t with
         | Ok x => Ok (k, x)
         | Raise e => Raise e
         end.
Proof.
  split.
  - intros Hc. unfold clipbox_item. rewrite (split_lacks _ _ Hc). reflexivity.
  - intros k t Hk Ht Hform. unfold clipbox_item.
    assert (Hsplit : exists fields, split "=" c = k :: t :: fields).
    { destruct Hform as [->|[more ->]].
      - exists []. change ("=" +:+ t) with (String "=" t).
        rewrite split_at_sep, (split_lacks _ _ Hk), (split_lacks _ _ Ht).
        reflexivity.
      - exists (split "=" more).
        change ("=" +:+ t +:+ "=" +:+ more)
          with (String "=" (t +:+ String "=" more)).
        rewrite !split_at_sep, (split_lacks _ _ Hk), (split_lacks _ _ Ht).
        reflexivity. }
    destruct Hsplit as [fields ->]. cbn. destruct (float t); reflexivity.
Qed.

(** The comprehension from a dictionary built so far. *)
Lemma clipbox_dict_run {F} (float : string -> result F) items :
  forall acc,
  match clipbox_dict float items acc with
  | Ok d =>
      Forall (fun c => is_ok (clipbox_item float c) = true) items
      /\ forall k,
           match last (filter (fun c => item_key c = k) items) with
           | Some c => exists x, clipbox_item float c = Ok (k, x)
                                 /\ d !! k = Some (VFloat x)
           | None => d !! k = acc !! k
           end
  | Raise e =>
      exists pre c post,
        items = pre ++ c :: post
        /\ Forall (fun c' => is_ok (clipbox_item float c') = true) pre
        /\ clipbox_item float c = Raise e
  end.
Proof.
  induction items as [|c items IH]; intros acc; cbn [clipbox_dict].
  - split; [constructor|]. intros k. reflexivity.
  - destruct (clipbox_item float c) as [[k0 x]|e] eqn:Hc.
    2:{ exists [], c, items. split; [reflexivity|]. split; [constructor|exact Hc]. }
    pose proof (clipbox_item_key _ _ _ _ Hc) as Hk0.
    specialize (IH (<[k0 := VFloat x]> acc)).
    destruct (clipbox_dict float items _) as [d|e].
    + destruct IH as [Hall IH]. split.
      { constructor; [rewrite Hc; reflexivity|exact Hall]. }
      intros k. specialize (IH k).
      destruct (decide (item_key c = k)) as [Hk|Hk].
      * rewrite filter_cons_True by exact Hk. rewrite last_cons.
        destruct (last (filter _ items)); [exact IH|].
        exists x. subst k0 k. split; [exact Hc|].
        rewrite IH. apply lookup_insert_eq.
      * rewrite filter_cons_False by exact Hk.
        destruct (last (filter _ items)); [exact IH|].
        rewrite IH. apply lookup_insert_ne. congruence.
    + destruct IH as (pre & c' & post & -> & Hpre & Hc').
      exists (c :: pre), c', post. split; [reflexivity|].
      split; [|exact Hc']. constructor; [rewrite Hc; reflexivity|exact Hpre].
Qed.

(** X18: the [preprocess_kwargs] of the command line.  They are built
    exactly when every item of the clip box can be read; otherwise the
    error is that of the first item that cannot.  When they are built,
    [project_epsg] is the text of [--epsg], or [None] when that text is
    [none] in any letter case, whatever the clip box says under that
    key; every other key of an item holds the number of the last item
    with that key, and there are no other keys. *)
Theorem cli_preprocess_kwargs_result {F} (float : string -> result F)
    (clipbox epsg : string) :
  let items := split "," clipbox in
  (is_ok (cli_preprocess_kwargs float clipbox epsg) = true
   <-> Forall (fun c => is_ok (clipbox_item float c) = true) items)
  /\ match cli_preprocess_kwargs float clipbox epsg with
     | Ok d =>
         d !! "project_epsg"
         = Some (VEpsg (if String.eqb (str_lower epsg) "none"
                        then None else Some epsg))
         /\ forall k, k <> "project_epsg" ->
              match last (filter (fun c => item_key c = k) items) with
              | Some c => exists x, clipbox_item float c = Ok (k, x)
                                    /\ d !! k = Some (VFloat x)
              | None => d !! k = None
              end
     | Raise e =>
         exists pre c post,
           items = pre ++ c :: post
           /\ Forall (fun c' => is_ok (clipbox_item float c') = true) pre
           /\ clipbox_item float c = Raise e
     end.
Proof.
  cbv zeta. unfold cli_preprocess_kwargs.
  pose proof (clipbox_dict_run float (split "," clipbox) ∅) as H.
  destruct (clipbox_dict float (split "," clipbox) ∅) as [d|e].
  - destruct H as [Hall H]. split; [split; [intros _; exact Hall|reflexivity]|].
    split; [apply lookup_insert_eq|]. intros k Hk. specialize (H k).
    destruct (last (filter _ _)) as [c|].
    + destruct H as (x & Hc & Hd). exists x. split; [exact Hc|].
      rewrite lookup_insert_ne by congruence. exact Hd.
    + rewrite lookup_insert_ne by congruence. rewrite H. apply lookup_empty.
  - split; [|exact H]. split; [discriminate|].
    destruct H as (pre & c & post & -> & _ & Hc). intros Hall.
    apply Forall_app in Hall as [_ Hall]. apply Forall_cons in Hall as [Hbad _].
    rewrite Hc in Hbad. discriminate.
Qed.

(** The defaults of the command line, with numbers kept as their text. *)
Example cli_defaults :
  cli_preprocess_kwargs (fun t => Ok t)
    "minlon=-125.0,minlat=32.0,maxlon=-114.0,maxlat=43.0" "4326"
  = Ok (<["project_epsg" := VEpsg (Some "4326")]>
          (<["maxlat" := VFloat "43.0"]>
             (<["maxlon" := VFloat "-114.0"]>
                (<["minlat" := VFloat "32.0"]>
                   (<["minlon" := VFloat "-125.0"]> ∅)))))
  /\ cli_preprocess_kwargs (fun t => Ok t) "minlon=-125.0,minlat" "4326"
     = Raise IndexError
  /\ cli_preprocess_kwargs (fun t => Ok t) "minlat=1=2,minlat=3" "NoNe"
     = Ok (<["project_epsg" := VEpsg None]> (<["minlat" := VFloat "3"]> ∅))
  /\ cli_years 2019 2021 = [2019; 2020; 2021]
  /\ cli_years 2021 2019 = [].
Proof. repeat split; vm_compute; reflexivity. Qed.

Lemma cli_years_NoDup firstyear lastyear : NoDup (cli_years firstyear lastyear).
Proof.
  unfold cli_years. apply NoDup_fmap_2; [|apply NoDup_seq].
  intros i j H. lia.
Qed.

(** X19: the years of a command-line run are exactly those from
    [--firstyear] to [--lastyear], both included, each once and in
    ascending order, and none when [--lastyear] is the smaller; listing
    them puts at most one query per year of that range to the remote
    store. *)
Theorem cli_years_listed_once (firstyear lastyear : Z) (fs : filesystem)
    (variable scale version stability : string) (w : world) :
  (forall y, y ∈ cli_years firstyear lastyear <-> firstyear <= y <= lastyear)
  /\ (forall i j yi yj, cli_years firstyear lastyear !! i = Some yi ->
        cli_years firstyear lastyear !! j = Some yj -> (i < j)%nat -> yi < yj)
  /\ Z.of_nat (queries (new_events w
                 (snd (enumerate_urls (cli_years firstyear lastyear) fs
                         variable scale version stability w))))
     <= Z.max 0 (lastyear - firstyear + 1).
Proof.
  split; [|split].
  - intros y. unfold cli_years. rewrite list_elem_of_fmap. split.
    + intros (i & -> & Hi). apply elem_of_seq in Hi. lia.
    + intros Hy. exists (Z.to_nat (y - firstyear)). split; [lia|].
      apply elem_of_seq. lia.
  - unfold cli_years. intros i j yi yj Hi Hj Hij.
    rewrite list_lookup_fmap in Hi, Hj.
    destruct (seq 0 _ !! i) as [a|] eqn:Ha; [|discriminate].
    destruct (seq 0 _ !! j) as [b|] eqn:Hb; [|discriminate].
    apply lookup_seq in Ha as [-> _]. apply lookup_seq in Hb as [-> _].
    cbn in Hi, Hj. injection Hi as <-. injection Hj as <-. lia.
  - destruct (listings_queries fs variable stability scale version
                (cli_years firstyear lastyear) w) as (evs & T & Q).
    assert (Hevs : new_events w
                     (snd (enumerate_urls (cli_years firstyear lastyear) fs
                             variable scale version stability w)) = evs).
    { apply new_events_app. unfold enumerate_urls. rewrite bind_ret_state.
      exact T. }
    rewrite Hevs.
    assert (Hsize : (size (list_to_set (filter (fun yr =>
                       url_cache w !! call_key (YInt yr) fs variable
                         (Some stability) (Some scale) (Some version) main_keywords = None)
                       (cli_years firstyear lastyear)) : gset Z)
                     <= length (cli_years firstyear lastyear))%nat).
    { rewrite size_list_to_set
        by (apply NoDup_filter, cli_years_NoDup).
      apply length_filter. }
    unfold cli_years in Hsize at 2. rewrite length_fmap, length_seq in Hsize.
    lia.
Qed.
